(** * EngineBridge: the process bridge of talkto

    A shallow embedding of [packages/cli/src/engine/bridge.ts] (class
    [EngineBridge]) and the properties of its request correlation, readiness
    gate, streaming sessions and failure sweep.

    JavaScript runs every callback to completion, so each callback of the
    class (a public method call, a ['line'] event of the readline interface,
    an ['exit'] or ['error'] event of the child process, a timer firing) is
    one atomic function on the state of the bridge.  What the class does to
    the outside (lines written to the worker, promises resolved or rejected,
    chunks handed to [onChunk], events emitted) is appended to an output
    history kept in the state, oldest first. *)

From Stdlib Require Import List String ZArith Bool Arith Lia DecimalString.
Import ListNotations.
Open Scope string_scope.

(** ** JavaScript values, as far as the bridge looks at them *)

Module Js.

(** What [JSON.parse] can return, plus [undefined] (the value of a missing
    property).  Numbers are kept to the integers: [VNum z] is the double
    nearest to [z]. *)
#[local] Unset Elimination Schemes.
Inductive value : Type :=
| VUndefined
| VNull
| VBool (b : bool)
| VNum (z : Z)
| VStr (s : string)
| VArr (items : list value)
| VObj (fields : list (string * value)).
#[local] Set Elimination Schemes.

(** Own properties of an object, in insertion order, keys distinct. *)
Fixpoint lookup (k : string) (fields : list (string * value)) : option value :=
  match fields with
  | [] => None
  | (k', v) :: rest => if String.eqb k k' then Some v else lookup k rest
  end.

Definition nullish (v : value) : bool :=
  match v with
  | VUndefined | VNull => true
  | _ => false
  end.

(** [v.k] for [v] that is not nullish ([v.k] on [null] or [undefined]
    throws a TypeError; the callers test [nullish] first).  None of the
    keys the bridge reads ([id], [status], [data], [error], [type],
    [message]) exists on a primitive, an array or [Object.prototype]. *)
Definition get (v : value) (k : string) : value :=
  match v with
  | VObj fields =>
      match lookup k fields with
      | Some x => x
      | None => VUndefined
      end
  | _ => VUndefined
  end.

(** [v?.k] *)
Definition optGet (v : value) (k : string) : value :=
  if nullish v then VUndefined else get v k.

(** [v === s] for a string literal [s] *)
Definition isStr (v : value) (s : string) : bool :=
  match v with
  | VStr s' => String.eqb s' s
  | _ => false
  end.

(** Truthiness, as [||] tests it. *)
Definition truthy (v : value) : bool :=
  match v with
  | VUndefined | VNull => false
  | VBool b => b
  | VNum z => negb (Z.eqb z 0)
  | VStr s => negb (String.eqb s "")
  | VArr _ | VObj _ => true
  end.

Definition showZ (z : Z) : string := NilZero.string_of_int (Z.to_int z).

(** Number::toString.  A number [VNum z] is the double nearest to [z].  An
    integer up to 2^53 in absolute value is a double and prints in full.  A
    larger one prints the fewest digits that read back as the same double,
    then zeros up to 21 digits in all, and in exponent form beyond. *)

(** The double nearest to [a > 2^53], ties to the even mantissa. *)
Definition nearestDouble (a : Z) : Z :=
  let shift := (Z.log2 a - 52)%Z in
  let q := Z.shiftr a shift in
  let r := (a - Z.shiftl q shift)%Z in
  let half := Z.shiftl 1 (shift - 1) in
  let q := if (half <? r)%Z || ((r =? half)%Z && Z.odd q) then (q + 1)%Z else q in
  Z.shiftl q shift.

(** Whether the integer [c] rounds to the double [x >= 2^53]: it lies within
    half a gap of [x], the ends counting when the mantissa of [x] is even.
    The gap below a power of two is half the gap above it. *)
Definition readsAs (x c : Z) : bool :=
  let shift := (Z.log2 x - 52)%Z in
  let m := Z.shiftr x shift in
  let up := Z.shiftl 1 (shift + 1) in
  let down := if (m =? 2 ^ 52)%Z then Z.shiftl 1 shift else up in
  if Z.even m
  then (4 * x - down <=? 4 * c)%Z && (4 * c <=? 4 * x + up)%Z
  else (4 * x - down <? 4 * c)%Z && (4 * c <? 4 * x + up)%Z.

(** The digits [s], their number [k] and the exponent [n] of the
    specification: [s * 10^(n-k)] reads as [x], with [k] as small as
    possible and [s] as near to [x] as possible (the even one of two);
    [nd] is the number of digits of [x]; the search goes up from [k]
    digits. *)
Fixpoint shortest (fuel k nd : nat) (x : Z) : Z * nat * nat :=
  match fuel with
  | O => (x, nd, nd)
  | S fuel' =>
      let p := (10 ^ Z.of_nat (nd - k))%Z in
      let lo := (x / p)%Z in
      let below := (lo * p)%Z in
      let above := ((lo + 1) * p)%Z in
      let found (s : Z) : Z * nat * nat :=
        if (s =? 10 ^ Z.of_nat k)%Z then (1%Z, 1, S nd) else (s, k, nd) in
      match readsAs x below, readsAs x above with
      | true, true =>
          if (x - below <? above - x)%Z
             || ((x - below =? above - x)%Z && Z.even lo)
          then found lo else found (lo + 1)%Z
      | true, false => found lo
      | false, true => found (lo + 1)%Z
      | false, false => shortest fuel' (S k) nd x
      end
  end.

Fixpoint zeroes (n : nat) : string :=
  match n with
  | O => ""
  | S m => "0" ++ zeroes m
  end.

Definition render (skn : Z * nat * nat) : string :=
  let '(s, k, n) := skn in
  if Nat.leb n 21 then showZ s ++ zeroes (n - k)
  else
    match showZ s with
    | String d EmptyString => String d "" ++ "e+" ++ showZ (Z.of_nat (n - 1))
    | String d rest => String d "" ++ "." ++ rest ++ "e+" ++ showZ (Z.of_nat (n - 1))
    | EmptyString => ""
    end.

Definition numberToString (z : Z) : string :=
  let a := Z.abs z in
  let text :=
    if (a <=? 2 ^ 53)%Z then showZ a
    else
      let x := nearestDouble a in
      if (2 ^ 1024 <=? x)%Z then "Infinity"
      else render (shortest 17 1 (String.length (showZ x)) x) in
  if (z <? 0)%Z then "-" ++ text else text.

(** [String(v)], which [new Error(v)] applies to its argument; [None] when
    the conversion throws a TypeError.  An array is joined with commas, its
    [null] and [undefined] elements as empty strings.  An object converts
    through [Object.prototype.toString], unless it has an own property
    [toString]: coming from JSON that is not a function, [valueOf] returns
    no primitive either, and the conversion throws. *)
Fixpoint ToString (v : value) : option string :=
  match v with
  | VUndefined => Some "undefined"
  | VNull => Some "null"
  | VBool true => Some "true"
  | VBool false => Some "false"
  | VNum z => Some (numberToString z)
  | VStr s => Some s
  | VArr items =>
      (fix join (l : list value) : option string :=
         match l with
         | [] => Some ""
         | x :: rest =>
             match (if nullish x then Some "" else ToString x), rest with
             | None, _ => None
             | Some here, [] => Some here
             | Some here, _ :: _ =>
                 match join rest with
                 | Some more => Some (here ++ "," ++ more)
                 | None => None
                 end
             end
         end) items
  | VObj fields =>
      match lookup "toString" fields with
      | Some _ => None
      | None => Some "[object Object]"
      end
  end.

(** [{...o, k: v}]: an existing key keeps its place, a new one goes last. *)
Fixpoint assign (k : string) (v : value) (fields : list (string * value))
  : list (string * value) :=
  match fields with
  | [] => [(k, v)]
  | (k', v') :: rest =>
      if String.eqb k k' then (k, v) :: rest else (k', v') :: assign k v rest
  end.

End Js.
Import Js.

(** ** The state of a bridge *)

(** An [Error] object: the bridge only ever builds [new Error(message)]. *)
Record JsError := mkError { message : string }.

(** Timers, promises and ['response'] listeners are created once per call;
    each is named after the call that made it: the [n]-th call of [start], or
    the correlation id that [randomUUID] returned to [send] / [sendStreaming]. *)
Inductive Timer :=
| StartupTimer (n : nat)
| RequestTimer (id : string)
| StreamTimer (id : string).

Inductive Promise :=
| StartPromise (n : nat)
| SendPromise (id : string)
| StreamPromise (id : string).

Inductive Listener :=
| ReadyHandler (n : nat)       (* [handler] of waitForReady *)
| StreamHandler (id : string). (* [handler] of sendStreaming *)

Inductive Outcome :=
| Resolved (v : value)
| Rejected (e : JsError).

(** interface PendingRequest: [resolve] and [reject] are the two settling
    functions of one promise. *)
Record PendingRequest := {
  promise : Promise;
  timeout : Timer
}.

Record ChildProcess := { killed : bool }.
Record Interface := { closed : bool }.

Inductive Emitted :=
| EmLog (text : string)
| EmExit (code : option Z)
| EmError (e : JsError).

(** What the bridge does to the outside. *)
Inductive Output :=
| Write (line : value)                 (* process.stdin.write(JSON.stringify(line) + '\n') *)
| Settle (p : Promise) (o : Outcome)   (* a call of resolve or reject of [p] *)
| Chunk (id : string) (chunk : value)  (* a call of the onChunk given with [id] *)
| Emit (e : Emitted)                   (* this.emit('log' | 'exit' | 'error', ...) *)
| Uncaught (e : JsError).              (* an exception no handler of the bridge catches *)

Record Bridge := mkBridge {
  enginePath : string;
  process : option ChildProcess;
  readline : option Interface;
  pending : list (string * PendingRequest);   (* Map, in insertion order *)
  ready : bool;
  responseListeners : list Listener;          (* listeners of 'response', in order *)
  errorListeners : nat;                       (* listeners of 'error' the caller attached *)
  timers : list (Timer * Z);                  (* armed timers, with their delay in ms *)
  starts : nat;                               (* calls of start so far *)
  out : list Output                           (* output history, oldest first *)
}.

(** [new EngineBridge(enginePath)] *)
Definition create (path : string) : Bridge :=
  {| enginePath := path; process := None; readline := None; pending := [];
     ready := false; responseListeners := []; errorListeners := 0;
     timers := []; starts := 0; out := [] |}.

Definition set_process (p : option ChildProcess) (s : Bridge) : Bridge :=
  mkBridge (enginePath s) p (readline s) (pending s) (ready s)
           (responseListeners s) (errorListeners s) (timers s) (starts s) (out s).
Definition set_readline (r : option Interface) (s : Bridge) : Bridge :=
  mkBridge (enginePath s) (process s) r (pending s) (ready s)
           (responseListeners s) (errorListeners s) (timers s) (starts s) (out s).
Definition set_pending (m : list (string * PendingRequest)) (s : Bridge) : Bridge :=
  mkBridge (enginePath s) (process s) (readline s) m (ready s)
           (responseListeners s) (errorListeners s) (timers s) (starts s) (out s).
Definition set_ready (b : bool) (s : Bridge) : Bridge :=
  mkBridge (enginePath s) (process s) (readline s) (pending s) b
           (responseListeners s) (errorListeners s) (timers s) (starts s) (out s).
Definition set_responseListeners (l : list Listener) (s : Bridge) : Bridge :=
  mkBridge (enginePath s) (process s) (readline s) (pending s) (ready s)
           l (errorListeners s) (timers s) (starts s) (out s).
Definition set_errorListeners (n : nat) (s : Bridge) : Bridge :=
  mkBridge (enginePath s) (process s) (readline s) (pending s) (ready s)
           (responseListeners s) n (timers s) (starts s) (out s).
Definition set_timers (t : list (Timer * Z)) (s : Bridge) : Bridge :=
  mkBridge (enginePath s) (process s) (readline s) (pending s) (ready s)
           (responseListeners s) (errorListeners s) t (starts s) (out s).
Definition set_starts (n : nat) (s : Bridge) : Bridge :=
  mkBridge (enginePath s) (process s) (readline s) (pending s) (ready s)
           (responseListeners s) (errorListeners s) (timers s) n (out s).
Definition set_out (o : list Output) (s : Bridge) : Bridge :=
  mkBridge (enginePath s) (process s) (readline s) (pending s) (ready s)
           (responseListeners s) (errorListeners s) (timers s) (starts s) o.

(** ** Decidable equality of the names *)

Definition Timer_eqb (a b : Timer) : bool :=
  match a, b with
  | StartupTimer n, StartupTimer m => Nat.eqb n m
  | RequestTimer i, RequestTimer j => String.eqb i j
  | StreamTimer i, StreamTimer j => String.eqb i j
  | _, _ => false
  end.

Definition Promise_eqb (a b : Promise) : bool :=
  match a, b with
  | StartPromise n, StartPromise m => Nat.eqb n m
  | SendPromise i, SendPromise j => String.eqb i j
  | StreamPromise i, StreamPromise j => String.eqb i j
  | _, _ => false
  end.

Definition Listener_eqb (a b : Listener) : bool :=
  match a, b with
  | ReadyHandler n, ReadyHandler m => Nat.eqb n m
  | StreamHandler i, StreamHandler j => String.eqb i j
  | _, _ => false
  end.

(** ** Primitives: timers, the event emitter, the Map, promises, stdin *)

Definition output (o : Output) (s : Bridge) : Bridge :=
  set_out (out s ++ [o]) s.

Definition outputs (os : list Output) (s : Bridge) : Bridge :=
  set_out (out s ++ os) s.

Definition setTimeout (t : Timer) (ms : Z) (s : Bridge) : Bridge :=
  set_timers (timers s ++ [(t, ms)]) s.

Definition clearTimeout (t : Timer) (s : Bridge) : Bridge :=
  set_timers (filter (fun e => negb (Timer_eqb (fst e) t)) (timers s)) s.

Definition armed (t : Timer) (s : Bridge) : bool :=
  existsb (fun e => Timer_eqb (fst e) t) (timers s).

(** this.on('response', l) *)
Definition onResponse (l : Listener) (s : Bridge) : Bridge :=
  set_responseListeners (responseListeners s ++ [l]) s.

(** removeListener takes out the most recently added instance of [l]. *)
Fixpoint removeLast (l : Listener) (ls : list Listener) : list Listener :=
  match ls with
  | [] => []
  | x :: rest =>
      if Listener_eqb x l && negb (existsb (fun y => Listener_eqb y l) rest)
      then rest
      else x :: removeLast l rest
  end.

Definition removeListener (l : Listener) (s : Bridge) : Bridge :=
  set_responseListeners (removeLast l (responseListeners s)) s.

Definition resolve (p : Promise) (v : value) (s : Bridge) : Bridge :=
  output (Settle p (Resolved v)) s.

Definition reject (p : Promise) (e : JsError) (s : Bridge) : Bridge :=
  output (Settle p (Rejected e)) s.

Definition emitLog (text : string) (s : Bridge) : Bridge :=
  output (Emit (EmLog text)) s.

(** Map.get / Map.set / Map.delete on [pending] *)
Fixpoint mapGet (k : string) (m : list (string * PendingRequest)) : option PendingRequest :=
  match m with
  | [] => None
  | (k', v) :: rest => if String.eqb k' k then Some v else mapGet k rest
  end.

Fixpoint mapSet (k : string) (v : PendingRequest) (m : list (string * PendingRequest))
  : list (string * PendingRequest) :=
  match m with
  | [] => [(k, v)]
  | (k', v') :: rest =>
      if String.eqb k' k then (k, v) :: rest else (k', v') :: mapSet k v rest
  end.

Definition mapDelete (k : string) (m : list (string * PendingRequest))
  : list (string * PendingRequest) :=
  filter (fun e => negb (String.eqb (fst e) k)) m.

(** The keys of [pending] are strings: a key that is not a string finds
    nothing and deletes nothing. *)
Definition pendingGet (key : value) (s : Bridge) : option PendingRequest :=
  match key with
  | VStr k => mapGet k (pending s)
  | _ => None
  end.

Definition pendingDelete (key : value) (s : Bridge) : Bridge :=
  match key with
  | VStr k => set_pending (mapDelete k (pending s)) s
  | _ => s
  end.

Definition pendingSet (k : string) (v : PendingRequest) (s : Bridge) : Bridge :=
  set_pending (mapSet k v (pending s)) s.

(** this.process?.stdin?.write(message) *)
Definition stdinWrite (line : value) (s : Bridge) : Bridge :=
  match process s with
  | Some _ => output (Write line) s
  | None => s
  end.

(** The object whose JSON text is written: [{...request, id, timestamp}]. *)
Definition outbound (request : list (string * value)) (id ts : string) : value :=
  VObj (assign "timestamp" (VStr ts) (assign "id" (VStr id) request)).

(** ** The callbacks of the class *)

(** A callback either returns or throws; both leave a state behind. *)
Inductive Result :=
| Ok (s : Bridge)
| Throw (s : Bridge).

(** The message of [new Error(response.error?.message || 'Unknown error')];
    [None] when the constructor throws, its argument having no string
    form. *)
Definition errorMessage (response : value) : option string :=
  let m := optGet (get response "error") "message" in
  if truthy m then ToString m else Some "Unknown error".

(** waitForReady: the [handler] closure of the [n]-th call. *)
Definition readyHandler (n : nat) (response : value) (s : Bridge) : Result :=
  if nullish response then Throw s
  else if isStr (get response "id") "ready" then
    let s := clearTimeout (StartupTimer n) s in
    let s := set_ready true s in
    let s := removeListener (ReadyHandler n) s in
    Ok (resolve (StartPromise n) VUndefined s)
  else Ok s.

(** The caller's sink is taken to return normally; its call is recorded. *)
Definition onChunk (id : string) (chunk : value) (s : Bridge) : Bridge :=
  output (Chunk id chunk) s.

(** sendStreaming: the [handler] closure of the session [id]. *)
Definition streamHandler (id : string) (response : value) (s : Bridge) : Result :=
  if nullish response then Throw s
  else if negb (isStr (get response "id") id) then Ok s
  else if isStr (get response "status") "streaming" then
    let s := onChunk id (get response "data") s in
    if isStr (optGet (get response "data") "type") "done" then
      let s := clearTimeout (StreamTimer id) s in
      let s := removeListener (StreamHandler id) s in
      Ok (resolve (StreamPromise id) VUndefined s)
    else Ok s
  else if isStr (get response "status") "error" then
    let s := clearTimeout (StreamTimer id) s in
    let s := removeListener (StreamHandler id) s in
    match errorMessage response with
    | Some m => Ok (reject (StreamPromise id) (mkError m) s)
    | None => Throw s
    end
  else if isStr (get response "status") "success" then
    let s := clearTimeout (StreamTimer id) s in
    let s := removeListener (StreamHandler id) s in
    let s := onChunk id (VObj [("type", VStr "done"); ("data", get response "data")]) s in
    Ok (resolve (StreamPromise id) VUndefined s)
  else Ok s.

Definition callListener (l : Listener) (response : value) (s : Bridge) : Result :=
  match l with
  | ReadyHandler n => readyHandler n response s
  | StreamHandler id => streamHandler id response s
  end.

(** emit calls the listeners that were registered when it started, in order;
    a listener that throws ends it. *)
Fixpoint callListeners (ls : list Listener) (response : value) (s : Bridge) : Result :=
  match ls with
  | [] => Ok s
  | l :: rest =>
      match callListener l response s with
      | Ok s' => callListeners rest response s'
      | Throw s' => Throw s'
      end
  end.

(** this.emit('response', response) *)
Definition emitResponse (response : value) (s : Bridge) : Result :=
  callListeners (responseListeners s) response s.

Definition handleResponse (response : value) (s : Bridge) : Result :=
  match emitResponse response s with
  | Throw s' => Throw s'
  | Ok s =>
      if nullish response then Throw s
      else
        match pendingGet (get response "id") s with
        | Some p =>
            if negb (isStr (get response "status") "streaming") then
              let s := clearTimeout (timeout p) s in
              let s := pendingDelete (get response "id") s in
              if isStr (get response "status") "error"
              then match errorMessage response with
                   | Some m => Ok (reject (promise p) (mkError m) s)
                   | None => Throw s
                   end
              else Ok (resolve (promise p) (get response "data") s)
            else Ok s
        | None => Ok s
        end
  end.

(** The ['line'] listener of start: [parsed] is what [JSON.parse(line)]
    returns, [None] when it throws. *)
Definition onLine (line : string) (parsed : option value) (s : Bridge) : Bridge :=
  match parsed with
  | None => emitLog ("[engine] " ++ line) s
  | Some response =>
      match handleResponse response s with
      | Ok s' => s'
      | Throw s' => emitLog ("[engine] " ++ line) s'
      end
  end.

(** The ['data'] listener of stderr; [text] is [data.toString().trim()]. *)
Definition onStderr (text : string) (s : Bridge) : Bridge :=
  emitLog ("[engine:stderr] " ++ text) s.

Definition rejectAllPending (error : JsError) (s : Bridge) : Bridge :=
  let s := fold_left (fun s e => reject (promise (snd e)) error
                                   (clearTimeout (timeout (snd e)) s))
                     (pending s) s in
  set_pending [] s.

Definition showCode (code : option Z) : string :=
  match code with
  | Some z => showZ z
  | None => "null"
  end.

(** The ['exit'] listener of the child process. *)
Definition onExit (code : option Z) (s : Bridge) : Bridge :=
  let s := output (Emit (EmExit code)) s in
  rejectAllPending (mkError ("Engine exited with code " ++ showCode code)) s.

(** The ['error'] listener of the child process.  An EventEmitter with no
    listener for ['error'] throws the error out of [emit]. *)
Definition onError (error : JsError) (s : Bridge) : Bridge :=
  match errorListeners s with
  | O => output (Uncaught error) s
  | S _ =>
      let s := output (Emit (EmError error)) s in
      rejectAllPending error s
  end.

(** start: [scriptFound] is [existsSync(mainScript)].  The promise of the
    call is the one waitForReady returns. *)
Definition start (scriptFound : bool) (s : Bridge) : Bridge :=
  let n := starts s in
  let s := set_starts (S n) s in
  if negb scriptFound then
    reject (StartPromise n)
           (mkError ("Engine not found at " ++ enginePath s ++ "/main.py")) s
  else
    let s := set_process (Some {| killed := false |}) s in
    let s := set_readline (Some {| closed := false |}) s in
    let s := setTimeout (StartupTimer n) 30000 s in
    onResponse (ReadyHandler n) s.

(** How an async method ends its synchronous part. *)
Inductive Call :=
| Rejects (e : JsError)     (* threw: the promise it returns is rejected *)
| Awaits (p : Promise).     (* returned a promise that is still pending *)

(** send and sendStreaming: [id] is what [randomUUID()] returns, [ts] what
    [new Date().toISOString()] returns.  The write to the worker's input
    stream is a parameter of the body: [write] is what
    [this.process?.stdin?.write(message)] does to the bridge.  The methods
    are the bodies with [stdinWrite]; with a write during which callbacks of
    the bridge run, the bodies tell what a call has done by the time it
    writes. *)
Definition sendWith (write : value -> Bridge -> Bridge)
           (id ts : string) (request : list (string * value)) (s : Bridge)
  : Bridge * Call :=
  if negb (ready s) then (s, Rejects (mkError "Engine not ready"))
  else
    let s := setTimeout (RequestTimer id) 60000 s in
    let s := pendingSet id {| promise := SendPromise id;
                              timeout := RequestTimer id |} s in
    let s := write (outbound request id ts) s in
    (s, Awaits (SendPromise id)).

Definition sendStreamingWith (write : value -> Bridge -> Bridge)
           (id ts : string) (request : list (string * value)) (s : Bridge)
  : Bridge * Call :=
  if negb (ready s) then (s, Rejects (mkError "Engine not ready"))
  else
    let s := setTimeout (StreamTimer id) 300000 s in
    let s := onResponse (StreamHandler id) s in
    let s := write (outbound request id ts) s in
    (s, Awaits (StreamPromise id)).

Definition send (id ts : string) (request : list (string * value)) (s : Bridge)
  : Bridge * Call :=
  sendWith stdinWrite id ts request s.

Definition sendStreaming (id ts : string) (request : list (string * value)) (s : Bridge)
  : Bridge * Call :=
  sendStreamingWith stdinWrite id ts request s.

Definition stop (s : Bridge) : Bridge :=
  let s := set_ready false s in
  let s := set_process (option_map (fun _ => {| killed := true |}) (process s)) s in
  let s := set_readline (option_map (fun _ => {| closed := true |}) (readline s)) s in
  rejectAllPending (mkError "Engine stopped") s.

(** The callback of a timer that fires.  A timer that was cleared, or has
    fired already, does not fire. *)
Definition fire (t : Timer) (s : Bridge) : Bridge :=
  if negb (armed t s) then s
  else
    let s := clearTimeout t s in
    match t with
    | StartupTimer n =>
        reject (StartPromise n) (mkError "Engine startup timeout") s
    | RequestTimer id =>
        let s := pendingDelete (VStr id) s in
        reject (SendPromise id) (mkError "Request timeout (60s)") s
    | StreamTimer id =>
        let s := removeListener (StreamHandler id) s in
        reject (StreamPromise id) (mkError "Streaming timeout (300s)") s
    end.

(** ** Runs of a bridge *)

(** What can happen to a bridge, one callback at a time. *)
Inductive Event :=
| CallStart (scriptFound : bool)
| CallSend (id ts : string) (request : list (string * value))
| CallSendStreaming (id ts : string) (request : list (string * value))
| CallStop
| CallOnError                                   (* bridge.on('error', ...) *)
| Line (line : string) (parsed : option value)  (* a line of the worker's stdout *)
| Stderr (text : string)
| Exit (code : option Z)
| Error (e : JsError)
| Fire (t : Timer).

(** The listeners of the worker's streams and events exist once start has
    spawned it. *)
Definition spawned (s : Bridge) : bool :=
  match process s with
  | Some _ => true
  | None => false
  end.

Definition step (s : Bridge) (e : Event) : Bridge :=
  match e with
  | CallStart found => start found s
  | CallSend id ts request => fst (send id ts request s)
  | CallSendStreaming id ts request => fst (sendStreaming id ts request s)
  | CallStop => stop s
  | CallOnError => set_errorListeners (S (errorListeners s)) s
  | Line line parsed => if spawned s then onLine line parsed s else s
  | Stderr text => if spawned s then onStderr text s else s
  | Exit code => if spawned s then onExit code s else s
  | Error err => if spawned s then onError err s else s
  | Fire t => fire t s
  end.

Definition run (s : Bridge) (es : list Event) : Bridge := fold_left step es s.

(** The calls of resolve or reject of a promise so far, and how often. *)
Definition isSettle (p : Promise) (o : Output) : bool :=
  match o with
  | Settle q _ => Promise_eqb q p
  | _ => false
  end.

Definition settlements (p : Promise) (s : Bridge) : list Output :=
  filter (isSettle p) (out s).

Definition settleCount (p : Promise) (s : Bridge) : nat :=
  List.length (settlements p s).

Definition written (s : Bridge) : list value :=
  flat_map (fun o => match o with Write l => [l] | _ => [] end) (out s).

Definition chunksOf (id : string) (s : Bridge) : list value :=
  flat_map (fun o => match o with
                     | Chunk i c => if String.eqb i id then [c] else []
                     | _ => []
                     end) (out s).

(** ** The notions the properties are stated with, and sample runs *)

(** How often a listener is registered, how often a key is in the Map. *)
Definition listenerCount (l : Listener) (s : Bridge) : nat :=
  List.length (filter (fun x => Listener_eqb x l) (responseListeners s)).

Definition keyCount (k : string) (m : list (string * PendingRequest)) : nat :=
  List.length (filter (fun e => String.eqb (fst e) k) m).

(** The state a callback leaves, whether it returned or threw. *)
Definition stateOf (r : Result) : Bridge :=
  match r with
  | Ok s => s
  | Throw s => s
  end.

(** For a unary request [id]: how often its key is in the Map, whether its
    timer is armed, and the calls of its resolve and reject so far. *)
Definition unaryView (id : string) (s : Bridge) : nat * bool * list Output :=
  (keyCount id (pending s), armed (RequestTimer id) s, settlements (SendPromise id) s).

(** The outputs that belong to session [id]: its chunks and the calls of its
    resolve and reject. *)
Definition isSession (id : string) (o : Output) : bool :=
  match o with
  | Chunk i _ => String.eqb i id
  | Settle (StreamPromise i) _ => String.eqb i id
  | _ => false
  end.

Definition sessionOutput (id : string) (s : Bridge) : list Output :=
  filter (isSession id) (out s).

(** For a session [id]: how often its handler listens, whether its timer is
    armed, and its chunks and settlements so far, in order. *)
Definition streamView (id : string) (s : Bridge) : nat * bool * list Output :=
  (listenerCount (StreamHandler id) s, armed (StreamTimer id) s, sessionOutput id s).

(** Every record of the Map holds the promise and the timer of its key. *)
Definition entryOk (e : string * PendingRequest) : Prop :=
  promise (snd e) = SendPromise (fst e) /\ timeout (snd e) = RequestTimer (fst e).

Definition wellFormed (s : Bridge) : Prop := Forall entryOk (pending s).

(** Terminal responses of a session, as its handler tells them. *)
Definition streamTerminal (response : value) : bool :=
  (isStr (get response "status") "streaming"
   && isStr (optGet (get response "data") "type") "done")
  || isStr (get response "status") "error"
  || isStr (get response "status") "success".

(** Terminal responses of a unary request, as handleResponse tells them. *)
Definition unaryTerminal (response : value) : bool :=
  negb (isStr (get response "status") "streaming").

(** A response of status 'error' whose message [new Error] cannot take:
    the handler that builds the error throws before it calls reject. *)
Definition unconvertible (response : value) : bool :=
  isStr (get response "status") "error"
  && match errorMessage response with
     | Some _ => false
     | None => true
     end.

(** The rejection with [new Error(...)] for a response of status 'error';
    no call at all when the constructor throws. *)
Definition rejectionOf (p : Promise) (response : value) : list Output :=
  match errorMessage response with
  | Some m => [Settle p (Rejected (mkError m))]
  | None => []
  end.

(** What the handler of session [id] hands to the caller for a response
    that carries [id]. *)
Definition sessionEmits (id : string) (response : value) : list Output :=
  if isStr (get response "status") "streaming" then
    Chunk id (get response "data")
    :: (if isStr (optGet (get response "data") "type") "done"
        then [Settle (StreamPromise id) (Resolved VUndefined)] else [])
  else if isStr (get response "status") "error" then
    rejectionOf (StreamPromise id) response
  else if isStr (get response "status") "success" then
    [Chunk id (VObj [("type", VStr "done"); ("data", get response "data")]);
     Settle (StreamPromise id) (Resolved VUndefined)]
  else [].

(** The view of session [id] after its handler has seen a response that
    carries [id]. *)
Definition afterResponse (id : string) (response : value)
           (v : nat * bool * list Output) : nat * bool * list Output :=
  let '(n, a, o) := v in
  if streamTerminal response
  then (pred n, false, (o ++ sessionEmits id response)%list)
  else (n, a, (o ++ sessionEmits id response)%list).

(** The timers left, and the rejections made, by the loop of
    rejectAllPending over the Map [m]. *)
Definition clearAll (m : list (string * PendingRequest)) (ts : list (Timer * Z))
  : list (Timer * Z) :=
  fold_left (fun ts en => filter (fun e => negb (Timer_eqb (fst e) (timeout (snd en)))) ts)
            m ts.

Definition rejections (error : JsError) (m : list (string * PendingRequest))
  : list Output :=
  map (fun en => Settle (promise (snd en)) (Rejected error)) m.

(** How handleResponse settles a pending record: the calls it makes of the
    settling functions of the record's promise. *)
Definition outcomeOf (p : Promise) (response : value) : list Output :=
  if isStr (get response "status") "error"
  then rejectionOf p response
  else [Settle p (Resolved (get response "data"))].

Definition unaryOutcome (id : string) (response : value) : list Output :=
  outcomeOf (SendPromise id) response.

(** Whether a handler of a session [id] is registered. *)
Definition listening (id : string) (s : Bridge) : bool :=
  existsb (fun l => Listener_eqb l (StreamHandler id)) (responseListeners s).

(** The states a bridge can be in. *)
Definition reachable (s : Bridge) : Prop :=
  exists path es, s = run (create path) es.

(** Whether handleResponse reaches the record of the unary request [id]:
    the response carries the id and is terminal, the record is in the Map,
    and no handler of a session of the same id has thrown out of [emit]. *)
Definition unaryHit (id : string) (response : value) (s : Bridge) : bool :=
  isStr (get response "id") id && unaryTerminal response
  && negb (Nat.eqb (keyCount id (pending s)) 0)
  && negb (unconvertible response && listening id s).

(** Nothing registered, nothing armed, not ready. *)
Definition inert (s : Bridge) : Prop :=
  ready s = false /\ responseListeners s = [] /\ pending s = [] /\ timers s = [].

Inductive Kind := Unary | Streaming.

Record Request := {
  kind : Kind;
  rid : string;                   (* the id randomUUID draws for the call *)
  rts : string;                   (* the timestamp of the call *)
  body : list (string * value)    (* the [request] argument *)
}.

Definition issue (r : Request) (s : Bridge) : Bridge * Call :=
  match kind r with
  | Unary => send (rid r) (rts r) (body r) s
  | Streaming => sendStreaming (rid r) (rts r) (body r) s
  end.

Definition issueWith (write : value -> Bridge -> Bridge) (r : Request) (s : Bridge)
  : Bridge * Call :=
  match kind r with
  | Unary => sendWith write (rid r) (rts r) (body r) s
  | Streaming => sendStreamingWith write (rid r) (rts r) (body r) s
  end.

Fixpoint issueAll (rs : list Request) (s : Bridge) : Bridge * list Call :=
  match rs with
  | [] => (s, [])
  | r :: rest =>
      let (s1, c) := issue r s in
      let (s2, cs) := issueAll rest s1 in
      (s2, c :: cs)
  end.

Definition promiseOf (k : Kind) (id : string) : Promise :=
  match k with
  | Unary => SendPromise id
  | Streaming => StreamPromise id
  end.

Definition timerOf (k : Kind) (id : string) : Timer :=
  match k with
  | Unary => RequestTimer id
  | Streaming => StreamTimer id
  end.

Definition callOf (r : Request) : Event :=
  match kind r with
  | Unary => CallSend (rid r) (rts r) (body r)
  | Streaming => CallSendStreaming (rid r) (rts r) (body r)
  end.

Definition awaitingReady : Bridge := run (create "/opt/engine") [CallStart true].

Definition someRequests : list Request :=
  [ {| kind := Unary; rid := "u1"; rts := "t1"; body := [("action", VStr "index")] |};
    {| kind := Streaming; rid := "s1"; rts := "t2"; body := [("action", VStr "query")] |};
    {| kind := Unary; rid := "u2"; rts := "t3"; body := [] |} ].

Definition readyLine : Event :=
  Line "{...}" (Some (VObj [("id", VStr "ready"); ("status", VStr "success")])).

Definition readyBridge : Bridge :=
  run (create "/opt/engine") [CallStart true; readyLine].

Definition lateSuccess : value :=
  VObj [("id", VStr "u1"); ("status", VStr "success"); ("data", VNum 7)].

Definition timedOut : Bridge :=
  run readyBridge [CallSend "u1" "t1" [("action", VStr "index")];
                   CallSend "u2" "t2" [("action", VStr "health")];
                   Fire (RequestTimer "u1")].

Definition doneChunk (data : value) : value :=
  VObj [("type", VStr "done"); ("data", data)].

(** What the caller of [r] gets for a response of status 'success': the
    data for send; for sendStreaming the chunk [{type: 'done', data}] and
    then the end of the session. *)
Definition answerTo (r : Request) (response : value) : list Output :=
  match kind r with
  | Unary => [Settle (SendPromise (rid r)) (Resolved (get response "data"))]
  | Streaming =>
      [Chunk (rid r) (doneChunk (get response "data"));
       Settle (StreamPromise (rid r)) (Resolved VUndefined)]
  end.

Definition openSession : Bridge :=
  run readyBridge [CallSendStreaming "s1" "t1" [("action", VStr "query")]].

Definition wholeAnswer : value :=
  VObj [("id", VStr "s1"); ("status", VStr "success"); ("data", VStr "forty-two")].

(** The claim as the specification has it: the error that rejects the caller
    lets the caller read the worker's code, message and details. *)
Definition worker_error_verbatim : Prop :=
  exists (code details : JsError -> value),
    forall (s : Bridge) (id line : string) (p : PendingRequest) (response : value),
      reachable s ->
      mapGet id (pending s) = Some p ->
      get response "id" = VStr id ->
      get response "status" = VStr "error" ->
      exists e,
        settlements (SendPromise id) (step s (Line line (Some response)))
        = (settlements (SendPromise id) s
           ++ [Settle (SendPromise id) (Rejected e)])%list
        /\ VStr (message e) = get (get response "error") "message"
        /\ code e = get (get response "error") "code"
        /\ details e = get (get response "error") "details".

Definition onePending : Bridge :=
  run readyBridge [CallSend "u1" "t1" [("action", VStr "index")]].

Definition workerError (code : string) (details : Z) : value :=
  VObj [("id", VStr "u1"); ("status", VStr "error");
        ("error", VObj [("code", VStr code); ("message", VStr "boom");
                        ("details", VNum details)])].

(** A status the protocol knows. *)
Definition recognized (response : value) : bool :=
  isStr (get response "status") "success"
  || isStr (get response "status") "error"
  || isStr (get response "status") "streaming".

Definition statuslessLine : Event :=
  Line "{...}" (Some (VObj [("id", VStr "u1"); ("note", VStr "warming up")])).

Definition busyBridge : Bridge :=
  run readyBridge [CallSend "u1" "t1" [("action", VStr "index")];
                   CallSend "u2" "t2" [("action", VStr "health")];
                   CallSendStreaming "s1" "t3" [("action", VStr "query")]].

Definition noReadyHandler (s : Bridge) : Prop :=
  forall n, ~ In (ReadyHandler n) (responseListeners s).

Definition notStart (e : Event) : Prop := forall found, e <> CallStart found.

Definition stoppedError : JsError := mkError "Engine stopped".

Definition isSweep (e : Event) : Prop :=
  e = CallStop \/ (exists code, e = Exit code) \/ (exists err, e = Error err).

(** What a call has registered in a state. *)
Definition registered (r : Request) (s : Bridge) : Prop :=
  armed (timerOf (kind r) (rid r)) s = true
  /\ match kind r with
     | Unary =>
         mapGet (rid r) (pending s)
         = Some {| promise := SendPromise (rid r); timeout := RequestTimer (rid r) |}
     | Streaming => In (StreamHandler (rid r)) (responseListeners s)
     end.

Definition exitError (code : option Z) : JsError :=
  mkError ("Engine exited with code " ++ showCode code).

Definition timeoutError : JsError := mkError "Request timeout (60s)".
Definition streamTimeoutError : JsError := mkError "Streaming timeout (300s)".

Definition swept (id : string) (error : JsError) (v : nat * bool * list Output)
  : nat * bool * list Output :=
  let '(n, a, o) := v in
  (0, a && Nat.eqb n 0,
   (o ++ repeat (Settle (SendPromise id) (Rejected error)) n)%list).

(** What one callback does to the view of the unary request [id]. *)
Definition unaryNext (id : string) (s : Bridge) (e : Event)
           (v : nat * bool * list Output) : nat * bool * list Output :=
  match e with
  | CallStop => swept id stoppedError v
  | Exit code => if spawned s then swept id (exitError code) v else v
  | Error err =>
      if spawned s
      then match errorListeners s with
           | O => v
           | S _ => swept id err v
           end
      else v
  | Line _ (Some response) =>
      let '(n, a, o) := v in
      if spawned s
         && (isStr (get response "id") id && unaryTerminal response
             && negb (Nat.eqb n 0)
             && negb (unconvertible response && listening id s))
      then (0, false, (o ++ unaryOutcome id response)%list)
      else v
  | Fire (RequestTimer i) =>
      let '(n, a, o) := v in
      if String.eqb i id && a
      then (0, false, (o ++ [Settle (SendPromise id) (Rejected timeoutError)])%list)
      else v
  | _ => v
  end.

(** What one callback does to the view of the session [id]. *)
Definition streamNext (id : string) (s : Bridge) (e : Event)
           (v : nat * bool * list Output) : nat * bool * list Output :=
  match e with
  | Line _ (Some response) =>
      let '(n, a, o) := v in
      if spawned s && isStr (get response "id") id && Nat.eqb n 1
      then afterResponse id response v
      else v
  | Fire (StreamTimer i) =>
      let '(n, a, o) := v in
      if String.eqb i id && a
      then (pred n, false,
            (o ++ [Settle (StreamPromise id) (Rejected streamTimeoutError)])%list)
      else v
  | _ => v
  end.

Definition viewOf (r : Request) (s : Bridge) : nat * bool * list Output :=
  match kind r with
  | Unary => unaryView (rid r) s
  | Streaming => streamView (rid r) s
  end.














Definition unaryIndex : Request :=
  {| kind := Unary; rid := "u1"; rts := "t1"; body := [("action", VStr "index")] |}.



(** ** Further notions: lines of one session, calls of one id *)

(** The ['line'] event of a line and what it parses to. *)
Definition lineOf (lr : string * value) : Event := Line (fst lr) (Some (snd lr)).

(** A streaming message for session [id] that is not the terminal chunk. *)
Definition partialChunk (id : string) (response : value) : bool :=
  isStr (get response "id") id
  && isStr (get response "status") "streaming"
  && negb (isStr (optGet (get response "data") "type") "done").

(** A streaming message for session [id] whose chunk has type 'done'. *)
Definition finalChunk (id : string) (response : value) : bool :=
  isStr (get response "id") id
  && isStr (get response "status") "streaming"
  && isStr (optGet (get response "data") "type") "done".

(** Calls of send, and of sendStreaming, that draw the id [id]. *)
Definition sendsId (id : string) (e : Event) : bool :=
  match e with
  | CallSend i _ _ => String.eqb i id
  | _ => false
  end.

Definition streamsId (id : string) (e : Event) : bool :=
  match e with
  | CallSendStreaming i _ _ => String.eqb i id
  | _ => false
  end.

(** For the [n]-th call of start: how often its handler listens, whether its
    timer is armed, and the calls of resolve and reject of its promise. *)
Definition startView (n : nat) (s : Bridge) : nat * bool * list Output :=
  (listenerCount (ReadyHandler n) s, armed (StartupTimer n) s,
   settlements (StartPromise n) s).

(** What a call of send or sendStreaming writes in state [s]. *)
Definition writes (s : Bridge) (e : Event) : list value :=
  match e with
  | CallSend id ts request | CallSendStreaming id ts request =>
      if ready s then [outbound request id ts] else []
  | _ => []
  end.

Definition tokenChunk (id text : string) : value :=
  VObj [("id", VStr id); ("status", VStr "streaming");
        ("data", VObj [("type", VStr "token"); ("content", VStr text)])].

Definition lastChunk (id : string) : value :=
  VObj [("id", VStr id); ("status", VStr "streaming");
        ("data", VObj [("type", VStr "done")])].

Definition twoPending : Bridge :=
  run readyBridge [CallSend "u1" "t1" [("action", VStr "index")];
                   CallSend "u2" "t2" [("action", VStr "health")]].

Definition answer (id : string) (data : Z) : value :=
  VObj [("id", VStr id); ("status", VStr "success"); ("data", VNum data)].

(** ** The callers: config.ts and index.ts *)

(** Decimal name of an index, as a property key. *)
Definition indexKey (i : nat) : string := showZ (Z.of_nat i).

Fixpoint indexed (i : nat) (items : list value) : list (string * value) :=
  match items with
  | [] => []
  | x :: rest => (indexKey i, x) :: indexed (S i) rest
  end.

Fixpoint chars (s : string) : list value :=
  match s with
  | EmptyString => []
  | String c rest => VStr (String c EmptyString) :: chars rest
  end.

(** The own enumerable properties that [...v] copies into an object
    literal: none for [undefined], [null], a boolean or a number, the
    fields of an object, the elements of an array and the characters of a
    string under their indices. *)
Definition spread (v : value) : list (string * value) :=
  match v with
  | VObj fields => fields
  | VArr items => indexed 0 items
  | VStr s => indexed 0 (chars s)
  | _ => []
  end.

(** [{...base, ...v}], on the properties of [base]. *)
Definition spreadInto (base : list (string * value)) (v : value)
  : list (string * value) :=
  fold_left (fun acc e => assign (fst e) (snd e) acc) (spread v) base.

Definition defaultEmbedding : list (string * value) :=
  [("provider", VStr "ollama"); ("model", VStr "nomic-embed-text")].

Definition defaultLlm : list (string * value) :=
  [("provider", VStr "ollama"); ("model", VStr "llama3.1:8b")].

Definition DEFAULT_CONFIG : value :=
  VObj [("embedding", VObj defaultEmbedding); ("llm", VObj defaultLlm)].

(** loadGlobalConfig: [fileExists] is [existsSync(configPath)]; [loaded] is
    what [yaml.load(readFileSync(configPath))] returns, [None] when reading
    or parsing throws. *)
Definition loadGlobalConfig (fileExists : bool) (loaded : option value) : value :=
  if negb fileExists then DEFAULT_CONFIG
  else
    match loaded with
    | None => DEFAULT_CONFIG
    | Some userConfig =>
        VObj [("embedding",
               VObj (spreadInto defaultEmbedding (optGet userConfig "embedding")));
              ("llm", VObj (spreadInto defaultLlm (optGet userConfig "llm")))]
    end.

(** [a || b] *)
Definition orElse (a b : value) : value := if truthy a then a else b.

(** The defaults of the command-line options --llm, --model, --embedding
    and --embedding-model, computed from the loaded configuration. *)
Record OptionDefaults := {
  llmDefault : value;
  modelDefault : value;
  embeddingDefault : value;
  embeddingModelDefault : value
}.

Definition optionDefaults (globalConfig : value) : OptionDefaults :=
  {| llmDefault := orElse (optGet (get globalConfig "llm") "provider") (VStr "ollama");
     modelDefault := orElse (optGet (get globalConfig "llm") "model")
                            (VStr "llama3.1:8b");
     embeddingDefault := orElse (optGet (get globalConfig "embedding") "provider")
                                (VStr "ollama");
     embeddingModelDefault := orElse (optGet (get globalConfig "embedding") "model")
                                     (VStr "nomic-embed-text") |}.

(** handleQuery: what its chunk callback has written to stdout and the
    sources it has collected. *)
Record QueryOutput := {
  printed : list value;
  sources : list value
}.

(** A string that is not empty. *)
Definition nonEmptyText (v : value) : bool :=
  match v with
  | VStr t => negb (String.eqb t "")
  | _ => false
  end.

(** The callback handleQuery gives to sendStreaming; [None] when it throws:
    reading [c.type] of [null] or [undefined], or handing
    [process.stdout.write] a content that is not a string (a number, [true],
    an array or an object is refused with a TypeError, and nothing is
    written). *)
Definition queryChunk (chunk : value) (q : QueryOutput) : option QueryOutput :=
  if nullish chunk then None
  else if isStr (get chunk "type") "token" && truthy (get chunk "content") then
    match get chunk "content" with
    | VStr _ =>
        Some {| printed := printed q ++ [get chunk "content"]; sources := sources q |}
    | _ => None
    end
  else if isStr (get chunk "type") "source" && truthy (get chunk "source") then
    Some {| printed := printed q; sources := sources q ++ [get chunk "source"] |}
  else Some q.

(** The callback over the chunks of a session, in order. *)
Fixpoint queryChunks (chunks : list value) (q : QueryOutput) : option QueryOutput :=
  match chunks with
  | [] => Some q
  | c :: rest =>
      match queryChunk c q with
      | Some q' => queryChunks rest q'
      | None => None
      end
  end.

(** The chunks among the outputs of a bridge. *)
Definition chunksIn (o : list Output) : list value :=
  flat_map (fun x => match x with Chunk _ c => [c] | _ => [] end) o.

(** The last binding of a key in a list of properties. *)
Fixpoint lastBinding (k : string) (fields : list (string * value)) : option value :=
  match fields with
  | [] => None
  | (k', v) :: rest =>
      match lastBinding k rest with
      | Some x => Some x
      | None => if String.eqb k k' then Some v else None
      end
  end.

Definition onlyModel : value :=
  VObj [("llm", VObj [("model", VStr "gpt-4o-mini")])].

(** ** utils/paths.ts *)

(** ToInt32: the value a bitwise operator sees. *)
Definition ToInt32 (z : Z) : Z := ((z + 2 ^ 31) mod 2 ^ 32 - 2 ^ 31)%Z.

(** One round of the loop of simpleHash:
    [hash = ((hash << 5) - hash) + char; hash = hash & hash]. *)
Definition hashStep (hash char : Z) : Z :=
  let hash := (ToInt32 (Z.shiftl (ToInt32 hash) 5) - hash + char)%Z in
  ToInt32 (Z.land (ToInt32 hash) (ToInt32 hash)).

(** The number simpleHash has computed when its loop ends; [codes] are the
    UTF-16 code units [str.charCodeAt(i)]. *)
Definition hashValue (codes : list Z) : Z := fold_left hashStep codes 0%Z.

Definition hexDigits : list Ascii.ascii := list_ascii_of_string "0123456789abcdef".

Definition zeroChar : Ascii.ascii := Ascii.ascii_of_nat 48.

Definition hexDigit (d : Z) : Ascii.ascii := nth (Z.to_nat d) hexDigits zeroChar.

Fixpoint hexFrom (fuel : nat) (n : Z) : string :=
  match fuel with
  | O => ""
  | S f =>
      if (n <? 16)%Z then String (hexDigit n) ""
      else hexFrom f (n / 16)%Z ++ String (hexDigit (n mod 16)%Z) ""
  end.

(** [n.toString(16)] for an integer [n >= 0]; the fuel exceeds the number
    of digits. *)
Definition toString16 (n : Z) : string := hexFrom (S (Z.to_nat (Z.log2 n))) n.

Fixpoint zeros (n : nat) : string :=
  match n with
  | O => ""
  | S m => String zeroChar (zeros m)
  end.

(** [s.padStart(len, '0')] *)
Definition padStart0 (len : nat) (s : string) : string :=
  zeros (len - String.length s) ++ s.

Definition simpleHash (codes : list Z) : string :=
  padStart0 8 (toString16 (Z.abs (hashValue codes))).

(** The code units of a string of 8-bit characters. *)
Definition codesOf (s : string) : list Z :=
  map (fun c => Z.of_N (Ascii.N_of_ascii c)) (list_ascii_of_string s).

(** The value of a hexadecimal digit, and of a string of them. *)
Definition digitValue (c : Ascii.ascii) : Z :=
  (fix find (ds : list Ascii.ascii) (i : Z) : Z :=
     match ds with
     | [] => 0%Z
     | d :: rest => if Ascii.eqb c d then i else find rest (i + 1)%Z
     end) hexDigits 0%Z.

Fixpoint hexValueFrom (acc : Z) (s : string) : Z :=
  match s with
  | EmptyString => acc
  | String c rest => hexValueFrom (16 * acc + digitValue c)%Z rest
  end.

Definition hexValue (s : string) : Z := hexValueFrom 0%Z s.

(** findConfigFile.  A resolved absolute path is the list of its segments
    below the root, so that the root is [[]] and [resolve(dir, '..')] drops
    the last segment; [existsSync] tells which paths exist.  The loop runs
    on the segments from the last to the first. *)
Definition configFileName : string := ".ragrc.yaml".

Fixpoint findUp (existsSync : list string -> bool) (revDir : list string)
  : option (list string) :=
  match revDir with
  | [] => None
  | seg :: parent =>
      let configPath := (rev (seg :: parent) ++ [configFileName])%list in
      if existsSync configPath then Some configPath
      else findUp existsSync parent
  end.

Definition findConfigFile (existsSync : list string -> bool) (startDir : list string)
  : option (list string) :=
  findUp existsSync (rev startDir).

(** * Properties *)

(** ** Lemmas on the names and the lists *)

Lemma Timer_eqb_eq (a b : Timer) : Timer_eqb a b = true <-> a = b.
Proof.
  destruct a, b; simpl; try (split; [discriminate | congruence]).
  - rewrite Nat.eqb_eq. split; congruence.
  - rewrite String.eqb_eq. split; congruence.
  - rewrite String.eqb_eq. split; congruence.
Qed.

Lemma Promise_eqb_eq (a b : Promise) : Promise_eqb a b = true <-> a = b.
Proof.
  destruct a, b; simpl; try (split; [discriminate | congruence]).
  - rewrite Nat.eqb_eq. split; congruence.
  - rewrite String.eqb_eq. split; congruence.
  - rewrite String.eqb_eq. split; congruence.
Qed.

Lemma Listener_eqb_eq (a b : Listener) : Listener_eqb a b = true <-> a = b.
Proof.
  destruct a, b; simpl; try (split; [discriminate | congruence]).
  - rewrite Nat.eqb_eq. split; congruence.
  - rewrite String.eqb_eq. split; congruence.
Qed.

Lemma Timer_eqb_refl (a : Timer) : Timer_eqb a a = true.
Proof. apply Timer_eqb_eq. reflexivity. Qed.


Lemma Listener_eqb_refl (a : Listener) : Listener_eqb a a = true.
Proof. apply Listener_eqb_eq. reflexivity. Qed.

Lemma Timer_eqb_neq (a b : Timer) : a <> b -> Timer_eqb a b = false.
Proof.
  intros H. destruct (Timer_eqb a b) eqn:E; [|reflexivity].
  apply Timer_eqb_eq in E. contradiction.
Qed.

Lemma Promise_eqb_neq (a b : Promise) : a <> b -> Promise_eqb a b = false.
Proof.
  intros H. destruct (Promise_eqb a b) eqn:E; [|reflexivity].
  apply Promise_eqb_eq in E. contradiction.
Qed.

Lemma Listener_eqb_neq (a b : Listener) : a <> b -> Listener_eqb a b = false.
Proof.
  intros H. destruct (Listener_eqb a b) eqn:E; [|reflexivity].
  apply Listener_eqb_eq in E. contradiction.
Qed.

Lemma isStr_eq (v : value) (s : string) : isStr v s = true <-> v = VStr s.
Proof.
  destruct v; simpl; try (split; [discriminate | congruence]).
  rewrite String.eqb_eq. split; congruence.
Qed.

Lemma existsb_filter_false {A} (f g : A -> bool) (l : list A) :
  (forall x, f x = true -> g x = false) ->
  existsb f (filter g l) = false.
Proof.
  intros H. induction l as [|x l IH]; simpl; [reflexivity|].
  destruct (g x) eqn:G; simpl; [|exact IH].
  rewrite IH, orb_false_r.
  destruct (f x) eqn:F; [|reflexivity].
  rewrite (H x F) in G. discriminate.
Qed.

Lemma existsb_filter_keep {A} (f g : A -> bool) (l : list A) :
  (forall x, f x = true -> g x = true) ->
  existsb f (filter g l) = existsb f l.
Proof.
  intros H. induction l as [|x l IH]; simpl; [reflexivity|].
  destruct (g x) eqn:G; simpl; rewrite IH; [reflexivity|].
  destruct (f x) eqn:F; [|reflexivity].
  rewrite (H x F) in G. discriminate.
Qed.

Lemma length_filter_removeLast_same (l : Listener) (ls : list Listener) :
  List.length (filter (fun x => Listener_eqb x l) (removeLast l ls))
  = pred (List.length (filter (fun x => Listener_eqb x l) ls)).
Proof.
  induction ls as [|x ls IH]; simpl; [reflexivity|].
  destruct (Listener_eqb x l) eqn:E; simpl.
  - destruct (existsb (fun y => Listener_eqb y l) ls) eqn:X; simpl.
    + rewrite E. simpl. rewrite IH.
      destruct (filter (fun y => Listener_eqb y l) ls) eqn:F; simpl; [|reflexivity].
      exfalso. apply existsb_exists in X. destruct X as [y [Hy Ey]].
      assert (In y (filter (fun y => Listener_eqb y l) ls))
        by (apply filter_In; split; assumption).
      rewrite F in H. contradiction.
    + reflexivity.
  - rewrite E. exact IH.
Qed.

Lemma length_filter_removeLast_other (l x : Listener) (ls : list Listener) :
  x <> l ->
  List.length (filter (fun y => Listener_eqb y x) (removeLast l ls))
  = List.length (filter (fun y => Listener_eqb y x) ls).
Proof.
  intros N. induction ls as [|y ls IH]; simpl; [reflexivity|].
  destruct (Listener_eqb y l && negb (existsb (fun z => Listener_eqb z l) ls)) eqn:E.
  - apply andb_prop in E. destruct E as [E _]. apply Listener_eqb_eq in E. subst y.
    rewrite (Listener_eqb_neq l x (not_eq_sym N)). reflexivity.
  - simpl. destruct (Listener_eqb y x); simpl; rewrite IH; reflexivity.
Qed.

Lemma keyCount_mapSet_other (k k' : string) (v : PendingRequest) m :
  k <> k' -> keyCount k (mapSet k' v m) = keyCount k m.
Proof.
  intros N. unfold keyCount. induction m as [|[a b] m IH]; simpl.
  - apply String.eqb_neq in N. rewrite String.eqb_sym, N. reflexivity.
  - destruct (String.eqb a k') eqn:E; simpl.
    + apply String.eqb_eq in E. subst a.
      assert (String.eqb k' k = false) as ->
          by (apply String.eqb_neq; congruence).
      reflexivity.
    + destruct (String.eqb a k); simpl; rewrite IH; reflexivity.
Qed.

Lemma keyCount_mapSet_new (k : string) (v : PendingRequest) m :
  keyCount k m = 0 -> keyCount k (mapSet k v m) = 1.
Proof.
  unfold keyCount. induction m as [|[a b] m IH]; simpl.
  - rewrite String.eqb_refl. reflexivity.
  - destruct (String.eqb a k) eqn:E; simpl; [discriminate|].
    rewrite E. exact IH.
Qed.

Lemma keyCount_mapDelete_same (k : string) m : keyCount k (mapDelete k m) = 0.
Proof.
  unfold keyCount, mapDelete. induction m as [|[a b] m IH]; simpl; [reflexivity|].
  destruct (String.eqb a k) eqn:E; simpl; [exact IH|].
  rewrite E. exact IH.
Qed.

Lemma keyCount_mapDelete_other (k k' : string) m :
  k <> k' -> keyCount k (mapDelete k' m) = keyCount k m.
Proof.
  intros N. unfold keyCount, mapDelete.
  induction m as [|[a b] m IH]; simpl; [reflexivity|].
  destruct (String.eqb a k') eqn:E; simpl.
  - apply String.eqb_eq in E. subst a.
    assert (String.eqb k' k = false) as ->
        by (apply String.eqb_neq; congruence).
    exact IH.
  - destruct (String.eqb a k); simpl; rewrite IH; reflexivity.
Qed.

Lemma mapGet_None_keyCount (k : string) m :
  mapGet k m = None <-> keyCount k m = 0.
Proof.
  unfold keyCount. induction m as [|[a b] m IH]; simpl; [tauto|].
  destruct (String.eqb a k); simpl; [split; discriminate | exact IH].
Qed.

Lemma mapGet_In (k : string) (p : PendingRequest) m :
  mapGet k m = Some p -> In (k, p) m.
Proof.
  induction m as [|[a b] m IH]; simpl; [discriminate|].
  destruct (String.eqb a k) eqn:E.
  - apply String.eqb_eq in E. intros H. left. congruence.
  - intros H. right. auto.
Qed.

Lemma armedIn_filter (t t' : Timer) (l : list (Timer * Z)) :
  existsb (fun e => Timer_eqb (fst e) t)
          (filter (fun e => negb (Timer_eqb (fst e) t')) l)
  = negb (Timer_eqb t t') && existsb (fun e => Timer_eqb (fst e) t) l.
Proof.
  destruct (Timer_eqb t t') eqn:E; simpl.
  - apply Timer_eqb_eq in E. subst t'. apply existsb_filter_false.
    intros x H. rewrite H. reflexivity.
  - apply existsb_filter_keep. intros x H. apply Timer_eqb_eq in H.
    rewrite H, E. reflexivity.
Qed.

(** ** What the bridge holds for one request and for one session *)

Ltac unfold_ops :=
  unfold resolve, reject, emitLog, onChunk, output, setTimeout, clearTimeout,
    onResponse, removeListener, pendingSet,
    set_process, set_readline, set_pending, set_ready, set_responseListeners,
    set_errorListeners, set_timers, set_starts, set_out in *.

Ltac unfold_views :=
  unfold unaryView, streamView, sessionOutput, settlements, settleCount,
    listenerCount, armed, chunksOf, written, spawned, wellFormed in *.

Ltac crush_ops := unfold_views; unfold_ops; simpl in *.

(** The listeners of ['response'] leave the Map, the worker handle and the
    unary requests alone. *)
Lemma callListener_frame (l : Listener) (response : value) (s : Bridge) :
  let s' := stateOf (callListener l response s) in
  pending s' = pending s /\ process s' = process s /\
  errorListeners s' = errorListeners s /\
  (forall id, armed (RequestTimer id) s' = armed (RequestTimer id) s) /\
  (forall id, settlements (SendPromise id) s' = settlements (SendPromise id) s) /\
  written s' = written s.
Proof.
  destruct l as [n|sid]; simpl.
  - unfold readyHandler.
    destruct (nullish response); [simpl; repeat split; reflexivity|].
    destruct (isStr (get response "id") "ready"); [|simpl; repeat split; reflexivity].
    crush_ops. repeat split; try reflexivity.
    + intros id. rewrite armedIn_filter. reflexivity.
    + intros id. rewrite filter_app. simpl. rewrite app_nil_r. reflexivity.
    + rewrite flat_map_app. simpl. rewrite app_nil_r. reflexivity.
  - unfold streamHandler.
    destruct (nullish response); [simpl; repeat split; reflexivity|].
    destruct (negb (isStr (get response "id") sid)); [simpl; repeat split; reflexivity|].
    destruct (isStr (get response "status") "streaming").
    { destruct (isStr (optGet (get response "data") "type") "done");
        crush_ops; repeat split; try reflexivity; intros;
        repeat (rewrite ?armedIn_filter, ?filter_app, ?flat_map_app; simpl);
        rewrite ?app_nil_r; reflexivity. }
    destruct (isStr (get response "status") "error").
    { destruct (errorMessage response);
        crush_ops; repeat split; try reflexivity; intros;
        repeat (rewrite ?armedIn_filter, ?filter_app, ?flat_map_app; simpl);
        rewrite ?app_nil_r; reflexivity. }
    destruct (isStr (get response "status") "success").
    { crush_ops; repeat split; try reflexivity; intros;
        repeat (rewrite ?armedIn_filter, ?filter_app, ?flat_map_app; simpl);
        rewrite ?app_nil_r; reflexivity. }
    simpl. repeat split; reflexivity.
Qed.

Lemma callListeners_frame (ls : list Listener) (response : value) (s : Bridge) :
  let s' := stateOf (callListeners ls response s) in
  pending s' = pending s /\ process s' = process s /\
  errorListeners s' = errorListeners s /\
  (forall id, armed (RequestTimer id) s' = armed (RequestTimer id) s) /\
  (forall id, settlements (SendPromise id) s' = settlements (SendPromise id) s) /\
  written s' = written s.
Proof.
  revert s. induction ls as [|l ls IH]; intros s; simpl.
  - repeat split; reflexivity.
  - pose proof (callListener_frame l response s) as F. simpl in F.
    destruct (callListener l response s) as [s1|s1]; simpl in *.
    + specialize (IH s1). simpl in IH.
      destruct F as (F1 & F2 & F3 & F4 & F5 & F6).
      destruct IH as (I1 & I2 & I3 & I4 & I5 & I6).
      repeat split; try congruence.
      all: intros id; [rewrite I4; apply F4 | rewrite I5; apply F5].
    + exact F.
Qed.

Ltac frame_session :=
  crush_ops;
  repeat (rewrite ?armedIn_filter, ?filter_app, ?length_filter_removeLast_other
            by congruence; simpl);
  rewrite ?app_nil_r.

(** A listener that is not the handler of session [id] leaves the session
    alone. *)
Lemma callListener_other_session (id : string) (l : Listener) (response : value)
      (s : Bridge) :
  l <> StreamHandler id ->
  streamView id (stateOf (callListener l response s)) = streamView id s.
Proof.
  intros N. destruct l as [n|sid]; simpl.
  - unfold readyHandler.
    destruct (nullish response); [reflexivity|].
    destruct (isStr (get response "id") "ready"); [|reflexivity].
    simpl. frame_session. reflexivity.
  - assert (sid <> id) as N' by congruence.
    assert (String.eqb sid id = false) as E by (apply String.eqb_neq; exact N').
    assert (String.eqb id sid = false) as E' by (apply String.eqb_neq; congruence).
    unfold streamHandler.
    destruct (nullish response); [reflexivity|].
    destruct (negb (isStr (get response "id") sid)); [reflexivity|].
    destruct (isStr (get response "status") "streaming").
    { destruct (isStr (optGet (get response "data") "type") "done");
        simpl; frame_session; rewrite ?E, ?E'; simpl; rewrite ?app_nil_r; reflexivity. }
    destruct (isStr (get response "status") "error").
    { destruct (errorMessage response);
        simpl; frame_session; rewrite ?E, ?E'; simpl; rewrite ?app_nil_r; reflexivity. }
    destruct (isStr (get response "status") "success").
    { simpl; frame_session; rewrite ?E, ?E'; simpl; rewrite ?app_nil_r; reflexivity. }
    reflexivity.
Qed.

Lemma callListeners_other_session (id : string) (ls : list Listener)
      (response : value) (s : Bridge) :
  ~ In (StreamHandler id) ls ->
  streamView id (stateOf (callListeners ls response s)) = streamView id s.
Proof.
  revert s. induction ls as [|l ls IH]; intros s N; simpl; [reflexivity|].
  assert (l <> StreamHandler id) as Nl by (intros E; apply N; left; exact E).
  assert (~ In (StreamHandler id) ls) as Nls by (intros E; apply N; right; exact E).
  pose proof (callListener_other_session id l response s Nl) as F.
  destruct (callListener l response s) as [s1|s1]; simpl in *.
  - rewrite (IH s1 Nls). exact F.
  - exact F.
Qed.

(** A response with another id, or none, is not for session [id]. *)
Lemma streamHandler_other_id (id : string) (response : value) (s : Bridge) :
  get response "id" <> VStr id ->
  stateOf (streamHandler id response s) = s.
Proof.
  intros N. unfold streamHandler.
  destruct (nullish response); [reflexivity|].
  destruct (isStr (get response "id") id) eqn:E; [|reflexivity].
  apply isStr_eq in E. contradiction.
Qed.

Lemma isStr_excl (v : value) (a b : string) :
  a <> b -> isStr v a = true -> isStr v b = false.
Proof.
  intros N H. apply isStr_eq in H. subst v. simpl. apply String.eqb_neq. exact N.
Qed.

Lemma nullish_get (v : value) (k : string) (x : string) :
  get v k = VStr x -> nullish v = false.
Proof. destruct v; simpl; try discriminate; reflexivity. Qed.

(** A listener returns, unless the response is nullish, or is an error
    whose message cannot be converted and the listener is the handler of
    the session the response names. *)
Lemma callListener_ok (l : Listener) (response : value) (s : Bridge) :
  nullish response = false ->
  unconvertible response = false
  \/ (forall sid, l = StreamHandler sid -> isStr (get response "id") sid = false) ->
  exists s', callListener l response s = Ok s'.
Proof.
  intros H C. destruct l as [n|sid]; simpl.
  - unfold readyHandler. rewrite H.
    destruct (isStr (get response "id") "ready"); eexists; reflexivity.
  - unfold streamHandler. rewrite H.
    destruct (isStr (get response "id") sid) eqn:I; simpl; [|eexists; reflexivity].
    destruct C as [C | C]; [|rewrite (C sid eq_refl) in I; discriminate].
    unfold unconvertible in C.
    destruct (isStr (get response "status") "streaming");
      [destruct (isStr (optGet (get response "data") "type") "done");
       eexists; reflexivity|].
    destruct (isStr (get response "status") "error"); simpl in C.
    { destruct (errorMessage response); [eexists; reflexivity | discriminate]. }
    destruct (isStr (get response "status") "success"); eexists; reflexivity.
Qed.

Lemma listening_In (id : string) (s : Bridge) :
  listening id s = false <-> ~ In (StreamHandler id) (responseListeners s).
Proof.
  unfold listening. split.
  - intros H I.
    assert (existsb (fun l => Listener_eqb l (StreamHandler id)) (responseListeners s)
            = true) as X
        by (apply existsb_exists; exists (StreamHandler id);
            split; [exact I | apply Listener_eqb_refl]).
    congruence.
  - intros N.
    destruct (existsb (fun l => Listener_eqb l (StreamHandler id))
                      (responseListeners s)) eqn:X; [|reflexivity].
    apply existsb_exists in X. destruct X as (l & I & E).
    apply Listener_eqb_eq in E. subst l. contradiction.
Qed.

Lemma callListeners_ok (ls : list Listener) (response : value) (s : Bridge) :
  nullish response = false ->
  unconvertible response = false
  \/ (forall sid, In (StreamHandler sid) ls ->
                  isStr (get response "id") sid = false) ->
  exists s', callListeners ls response s = Ok s'.
Proof.
  intros H C. revert s. induction ls as [|l ls IH]; intros s; simpl.
  - eexists; reflexivity.
  - destruct (callListener_ok l response s H) as [s1 ->].
    + destruct C as [C | C]; [left; exact C | right].
      intros sid E. apply C. left. exact E.
    + apply IH. destruct C as [C | C]; [left; exact C | right].
      intros sid I. apply C. right. exact I.
Qed.

(** emit throws when the response is an error whose message cannot be
    converted and a handler of the session it names is among the
    listeners. *)
Lemma callListeners_throws (id : string) (ls : list Listener) (response : value)
      (s : Bridge) :
  get response "id" = VStr id ->
  unconvertible response = true ->
  In (StreamHandler id) ls ->
  exists s', callListeners ls response s = Throw s'.
Proof.
  intros I U. pose proof (nullish_get _ _ _ I) as NN.
  revert s. induction ls as [|l ls IH]; intros s M; [destruct M|].
  simpl. destruct (Listener_eqb l (StreamHandler id)) eqn:E.
  - apply Listener_eqb_eq in E. subst l. simpl. unfold streamHandler.
    rewrite NN, I. simpl. rewrite String.eqb_refl. simpl.
    unfold unconvertible in U. apply andb_prop in U. destruct U as [U1 U2].
    assert (isStr (get response "status") "streaming" = false) as ->
        by (apply isStr_excl with (a := "error"); [discriminate | exact U1]).
    rewrite U1. destruct (errorMessage response); [discriminate|].
    eexists; reflexivity.
  - destruct M as [M | M]; [subst l; rewrite Listener_eqb_refl in E; discriminate|].
    destruct (callListener l response s) as [s1|s1]; [apply IH; exact M|].
    eexists; reflexivity.
Qed.

Lemma streamHandler_hit (id : string) (response : value) (s : Bridge) :
  get response "id" = VStr id ->
  streamView id (stateOf (streamHandler id response s))
  = afterResponse id response (streamView id s).
Proof.
  intros H. pose proof (nullish_get _ _ _ H) as NN.
  unfold streamHandler, afterResponse, streamView, streamTerminal, sessionEmits.
  rewrite NN. assert (isStr (get response "id") id = true) as -> by (apply isStr_eq; exact H).
  simpl negb. cbv iota.
  destruct (isStr (get response "status") "streaming") eqn:S1.
  { assert (isStr (get response "status") "error" = false) as ->
        by (apply isStr_excl with (a := "streaming"); [discriminate | exact S1]).
    assert (isStr (get response "status") "success" = false) as ->
        by (apply isStr_excl with (a := "streaming"); [discriminate | exact S1]).
    destruct (isStr (optGet (get response "data") "type") "done"); simpl;
      crush_ops;
      repeat (rewrite ?armedIn_filter, ?filter_app, ?length_filter_removeLast_same; simpl);
      rewrite ?String.eqb_refl, ?app_nil_r; simpl; rewrite <- ?app_assoc; reflexivity. }
  destruct (isStr (get response "status") "error") eqn:S2.
  { unfold rejectionOf. destruct (errorMessage response); simpl; crush_ops;
      repeat (rewrite ?armedIn_filter, ?filter_app, ?length_filter_removeLast_same; simpl);
      rewrite ?String.eqb_refl, ?app_nil_r; simpl; reflexivity. }
  destruct (isStr (get response "status") "success") eqn:S3.
  { simpl. crush_ops.
    repeat (rewrite ?armedIn_filter, ?filter_app, ?length_filter_removeLast_same; simpl).
    rewrite ?String.eqb_refl, ?app_nil_r; simpl; rewrite <- ?app_assoc; reflexivity. }
  simpl. rewrite app_nil_r. reflexivity.
Qed.

Lemma filter_length_zero_notin {A} (f : A -> bool) (l : list A) (x : A) :
  List.length (filter f l) = 0 -> f x = true -> ~ In x l.
Proof.
  intros L F I.
  assert (In x (filter f l)) as H by (apply filter_In; split; assumption).
  destruct (filter f l); [contradiction | discriminate].
Qed.

(** emit over listeners among which the handler of session [id] is once. *)
Lemma callListeners_hit (id : string) (ls : list Listener) (response : value)
      (s : Bridge) :
  get response "id" = VStr id ->
  List.length (filter (fun x => Listener_eqb x (StreamHandler id)) ls) = 1 ->
  streamView id (stateOf (callListeners ls response s))
  = afterResponse id response (streamView id s).
Proof.
  intros H. pose proof (nullish_get _ _ _ H) as NN.
  revert s. induction ls as [|l ls IH]; intros s C; simpl in C; [discriminate|].
  simpl. destruct (Listener_eqb l (StreamHandler id)) eqn:E.
  - apply Listener_eqb_eq in E. subst l. simpl in C.
    assert (~ In (StreamHandler id) ls) as N.
    { apply (filter_length_zero_notin (fun x => Listener_eqb x (StreamHandler id)));
        [lia | apply Listener_eqb_refl]. }
    pose proof (streamHandler_hit id response s H) as F.
    simpl. destruct (streamHandler id response s) as [s1|s1]; simpl in *.
    + rewrite (callListeners_other_session id ls response s1 N). exact F.
    + exact F.
  - assert (l <> StreamHandler id) as N
        by (intros X; subst l; rewrite Listener_eqb_refl in E; discriminate).
    pose proof (callListener_other_session id l response s N) as F.
    destruct (callListener_ok l response s NN) as [s1 E1].
    { right. intros sid ->.
      destruct (isStr (get response "id") sid) eqn:X; [|reflexivity].
      apply isStr_eq in X. rewrite H in X. injection X as ->.
      rewrite Listener_eqb_refl in E. discriminate. }
    rewrite E1 in *. simpl in F.
    rewrite (IH s1 C), F. reflexivity.
Qed.

(** ** The failure sweep *)

Lemma sweep_fold (error : JsError) (m : list (string * PendingRequest)) (s : Bridge) :
  fold_left (fun s e => reject (promise (snd e)) error
                          (clearTimeout (timeout (snd e)) s)) m s
  = set_out (out s ++ rejections error m) (set_timers (clearAll m (timers s)) s).
Proof.
  revert s. induction m as [|a m IH]; intros s; simpl.
  - destruct s; unfold set_out, set_timers; simpl. rewrite app_nil_r. reflexivity.
  - rewrite IH. destruct s; unfold_ops; simpl. rewrite <- app_assoc. reflexivity.
Qed.

(** rejectAllPending, in one step: every record's timer cleared, every
    record's promise rejected in the order of the Map, the Map emptied. *)
Lemma rejectAllPending_eq (error : JsError) (s : Bridge) :
  rejectAllPending error s
  = set_pending [] (set_out (out s ++ rejections error (pending s))
                            (set_timers (clearAll (pending s) (timers s)) s)).
Proof. unfold rejectAllPending. rewrite sweep_fold. reflexivity. Qed.

Lemma armedIn_clearAll (t : Timer) (m : list (string * PendingRequest))
      (ts : list (Timer * Z)) :
  existsb (fun e => Timer_eqb (fst e) t) (clearAll m ts)
  = existsb (fun e => Timer_eqb (fst e) t) ts
    && negb (existsb (fun en => Timer_eqb t (timeout (snd en))) m).
Proof.
  revert ts. induction m as [|a m IH]; intros ts; simpl.
  - rewrite andb_true_r. reflexivity.
  - unfold clearAll in *. rewrite IH, armedIn_filter.
    destruct (Timer_eqb t (timeout (snd a))); simpl;
      [rewrite andb_false_r; reflexivity | reflexivity].
Qed.

Lemma sweep_hits_key (id : string) (m : list (string * PendingRequest)) :
  Forall entryOk m ->
  existsb (fun en => Timer_eqb (RequestTimer id) (timeout (snd en))) m
  = negb (Nat.eqb (keyCount id m) 0).
Proof.
  unfold keyCount. induction 1 as [|a m [_ T] _ IH]; [reflexivity|].
  cbn [existsb filter]. rewrite T, IH. simpl. rewrite (String.eqb_sym id).
  destruct (String.eqb (fst a) id); reflexivity.
Qed.

Lemma sweep_misses_timer (t : Timer) (m : list (string * PendingRequest)) :
  Forall entryOk m -> (forall id, t <> RequestTimer id) ->
  existsb (fun en => Timer_eqb t (timeout (snd en))) m = false.
Proof.
  intros F N. induction F as [|a m [_ T] _ IH]; [reflexivity|].
  cbn [existsb]. rewrite T, IH, (Timer_eqb_neq _ _ (N (fst a))). reflexivity.
Qed.

Lemma rejections_of (error : JsError) (id : string)
      (m : list (string * PendingRequest)) :
  Forall entryOk m ->
  filter (isSettle (SendPromise id)) (rejections error m)
  = repeat (Settle (SendPromise id) (Rejected error)) (keyCount id m).
Proof.
  unfold keyCount. induction 1 as [|a m [P _] _ IH]; [reflexivity|].
  unfold rejections in *. cbn [map filter]. rewrite P. simpl.
  destruct (String.eqb (fst a) id) eqn:E; simpl; rewrite IH.
  - apply String.eqb_eq in E. rewrite E. reflexivity.
  - reflexivity.
Qed.

Lemma rejections_unary_only (error : JsError) (f : Output -> bool)
      (m : list (string * PendingRequest)) :
  Forall entryOk m ->
  (forall id o, f (Settle (SendPromise id) o) = false) ->
  filter f (rejections error m) = [].
Proof.
  intros F N. induction F as [|a m [P _] _ IH]; [reflexivity|].
  unfold rejections in *. cbn [map filter]. rewrite P, N. exact IH.
Qed.

Lemma rejectAllPending_unary (error : JsError) (id : string) (s : Bridge) :
  wellFormed s ->
  unaryView id (rejectAllPending error s)
  = (0, armed (RequestTimer id) s && Nat.eqb (keyCount id (pending s)) 0,
     (settlements (SendPromise id) s
      ++ repeat (Settle (SendPromise id) (Rejected error))
                (keyCount id (pending s)))%list).
Proof.
  intros W. rewrite rejectAllPending_eq. crush_ops.
  rewrite armedIn_clearAll, (sweep_hits_key id _ W), negb_involutive.
  rewrite filter_app, (rejections_of error id _ W). reflexivity.
Qed.

Lemma rejectAllPending_session (error : JsError) (id : string) (s : Bridge) :
  wellFormed s ->
  streamView id (rejectAllPending error s) = streamView id s.
Proof.
  intros W. rewrite rejectAllPending_eq. crush_ops.
  rewrite armedIn_clearAll, (sweep_misses_timer (StreamTimer id) _ W)
    by discriminate.
  rewrite filter_app, (rejections_unary_only error (isSession id) _ W)
    by reflexivity.
  rewrite andb_true_r, app_nil_r. reflexivity.
Qed.

(** ** handleResponse *)

Lemma pendingGet_frame (key : value) (s s' : Bridge) :
  pending s' = pending s -> pendingGet key s' = pendingGet key s.
Proof. intros H. destruct key; simpl; try reflexivity. rewrite H. reflexivity. Qed.

(** A response that is [null], or whose id is not a key of the Map, or whose
    status is ['streaming'], only goes to the listeners. *)
Lemma handleResponse_miss (response : value) (s : Bridge) :
  nullish response = true \/ pendingGet (get response "id") s = None
  \/ unaryTerminal response = false
  \/ (exists s1, emitResponse response s = Throw s1) ->
  stateOf (handleResponse response s) = stateOf (emitResponse response s).
Proof.
  intros H. unfold handleResponse.
  pose proof (callListeners_frame (responseListeners s) response s) as F.
  simpl in F. destruct F as (F & _). fold (emitResponse response s) in F.
  destruct (emitResponse response s) as [s1|s1]; simpl in *; [|reflexivity].
  destruct (nullish response); [reflexivity|].
  rewrite (pendingGet_frame _ _ _ F).
  destruct H as [H | [H | [H | [s2 H]]]];
    [discriminate | rewrite H; reflexivity | | discriminate].
  unfold unaryTerminal in H. rewrite H.
  destruct (pendingGet (get response "id") s); reflexivity.
Qed.

(** emit returns when no handler of the session the response names has to
    build an error it cannot build. *)
Lemma emitResponse_ok (response : value) (k : string) (s : Bridge) :
  get response "id" = VStr k ->
  unconvertible response && listening k s = false ->
  exists s1, emitResponse response s = Ok s1.
Proof.
  intros I C. pose proof (nullish_get _ _ _ I) as NN.
  apply callListeners_ok; [exact NN|].
  destruct (unconvertible response); [right | left; reflexivity].
  simpl in C. apply listening_In in C.
  intros sid M. destruct (isStr (get response "id") sid) eqn:X; [|reflexivity].
  apply isStr_eq in X. rewrite I in X. injection X as ->. contradiction.
Qed.

Lemma emitResponse_throws (response : value) (k : string) (s : Bridge) :
  get response "id" = VStr k ->
  unconvertible response && listening k s = true ->
  exists s1, emitResponse response s = Throw s1.
Proof.
  intros I C. apply andb_prop in C. destruct C as [U L].
  apply (callListeners_throws k); [exact I | exact U |].
  unfold listening in L. apply existsb_exists in L.
  destruct L as (l & M & E). apply Listener_eqb_eq in E. subst l. exact M.
Qed.

(** A terminal response whose id is a key of the Map settles that record. *)
Lemma handleResponse_hit (response : value) (k : string) (p : PendingRequest)
      (s : Bridge) :
  get response "id" = VStr k ->
  mapGet k (pending s) = Some p ->
  unaryTerminal response = true ->
  unconvertible response && listening k s = false ->
  exists s1,
    emitResponse response s = Ok s1 /\
    stateOf (handleResponse response s)
    = outputs (outcomeOf (promise p) response)
              (pendingDelete (VStr k) (clearTimeout (timeout p) s1)).
Proof.
  intros I G T C. pose proof (nullish_get _ _ _ I) as NN.
  unfold handleResponse.
  pose proof (callListeners_frame (responseListeners s) response s) as F.
  simpl in F. destruct F as (F & _). fold (emitResponse response s) in F.
  destruct (emitResponse_ok response k s I C) as [s1 E].
  rewrite E in *. simpl in F.
  exists s1. split; [reflexivity|].
  rewrite NN, I. unfold pendingGet. rewrite F, G.
  unfold unaryTerminal in T. rewrite T. unfold outcomeOf, rejectionOf.
  destruct (isStr (get response "status") "error"); simpl; [|reflexivity].
  destruct (errorMessage response); simpl; [reflexivity|].
  unfold outputs. rewrite app_nil_r.
  destruct s1; reflexivity.
Qed.

Lemma pendingGet_cases (key : value) (s : Bridge) :
  pendingGet key s = None
  \/ exists k p, key = VStr k /\ mapGet k (pending s) = Some p.
Proof.
  destruct key as [| | | |k| |]; simpl; auto.
  destruct (mapGet k (pending s)) as [p|] eqn:E; [right | left; reflexivity].
  exists k, p. split; [reflexivity | exact E].
Qed.

(** ** Well-formedness is kept by every callback *)

Lemma entryOk_mapSet (k : string) (m : list (string * PendingRequest)) :
  Forall entryOk m ->
  Forall entryOk (mapSet k {| promise := SendPromise k; timeout := RequestTimer k |} m).
Proof.
  induction 1 as [|[a b] m H F IH]; simpl.
  - constructor; [split; reflexivity | constructor].
  - destruct (String.eqb a k).
    + constructor; [split; reflexivity | assumption].
    + constructor; assumption.
Qed.

Lemma entryOk_mapDelete (k : string) (m : list (string * PendingRequest)) :
  Forall entryOk m -> Forall entryOk (mapDelete k m).
Proof.
  unfold mapDelete. intros F. apply Forall_forall. intros x I.
  apply filter_In in I. destruct I as [I _].
  rewrite Forall_forall in F. apply F. exact I.
Qed.

Lemma wellFormed_rejectAllPending (error : JsError) (s : Bridge) :
  wellFormed (rejectAllPending error s).
Proof. rewrite rejectAllPending_eq. unfold wellFormed. simpl. constructor. Qed.

Lemma wellFormed_handleResponse (response : value) (s : Bridge) :
  wellFormed s -> wellFormed (stateOf (handleResponse response s)).
Proof.
  intros W.
  pose proof (callListeners_frame (responseListeners s) response s) as F.
  simpl in F. destruct F as (F & _). fold (emitResponse response s) in F.
  destruct (nullish response) eqn:NN.
  { rewrite handleResponse_miss by auto. unfold wellFormed. rewrite F. exact W. }
  destruct (unaryTerminal response) eqn:T.
  2:{ rewrite handleResponse_miss by auto. unfold wellFormed. rewrite F. exact W. }
  destruct (pendingGet_cases (get response "id") s) as [N | (k & p & I & G)].
  { rewrite handleResponse_miss by auto. unfold wellFormed. rewrite F. exact W. }
  destruct (unconvertible response && listening k s) eqn:C.
  { destruct (emitResponse_throws response k s I C) as [s2 E2].
    rewrite handleResponse_miss by (right; right; right; exists s2; exact E2).
    unfold wellFormed. rewrite F. exact W. }
  destruct (handleResponse_hit response k p s I G T C) as (s1 & E & ->).
  rewrite E in F. simpl in F. unfold wellFormed. simpl. rewrite F.
  apply entryOk_mapDelete. exact W.
Qed.

Lemma wellFormed_step (s : Bridge) (e : Event) :
  wellFormed s -> wellFormed (step s e).
Proof.
  intros W. destruct e; simpl.
  - unfold start. destruct (negb scriptFound); exact W.
  - unfold send, sendWith. destruct (negb (ready s)); simpl; [exact W|].
    unfold stdinWrite. simpl.
    destruct (process s); unfold wellFormed; simpl; apply entryOk_mapSet; exact W.
  - unfold sendStreaming, sendStreamingWith. destruct (negb (ready s)); simpl; [exact W|].
    unfold stdinWrite. simpl. destruct (process s); exact W.
  - apply wellFormed_rejectAllPending.
  - exact W.
  - destruct (spawned s); [|exact W]. unfold onLine.
    destruct parsed as [response|]; [|exact W].
    pose proof (wellFormed_handleResponse response s W) as H.
    destruct (handleResponse response s); exact H.
  - destruct (spawned s); exact W.
  - destruct (spawned s); [|exact W]. apply wellFormed_rejectAllPending.
  - destruct (spawned s); [|exact W]. unfold onError.
    destruct (errorListeners s); [exact W | apply wellFormed_rejectAllPending].
  - unfold fire. destruct (armed t s); simpl; [|exact W].
    destruct t; simpl; try exact W.
    unfold wellFormed. simpl. apply entryOk_mapDelete. exact W.
Qed.

Lemma wellFormed_run (es : list Event) (s : Bridge) :
  wellFormed s -> wellFormed (run s es).
Proof.
  revert s. induction es as [|e es IH]; intros s W; simpl; [exact W|].
  apply IH. apply wellFormed_step. exact W.
Qed.

Lemma wellFormed_create (path : string) : wellFormed (create path).
Proof. constructor. Qed.

Lemma reachable_wellFormed (s : Bridge) : reachable s -> wellFormed s.
Proof.
  intros (path & es & ->). apply wellFormed_run, wellFormed_create.
Qed.

Lemma run_app (s : Bridge) (es es' : list Event) :
  run s (es ++ es') = run (run s es) es'.
Proof. apply fold_left_app. Qed.

(** ** A line of the worker, seen by one request and by one session *)

Lemma emitLog_unary (id text : string) (s : Bridge) :
  unaryView id (emitLog text s) = unaryView id s.
Proof. crush_ops. rewrite filter_app. simpl. rewrite app_nil_r. reflexivity. Qed.

Lemma emitLog_session (id text : string) (s : Bridge) :
  streamView id (emitLog text s) = streamView id s.
Proof. crush_ops. rewrite filter_app. simpl. rewrite app_nil_r. reflexivity. Qed.

(** The part of handleResponse after the emit does not touch a session. *)
Lemma handleResponse_session (id : string) (response : value) (s : Bridge) :
  wellFormed s ->
  streamView id (stateOf (handleResponse response s))
  = streamView id (stateOf (emitResponse response s)).
Proof.
  intros W.
  destruct (nullish response) eqn:NN; [rewrite handleResponse_miss by auto; reflexivity|].
  destruct (unaryTerminal response) eqn:T;
    [|rewrite handleResponse_miss by auto; reflexivity].
  destruct (pendingGet_cases (get response "id") s) as [N | (k & p & I & G)];
    [rewrite handleResponse_miss by auto; reflexivity|].
  destruct (unconvertible response && listening k s) eqn:C.
  { destruct (emitResponse_throws response k s I C) as [s2 E2].
    rewrite handleResponse_miss by (right; right; right; exists s2; exact E2).
    reflexivity. }
  destruct (handleResponse_hit response k p s I G T C) as (s1 & E & ->).
  rewrite E. simpl.
  apply mapGet_In in G. unfold wellFormed in W. rewrite Forall_forall in W.
  destruct (W _ G) as [P Tm]. simpl in P, Tm. rewrite P, Tm.
  assert (filter (isSession id) (outcomeOf (SendPromise k) response) = []) as O.
  { unfold outcomeOf, rejectionOf.
    destruct (isStr (get response "status") "error"); [|reflexivity].
    destruct (errorMessage response); reflexivity. }
  unfold outputs. crush_ops. rewrite armedIn_filter, filter_app, O.
  rewrite app_nil_r. reflexivity.
Qed.

Lemma settlements_outcomeOf (id k : string) (response : value) :
  filter (isSettle (SendPromise id)) (outcomeOf (SendPromise k) response)
  = if String.eqb k id then outcomeOf (SendPromise k) response else [].
Proof.
  unfold outcomeOf, rejectionOf.
  destruct (isStr (get response "status") "error");
    [destruct (errorMessage response)|]; simpl;
    destruct (String.eqb k id); reflexivity.
Qed.

Lemma handleResponse_unary (id : string) (response : value) (s : Bridge) :
  wellFormed s ->
  unaryView id (stateOf (handleResponse response s))
  = if unaryHit id response s
    then (0, false,
          (settlements (SendPromise id) s ++ unaryOutcome id response)%list)
    else unaryView id s.
Proof.
  intros W.
  pose proof (callListeners_frame (responseListeners s) response s) as F.
  simpl in F. fold (emitResponse response s) in F.
  destruct F as (F1 & _ & _ & F4 & F5 & _).
  assert (unaryView id (stateOf (emitResponse response s)) = unaryView id s) as Same.
  { unfold unaryView. rewrite F1, F4, F5. reflexivity. }
  unfold unaryHit.
  destruct (nullish response) eqn:NN.
  { rewrite handleResponse_miss by auto.
    destruct response; try discriminate; simpl; exact Same. }
  destruct (unaryTerminal response) eqn:T.
  2:{ rewrite handleResponse_miss by auto. rewrite andb_false_r. exact Same. }
  destruct (pendingGet_cases (get response "id") s) as [N | (k & p & I & G)].
  { rewrite handleResponse_miss by auto.
    destruct (isStr (get response "id") id) eqn:E; [|exact Same].
    apply isStr_eq in E. rewrite E in N. simpl in N.
    apply mapGet_None_keyCount in N. rewrite N. exact Same. }
  destruct (unconvertible response && listening k s) eqn:C.
  { destruct (emitResponse_throws response k s I C) as [s2 E2].
    rewrite handleResponse_miss by (right; right; right; exists s2; exact E2).
    rewrite I. simpl isStr.
    destruct (String.eqb k id) eqn:K; [|exact Same].
    apply String.eqb_eq in K. subst k. rewrite C, andb_false_r. exact Same. }
  destruct (handleResponse_hit response k p s I G T C) as (s1 & E & ->).
  rewrite E in *. simpl in F1, F4, F5.
  pose proof (mapGet_In _ _ _ G) as GI.
  unfold wellFormed in W. rewrite Forall_forall in W.
  destruct (W _ GI) as [P Tm]. simpl in P, Tm. rewrite P, Tm.
  rewrite I. simpl isStr.
  destruct (String.eqb k id) eqn:K.
  - apply String.eqb_eq in K. subst k.
    assert (keyCount id (pending s) <> 0) as NZ.
    { intros Z. apply mapGet_None_keyCount in Z. congruence. }
    apply Nat.eqb_neq in NZ. rewrite NZ, C. simpl.
    unfold unaryView, settlements, unaryOutcome, outputs in *. crush_ops.
    rewrite F1, keyCount_mapDelete_same, armedIn_filter, filter_app, F5.
    rewrite settlements_outcomeOf, String.eqb_refl. cbn [Timer_eqb].
    rewrite String.eqb_refl. reflexivity.
  - simpl. apply String.eqb_neq in K.
    unfold unaryView, settlements, outputs in *. crush_ops.
    rewrite F1, keyCount_mapDelete_other, armedIn_filter, filter_app, F5 by congruence.
    rewrite settlements_outcomeOf. cbn [Timer_eqb].
    assert (String.eqb k id = false) as -> by (apply String.eqb_neq; congruence).
    assert (String.eqb id k = false) as -> by (apply String.eqb_neq; congruence).
    simpl. rewrite app_nil_r. rewrite <- F4. reflexivity.
Qed.

(** ** A bridge that never spawned a worker holds nothing *)

Lemma unspawned_step (s : Bridge) (e : Event) :
  inert s -> spawned s = false ->
  spawned (step s e) = true \/ (inert (step s e) /\ spawned (step s e) = false).
Proof.
  intros (R & L & P & T) U.
  assert (process s = None) as PR
      by (unfold spawned in U; destruct (process s); [discriminate | reflexivity]).
  assert (forall s', ready s' = false -> responseListeners s' = [] ->
                     pending s' = [] -> timers s' = [] -> process s' = None ->
                     spawned s' = true \/ (inert s' /\ spawned s' = false)) as Stay.
  { intros s' R' L' P' T' PR'. right. unfold inert, spawned. rewrite PR'.
    repeat split; assumption. }
  destruct e; cbn [step]; rewrite ?U; cbv iota; try (apply Stay; assumption);
    try (right; split; [unfold inert; repeat split; assumption | reflexivity]).
  - unfold start. destruct scriptFound; [left; reflexivity|].
    apply Stay; assumption.
  - unfold send, sendWith. rewrite R. apply Stay; assumption.
  - unfold sendStreaming, sendStreamingWith. rewrite R. apply Stay; assumption.
  - unfold stop. rewrite rejectAllPending_eq.
    apply Stay; cbn; rewrite ?PR, ?P, ?T; first [assumption | reflexivity].
  - unfold fire, armed. rewrite T. cbn. apply Stay; assumption.
Qed.

Lemma process_rejectAllPending (error : JsError) (s : Bridge) :
  process (rejectAllPending error s) = process s.
Proof. rewrite rejectAllPending_eq. reflexivity. Qed.

Lemma process_handleResponse (response : value) (s : Bridge) :
  process (stateOf (handleResponse response s)) = process s.
Proof.
  pose proof (callListeners_frame (responseListeners s) response s) as F.
  simpl in F. destruct F as (_ & F & _). fold (emitResponse response s) in F.
  unfold handleResponse.
  destruct (emitResponse response s) as [s1|s1]; simpl in *; [|exact F].
  destruct (nullish response); simpl; [exact F|].
  destruct (pendingGet (get response "id") s1); simpl; [|exact F].
  destruct (negb (isStr (get response "status") "streaming")); simpl; [|exact F].
  destruct (isStr (get response "status") "error"); simpl;
    [destruct (errorMessage response); simpl|];
    destruct (get response "id"); simpl; exact F.
Qed.

Lemma process_onLine (line : string) (parsed : option value) (s : Bridge) :
  process (onLine line parsed s) = process s.
Proof.
  unfold onLine. destruct parsed as [response|]; [|reflexivity].
  pose proof (process_handleResponse response s) as H.
  destruct (handleResponse response s); simpl in *; exact H.
Qed.

Lemma process_stdinWrite (line : value) (s : Bridge) :
  process (stdinWrite line s) = process s.
Proof. unfold stdinWrite. destruct (process s) eqn:E; [exact E | exact E]. Qed.

Lemma spawned_step (s : Bridge) (e : Event) :
  spawned s = true -> spawned (step s e) = true.
Proof.
  intros H.
  assert (forall s', process s' = process s -> spawned s' = true) as Keep.
  { intros s' E. unfold spawned in *. rewrite E. exact H. }
  destruct e; cbn [step]; rewrite ?H; cbv iota.
  - unfold start. destruct (negb scriptFound); [apply Keep|]; reflexivity.
  - unfold send, sendWith. destruct (negb (ready s)); [exact H|]. apply Keep.
    cbn [fst]. rewrite process_stdinWrite. reflexivity.
  - unfold sendStreaming, sendStreamingWith. destruct (negb (ready s)); [exact H|]. apply Keep.
    cbn [fst]. rewrite process_stdinWrite. reflexivity.
  - unfold stop, spawned in *. rewrite process_rejectAllPending. cbn.
    destruct (process s); [reflexivity | discriminate].
  - exact H.
  - apply Keep, process_onLine.
  - apply Keep. reflexivity.
  - apply Keep. unfold onExit. rewrite process_rejectAllPending. reflexivity.
  - apply Keep. unfold onError. destruct (errorListeners s); [reflexivity|].
    rewrite process_rejectAllPending. reflexivity.
  - unfold fire. destruct (negb (armed t s)); [exact H|]. apply Keep.
    destruct t; try reflexivity.
Qed.

Lemma reachable_inert_or_spawned (s : Bridge) :
  reachable s -> spawned s = true \/ (inert s /\ spawned s = false).
Proof.
  intros (path & es & ->).
  assert (forall s0, (spawned s0 = true \/ (inert s0 /\ spawned s0 = false)) ->
                     spawned (run s0 es) = true
                     \/ (inert (run s0 es) /\ spawned (run s0 es) = false)) as G.
  { induction es as [|e es IH]; intros s0 H; simpl; [exact H|].
    apply IH. destruct H as [H | [I U]].
    - left. apply spawned_step. exact H.
    - apply unspawned_step; assumption. }
  apply G. right. repeat split; reflexivity.
Qed.

(** A ready bridge, a bridge with a listener or with a pending request has a
    worker. *)
Lemma reachable_ready_spawned (s : Bridge) :
  reachable s -> ready s = true -> spawned s = true.
Proof.
  intros R H. destruct (reachable_inert_or_spawned s R) as [S | [(I & _) _]];
    [exact S | congruence].
Qed.

Lemma reachable_listening_spawned (s : Bridge) (l : Listener) :
  reachable s -> 0 < listenerCount l s -> spawned s = true.
Proof.
  intros R H. destruct (reachable_inert_or_spawned s R) as [S | [(_ & I & _) _]];
    [exact S|]. unfold listenerCount in H. rewrite I in H. simpl in H. lia.
Qed.

Lemma reachable_pending_spawned (s : Bridge) (k : string) (p : PendingRequest) :
  reachable s -> mapGet k (pending s) = Some p -> spawned s = true.
Proof.
  intros R H. destruct (reachable_inert_or_spawned s R) as [S | [(_ & _ & I & _) _]];
    [exact S|]. rewrite I in H. discriminate.
Qed.

Lemma onLine_unary (id line : string) (response : value) (s : Bridge) :
  unaryView id (onLine line (Some response) s)
  = unaryView id (stateOf (handleResponse response s)).
Proof.
  unfold onLine. destruct (handleResponse response s); simpl;
    [reflexivity | apply emitLog_unary].
Qed.

Lemma onLine_session (id line : string) (response : value) (s : Bridge) :
  streamView id (onLine line (Some response) s)
  = streamView id (stateOf (handleResponse response s)).
Proof.
  unfold onLine. destruct (handleResponse response s); simpl;
    [reflexivity | apply emitLog_session].
Qed.

(** ** Requests, unary and streaming *)

Lemma step_callOf (r : Request) (s : Bridge) : step s (callOf r) = fst (issue r s).
Proof. unfold callOf, issue. destruct (kind r); reflexivity. Qed.

(** ** C3: readiness gating *)

(** C3.  While the ready flag is false, every call of send and of
    sendStreaming fails with the error 'Engine not ready' and leaves the
    bridge as it was, so nothing is written to the worker's input stream,
    however many such calls are made. *)
Theorem readiness_gating (s : Bridge) (rs : list Request) :
  ready s = false ->
  issueAll rs s = (s, map (fun _ => Rejects (mkError "Engine not ready")) rs)
  /\ written (fst (issueAll rs s)) = written s.
Proof.
  intros R.
  assert (issueAll rs s
          = (s, map (fun _ => Rejects (mkError "Engine not ready")) rs)) as E.
  { induction rs as [|r rs IH]; simpl; [reflexivity|].
    assert (issue r s = (s, Rejects (mkError "Engine not ready"))) as ->.
    { unfold issue, send, sendWith, sendStreaming, sendStreamingWith.
      rewrite R. destruct (kind r); reflexivity. }
    rewrite IH. reflexivity. }
  rewrite E. split; reflexivity.
Qed.

Lemma readiness_gating_witness :
  issueAll someRequests awaitingReady
  = (awaitingReady,
     [Rejects (mkError "Engine not ready"); Rejects (mkError "Engine not ready");
      Rejects (mkError "Engine not ready")])
  /\ written (fst (issueAll someRequests awaitingReady)) = [].
Proof.
  apply (readiness_gating awaitingReady someRequests). reflexivity.
Defined.

(** ** C6: a response for an id that is no longer registered *)

Lemma callListeners_noop (ls : list Listener) (response : value) (s : Bridge) :
  (forall l, In l ls -> callListener l response s = Ok s) ->
  callListeners ls response s = Ok s.
Proof.
  induction ls as [|l ls IH]; intros H; simpl; [reflexivity|].
  rewrite (H l (or_introl eq_refl)). apply IH. intros l' I. apply H. right. exact I.
Qed.

(** C6.  A response arriving for a correlation id that is registered nowhere
    (no record in the pending Map, no streaming handler; for instance after
    its timeout removed it) changes nothing at all: the state of the bridge,
    every promise and the output history stay as they were. *)
Theorem dangling_response_dropped (s : Bridge) (id line : string) (response : value) :
  mapGet id (pending s) = None ->
  ~ In (StreamHandler id) (responseListeners s) ->
  id <> "ready" ->
  get response "id" = VStr id ->
  step s (Line line (Some response)) = s.
Proof.
  intros P L NR I. pose proof (nullish_get _ _ _ I) as NN.
  cbn [step]. destruct (spawned s); [|reflexivity].
  unfold onLine, handleResponse, emitResponse.
  rewrite callListeners_noop.
  - rewrite NN, I. simpl. rewrite P. reflexivity.
  - intros [n|sid] In_l; simpl.
    + unfold readyHandler. rewrite NN, I. simpl.
      apply String.eqb_neq in NR. rewrite NR. reflexivity.
    + unfold streamHandler. rewrite NN, I. simpl.
      assert (String.eqb id sid = false) as ->; [|reflexivity].
      apply String.eqb_neq. intros E. subst sid. contradiction.
Qed.

Lemma dangling_response_dropped_witness :
  step timedOut (Line "{...}" (Some lateSuccess)) = timedOut.
Proof.
  apply (dangling_response_dropped timedOut "u1" "{...}" lateSuccess).
  - reflexivity.
  - simpl. tauto.
  - discriminate.
  - reflexivity.
Defined.

(** ** C7: a streaming request answered with one success message *)

(** C7.  When the worker answers an open streaming session with one message
    of status 'success', the session's onChunk is called exactly once, with
    the chunk [{type: 'done', data}] that wraps the whole payload, and then
    the session's promise is resolved; the handler is removed and the timer
    cleared, so nothing follows. *)
Theorem success_as_stream (s : Bridge) (id line : string) (response : value) :
  reachable s ->
  listenerCount (StreamHandler id) s = 1 ->
  get response "id" = VStr id ->
  get response "status" = VStr "success" ->
  let s' := step s (Line line (Some response)) in
  sessionOutput id s'
  = (sessionOutput id s
     ++ [Chunk id (doneChunk (get response "data"));
         Settle (StreamPromise id) (Resolved VUndefined)])%list
  /\ listenerCount (StreamHandler id) s' = 0
  /\ armed (StreamTimer id) s' = false.
Proof.
  intros R C I St s'. subst s'. cbn [step].
  rewrite (reachable_listening_spawned s (StreamHandler id) R) by lia.
  pose proof (reachable_wellFormed s R) as W.
  pose proof (onLine_session id line response s) as V.
  rewrite (handleResponse_session id response s W) in V.
  unfold emitResponse in V.
  rewrite (callListeners_hit id (responseListeners s) response s I C) in V.
  unfold afterResponse, streamView, streamTerminal, sessionEmits in V.
  rewrite St in V. simpl in V. fold (listenerCount (StreamHandler id) s) in V.
  rewrite C in V. injection V as V1 V2 V3.
  unfold doneChunk. repeat split; assumption.
Qed.

Lemma success_as_stream_witness :
  sessionOutput "s1" (step openSession (Line "{...}" (Some wholeAnswer)))
  = [Chunk "s1" (doneChunk (VStr "forty-two"));
     Settle (StreamPromise "s1") (Resolved VUndefined)]
  /\ listenerCount (StreamHandler "s1")
                   (step openSession (Line "{...}" (Some wholeAnswer))) = 0
  /\ armed (StreamTimer "s1")
           (step openSession (Line "{...}" (Some wholeAnswer))) = false.
Proof.
  assert (listenerCount (StreamHandler "s1") openSession = 1) as C
      by (vm_compute; reflexivity).
  assert (get wholeAnswer "id" = VStr "s1") as I by reflexivity.
  assert (get wholeAnswer "status" = VStr "success") as St by reflexivity.
  assert (reachable openSession) as R.
  { exists "/opt/engine",
      [CallStart true; readyLine;
       CallSendStreaming "s1" "t1" [("action", VStr "query")]].
    vm_compute. reflexivity. }
  pose proof (success_as_stream openSession "s1" "{...}" wholeAnswer R C I St) as H.
  vm_compute in H. vm_compute. exact H.
Defined.

(** ** C8: a unary request answered with an error *)

Lemma onePending_reachable : reachable onePending.
Proof.
  exists "/opt/engine",
    [CallStart true; readyLine; CallSend "u1" "t1" [("action", VStr "index")]].
  vm_compute. reflexivity.
Qed.

(** C8 does not hold as the specification states it.  Two error responses
    that differ in code and details reject the caller
    with the same error, [new Error('boom')]: the code and the details do
    not reach the caller. *)
Lemma worker_error_drops_code : ~ worker_error_verbatim.
Proof.
  intros (code & details & H).
  assert (mapGet "u1" (pending onePending)
          = Some {| promise := SendPromise "u1"; timeout := RequestTimer "u1" |}) as G
      by (vm_compute; reflexivity).
  destruct (H onePending "u1" "{...}" _ (workerError "E_INDEX" 1)
              onePending_reachable G eq_refl eq_refl) as (e1 & S1 & _ & C1 & _).
  destruct (H onePending "u1" "{...}" _ (workerError "E_QUERY" 2)
              onePending_reachable G eq_refl eq_refl) as (e2 & S2 & _ & C2 & _).
  vm_compute in S1, S2.
  injection S1 as <-. injection S2 as <-.
  rewrite C1 in C2. vm_compute in C2. discriminate.
Qed.

Lemma errorMessage_string (response : value) (m : string) :
  get (get response "error") "message" = VStr m -> m <> "" ->
  errorMessage response = Some m.
Proof.
  intros M NE. unfold errorMessage, optGet.
  destruct (get response "error") eqn:E; simpl in M; try discriminate.
  unfold nullish, get in *. rewrite M. simpl.
  apply String.eqb_neq in NE. rewrite NE. reflexivity.
Qed.

Lemma errorMessage_falsy (response : value) :
  truthy (optGet (get response "error") "message") = false ->
  errorMessage response = Some "Unknown error".
Proof. intros F. unfold errorMessage. rewrite F. reflexivity. Qed.

Lemma convertible_error (response : value) (m : string) :
  errorMessage response = Some m -> unconvertible response = false.
Proof. intros E. unfold unconvertible. rewrite E. apply andb_false_r. Qed.

(** An error response whose message [new Error] can take, for a pending
    unary request. *)
Lemma error_line_unary (s : Bridge) (id line m : string) (p : PendingRequest)
      (response : value) :
  reachable s ->
  mapGet id (pending s) = Some p ->
  get response "id" = VStr id ->
  get response "status" = VStr "error" ->
  errorMessage response = Some m ->
  settlements (SendPromise id) (step s (Line line (Some response)))
  = (settlements (SendPromise id) s
     ++ [Settle (SendPromise id) (Rejected (mkError m))])%list.
Proof.
  intros R G I St M.
  cbn [step]. rewrite (reachable_pending_spawned s id p R G).
  pose proof (reachable_wellFormed s R) as W.
  assert (Nat.eqb (keyCount id (pending s)) 0 = false) as NZ.
  { apply Nat.eqb_neq. intros Z. apply mapGet_None_keyCount in Z. congruence. }
  assert (isStr (VStr id) id = true) as Ei by (apply isStr_eq; reflexivity).
  change (settlements (SendPromise id) (onLine line (Some response) s))
    with (snd (unaryView id (onLine line (Some response) s))).
  rewrite onLine_unary, (handleResponse_unary id response s W).
  unfold unaryHit, unaryTerminal, unaryOutcome, outcomeOf, rejectionOf.
  rewrite (convertible_error response m M), I, St, M, Ei, NZ.
  reflexivity.
Qed.

(** C8, as the code has it.  A response of status 'error' for a pending unary
    request whose [error.message] is a non-empty string rejects the caller's
    promise, once, with [new Error] of that string as it is; one whose
    [error.message] is missing or otherwise falsy rejects it, once, with
    [new Error('Unknown error')].  Nothing else of the worker's error
    reaches the caller. *)
Theorem worker_error_rejects_with_message
        (s : Bridge) (id line : string) (p : PendingRequest) (response : value) :
  reachable s ->
  mapGet id (pending s) = Some p ->
  get response "id" = VStr id ->
  get response "status" = VStr "error" ->
  (forall m, get (get response "error") "message" = VStr m -> m <> "" ->
             settlements (SendPromise id) (step s (Line line (Some response)))
             = (settlements (SendPromise id) s
                ++ [Settle (SendPromise id) (Rejected (mkError m))])%list)
  /\ (truthy (optGet (get response "error") "message") = false ->
      settlements (SendPromise id) (step s (Line line (Some response)))
      = (settlements (SendPromise id) s
         ++ [Settle (SendPromise id) (Rejected (mkError "Unknown error"))])%list).
Proof.
  intros R G I St. split.
  - intros m M NE. apply (error_line_unary s id line m p response R G I St).
    apply errorMessage_string; assumption.
  - intros F. apply (error_line_unary s id line _ p response R G I St).
    apply errorMessage_falsy. exact F.
Qed.

Lemma worker_error_rejects_with_message_witness :
  settlements (SendPromise "u1")
              (step onePending (Line "{...}" (Some (workerError "E_INDEX" 1))))
  = [Settle (SendPromise "u1") (Rejected (mkError "boom"))].
Proof.
  assert (reachable onePending) as R.
  { exists "/opt/engine",
      [CallStart true; readyLine; CallSend "u1" "t1" [("action", VStr "index")]].
    vm_compute. reflexivity. }
  assert (mapGet "u1" (pending onePending)
          = Some {| promise := SendPromise "u1"; timeout := RequestTimer "u1" |}) as G
      by (vm_compute; reflexivity).
  assert (get (workerError "E_INDEX" 1) "id" = VStr "u1") as I by reflexivity.
  assert (get (workerError "E_INDEX" 1) "status" = VStr "error") as St by reflexivity.
  assert (get (get (workerError "E_INDEX" 1) "error") "message" = VStr "boom") as M
      by reflexivity.
  assert ("boom" <> "") as NE by discriminate.
  pose proof (proj1 (worker_error_rejects_with_message
                       onePending "u1" "{...}" _ (workerError "E_INDEX" 1)
                       R G I St) "boom" M NE) as H.
  vm_compute in H. vm_compute. exact H.
Defined.

(** ** C5: lines that are not protocol messages *)

Lemma streamHandler_unrecognized (sid : string) (response : value) (s : Bridge) :
  recognized response = false ->
  stateOf (streamHandler sid response s) = s.
Proof.
  unfold recognized. intros H.
  apply orb_false_elim in H. destruct H as [H S3].
  apply orb_false_elim in H. destruct H as [S1 S2].
  unfold streamHandler. rewrite S1, S2, S3.
  destruct (nullish response); [reflexivity|].
  destruct (negb (isStr (get response "id") sid)); reflexivity.
Qed.

Lemma callListeners_unrecognized (id : string) (ls : list Listener)
      (response : value) (s : Bridge) :
  recognized response = false ->
  streamView id (stateOf (callListeners ls response s)) = streamView id s.
Proof.
  intros U. revert s. induction ls as [|l ls IH]; intros s; simpl; [reflexivity|].
  assert (streamView id (stateOf (callListener l response s)) = streamView id s) as F.
  { destruct l as [n|sid].
    - apply callListener_other_session. discriminate.
    - simpl. rewrite streamHandler_unrecognized by exact U. reflexivity. }
  destruct (callListener l response s) as [s1|s1]; simpl in *.
  - rewrite IH. exact F.
  - exact F.
Qed.

(** C5 does not hold as the specification states it.  A line that parses as
    JSON and has no status at all, but carries the id
    of a pending request, resolves that request (with [undefined]) and is not
    logged. *)
Lemma statusless_line_resolves_pending :
  mapGet "u1" (pending onePending)
  = Some {| promise := SendPromise "u1"; timeout := RequestTimer "u1" |}
  /\ out (step onePending statuslessLine)
     = (out onePending ++ [Settle (SendPromise "u1") (Resolved VUndefined)])%list
  /\ pending (step onePending statuslessLine) = [].
Proof. vm_compute. repeat split; reflexivity. Qed.

(** C5, as the code has it.  The line listener always returns.  A line that
    is not JSON only emits a 'log' event.  A line that parses as JSON but has
    no status the protocol knows reaches no streaming session; yet if its id
    is the key of a pending unary request, that request is resolved with the
    line's [data], as for status 'success', and otherwise no unary request is
    touched. *)
Theorem diagnostic_tolerance (s : Bridge) (line : string) :
  reachable s ->
  step s (Line line None)
  = (if spawned s then emitLog ("[engine] " ++ line) s else s)
  /\ forall response,
      recognized response = false ->
      let s' := step s (Line line (Some response)) in
      (forall id, streamView id s' = streamView id s)
      /\ (forall id,
             unaryView id s'
             = if isStr (get response "id") id
                  && negb (Nat.eqb (keyCount id (pending s)) 0)
               then (0, false,
                     (settlements (SendPromise id) s
                      ++ [Settle (SendPromise id) (Resolved (get response "data"))])%list)
               else unaryView id s).
Proof.
  intros R. split; [reflexivity|].
  intros response U s'. subst s'. cbn [step].
  pose proof (reachable_wellFormed s R) as W.
  assert (isStr (get response "status") "streaming" = false
          /\ isStr (get response "status") "error" = false) as [S1 S2].
  { unfold recognized in U. apply orb_false_elim in U. destruct U as [U S3].
    apply orb_false_elim in U. destruct U as [_ S2]. split; assumption. }
  destruct (spawned s) eqn:SP.
  - split; intros id.
    + rewrite onLine_session, (handleResponse_session id response s W).
      apply callListeners_unrecognized. exact U.
    + rewrite onLine_unary, (handleResponse_unary id response s W).
      unfold unaryHit, unaryTerminal, unaryOutcome, outcomeOf, unconvertible.
      rewrite S1, S2. simpl. rewrite ?andb_true_r. reflexivity.
  - split; intros id; [reflexivity|].
    destruct (reachable_inert_or_spawned s R) as [X | [(_ & _ & P & _) _]];
      [congruence|].
    rewrite P. simpl. rewrite andb_false_r. reflexivity.
Qed.

Lemma diagnostic_tolerance_witness :
  step onePending (Line "Loading model..." None)
  = emitLog "[engine] Loading model..." onePending
  /\ unaryView "u1" (step onePending statuslessLine)
     = (0, false, [Settle (SendPromise "u1") (Resolved VUndefined)]).
Proof.
  assert (reachable onePending) as R.
  { exists "/opt/engine",
      [CallStart true; readyLine; CallSend "u1" "t1" [("action", VStr "index")]].
    vm_compute. reflexivity. }
  destruct (diagnostic_tolerance onePending "Loading model..." R) as [H1 _].
  destruct (diagnostic_tolerance onePending "{...}" R) as [_ H2].
  specialize (H2 (VObj [("id", VStr "u1"); ("note", VStr "warming up")]) eq_refl).
  destruct H2 as [_ H2]. specialize (H2 "u1").
  split.
  - vm_compute in H1. vm_compute. exact H1.
  - vm_compute in H2. vm_compute. exact H2.
Defined.

(** ** C2: the sweep after a crash *)

(** C2, at the input where the code departs from it.  With two unary
    requests pending and one streaming session open,
    the exit of the worker rejects the two unary callers and empties the
    Map, but the session is not swept: its promise has no call of resolve or
    reject, its handler still listens and its timer is still armed. *)
Theorem crash_leaves_streaming_session_open :
  let s' := step busyBridge (Exit (Some 1%Z)) in
  settlements (SendPromise "u1") s'
  = [Settle (SendPromise "u1") (Rejected (mkError "Engine exited with code 1"))]
  /\ settlements (SendPromise "u2") s'
     = [Settle (SendPromise "u2") (Rejected (mkError "Engine exited with code 1"))]
  /\ pending s' = []
  /\ settlements (StreamPromise "s1") s' = []
  /\ responseListeners s' = [StreamHandler "s1"]
  /\ armed (StreamTimer "s1") s' = true.
Proof. vm_compute. repeat split; reflexivity. Qed.

(** No trigger of the sweep reaches a session, in any state of the bridge. *)
Lemma sweep_never_reaches_sessions (s : Bridge) (id : string) (e : Event) :
  reachable s ->
  (e = CallStop \/ (exists code, e = Exit code) \/ (exists err, e = Error err)) ->
  streamView id (step s e) = streamView id s.
Proof.
  intros R H. pose proof (reachable_wellFormed s R) as W.
  destruct H as [-> | [[code ->] | [err ->]]]; cbn [step].
  - unfold stop. rewrite rejectAllPending_session; [reflexivity | exact W].
  - destruct (spawned s); [|reflexivity]. unfold onExit.
    rewrite rejectAllPending_session; [|exact W].
    crush_ops. rewrite filter_app. simpl. rewrite app_nil_r. reflexivity.
  - destruct (spawned s); [|reflexivity]. unfold onError.
    destruct (errorListeners s).
    + crush_ops. rewrite filter_app. simpl. rewrite app_nil_r. reflexivity.
    + rewrite rejectAllPending_session; [|exact W].
      crush_ops. rewrite filter_app. simpl. rewrite app_nil_r. reflexivity.
Qed.

(** A transport error on a bridge whose caller attached no listener for
    'error' is thrown out of [emit] before the sweep: nothing is rejected. *)
Lemma transport_error_without_listener :
  let s' := step busyBridge (Error (mkError "spawn ENOENT")) in
  out s' = (out busyBridge ++ [Uncaught (mkError "spawn ENOENT")])%list
  /\ pending s' = pending busyBridge
  /\ settlements (SendPromise "u1") s' = [].
Proof. vm_compute. repeat split; reflexivity. Qed.

(** ** C4: the readiness gate *)

(** C4 does not hold as the specification states it.  After stop(), start()
    on the same instance spawns a worker again, and
    its 'ready' message makes the bridge Ready again: a request is then
    written to the worker. *)
Lemma bridge_restarts_after_stop :
  let stopped := run (create "/opt/engine") [CallStart true; readyLine; CallStop] in
  let again := run stopped [CallStart true; readyLine] in
  ready stopped = false
  /\ ready again = true
  /\ written (fst (send "u1" "t1" [("action", VStr "health")] again))
     = [outbound [("action", VStr "health")] "u1" "t1"].
Proof. vm_compute. repeat split; reflexivity. Qed.

(** The handler of waitForReady stays registered when the startup timer
    fires: a 'ready' message that comes later still raises the flag. *)
Lemma late_ready_after_startup_timeout :
  let failed := run (create "/opt/engine") [CallStart true; Fire (StartupTimer 0)] in
  settlements (StartPromise 0) failed
  = [Settle (StartPromise 0) (Rejected (mkError "Engine startup timeout"))]
  /\ ready failed = false
  /\ ready (step failed readyLine) = true.
Proof. vm_compute. repeat split; reflexivity. Qed.

Lemma removeLast_incl (l x : Listener) (ls : list Listener) :
  In x (removeLast l ls) -> In x ls.
Proof.
  induction ls as [|y ls IH]; simpl; [tauto|].
  destruct (Listener_eqb y l && negb (existsb (fun z => Listener_eqb z l) ls)).
  - intros H. right. exact H.
  - intros [H | H]; [left; exact H | right; apply IH; exact H].
Qed.

(** A streaming handler never raises the flag and adds no listener. *)
Lemma streamHandler_gate (sid : string) (response : value) (s : Bridge) :
  let s' := stateOf (streamHandler sid response s) in
  ready s' = ready s /\ (forall x, In x (responseListeners s') -> In x (responseListeners s)).
Proof.
  unfold streamHandler.
  destruct (nullish response); [simpl; auto|].
  destruct (negb (isStr (get response "id") sid)); [simpl; auto|].
  destruct (isStr (get response "status") "streaming").
  { destruct (isStr (optGet (get response "data") "type") "done"); simpl; auto.
    split; [reflexivity|]. intros x. apply removeLast_incl. }
  destruct (isStr (get response "status") "error").
  { destruct (errorMessage response);
      simpl; (split; [reflexivity|]); intros x; apply removeLast_incl. }
  destruct (isStr (get response "status") "success").
  { simpl. split; [reflexivity|]. intros x. apply removeLast_incl. }
  simpl. auto.
Qed.

Lemma callListeners_gate (ls : list Listener) (response : value) (s : Bridge) :
  (forall n, ~ In (ReadyHandler n) ls) ->
  let s' := stateOf (callListeners ls response s) in
  ready s' = ready s /\ (forall x, In x (responseListeners s') -> In x (responseListeners s)).
Proof.
  revert s. induction ls as [|l ls IH]; intros s N; simpl; [auto|].
  destruct l as [n|sid]; [exfalso; apply (N n); left; reflexivity|].
  pose proof (streamHandler_gate sid response s) as G. simpl in G. simpl.
  assert (forall n, ~ In (ReadyHandler n) ls) as N'
      by (intros n I; apply (N n); right; exact I).
  destruct (streamHandler sid response s) as [s1|s1]; simpl in *; [|exact G].
  destruct (IH s1 N') as [I1 I2]. destruct G as [G1 G2].
  split; [congruence|]. intros x I. apply G2, I2, I.
Qed.

Lemma handleResponse_gate (response : value) (s : Bridge) :
  noReadyHandler s ->
  let s' := stateOf (handleResponse response s) in
  ready s' = ready s /\ (forall x, In x (responseListeners s') -> In x (responseListeners s)).
Proof.
  intros N. pose proof (callListeners_gate (responseListeners s) response s N) as G.
  simpl in G. fold (emitResponse response s) in G. unfold handleResponse.
  destruct (emitResponse response s) as [s1|s1]; simpl in *; [|exact G].
  destruct (nullish response); simpl; [exact G|].
  destruct (pendingGet (get response "id") s1); simpl; [|exact G].
  destruct (negb (isStr (get response "status") "streaming")); simpl; [|exact G].
  destruct (isStr (get response "status") "error"); simpl;
    [destruct (errorMessage response); simpl|];
    destruct (get response "id"); simpl; exact G.
Qed.

Lemma gate_closed_step (s : Bridge) (e : Event) :
  ready s = false -> noReadyHandler s -> notStart e ->
  ready (step s e) = false /\ noReadyHandler (step s e).
Proof.
  intros R N NS. destruct e; cbn [step].
  - exfalso. apply (NS scriptFound). reflexivity.
  - unfold send, sendWith. rewrite R. simpl. split; assumption.
  - unfold sendStreaming, sendStreamingWith. rewrite R. simpl. split; assumption.
  - unfold stop. rewrite rejectAllPending_eq. simpl. split; [reflexivity | exact N].
  - split; assumption.
  - destruct (spawned s); [|split; assumption].
    unfold onLine. destruct parsed as [response|]; [|split; assumption].
    destruct (handleResponse_gate response s N) as [G1 G2].
    destruct (handleResponse response s) as [s1|s1]; simpl in *.
    + split; [congruence|]. intros n I. apply (N n), G2, I.
    + split; [congruence|]. intros n I. apply (N n), G2, I.
  - destruct (spawned s); split; assumption.
  - destruct (spawned s); [|split; assumption].
    unfold onExit. rewrite rejectAllPending_eq. simpl. split; assumption.
  - destruct (spawned s); [|split; assumption].
    unfold onError. destruct (errorListeners s); [split; assumption|].
    rewrite rejectAllPending_eq. simpl. split; assumption.
  - unfold fire. destruct (negb (armed t s)); [split; assumption|].
    destruct t; simpl; split; try assumption.
    intros n I. apply (N n). apply removeLast_incl in I. exact I.
Qed.

(** C4, as the code has it.  stop() lowers the ready flag.  When no handler
    of waitForReady is listening any more (a bridge that had become Ready
    has removed it), the flag then stays down through every later event that
    is not a new call of start(): every send fails with 'Engine not ready'.
    Only start() on the same instance re-enters the gate. *)
Theorem stopped_bridge_stays_down (s : Bridge) (es : list Event) (r : Request) :
  noReadyHandler s ->
  Forall notStart es ->
  ready (run (stop s) es) = false
  /\ issue r (run (stop s) es)
     = (run (stop s) es, Rejects (mkError "Engine not ready")).
Proof.
  intros N F.
  assert (ready (run (stop s) es) = false) as R.
  { assert (ready (stop s) = false /\ noReadyHandler (stop s)) as [R0 N0].
    { unfold stop. rewrite rejectAllPending_eq. simpl. split; [reflexivity | exact N]. }
    revert R0 N0. generalize (stop s) as s0.
    induction F as [|e es NS F IH]; intros s0 R0 N0; simpl; [exact R0|].
    destruct (gate_closed_step s0 e R0 N0 NS) as [R1 N1].
    apply IH; assumption. }
  split; [exact R|].
  unfold issue, send, sendWith, sendStreaming, sendStreamingWith.
  rewrite R. destruct (kind r); reflexivity.
Qed.

Lemma stopped_bridge_stays_down_witness :
  ready (run (stop busyBridge)
             [Exit None; readyLine; Fire (StreamTimer "s1"); CallStop;
              CallSend "u3" "t4" []]) = false.
Proof.
  assert (noReadyHandler busyBridge) as N.
  { intros n. vm_compute. intros [H | H]; [discriminate | exact H]. }
  assert (Forall notStart [Exit None; readyLine; Fire (StreamTimer "s1"); CallStop;
                           CallSend "u3" "t4" []]) as F.
  { repeat constructor; intros found; discriminate. }
  exact (proj1 (stopped_bridge_stays_down
                  busyBridge _
                  {| kind := Unary; rid := "u3"; rts := "t4"; body := [] |} N F)).
Defined.

(** ** C9: stop *)

Lemma stdinWrite_pending (line : value) (s : Bridge) :
  pending (stdinWrite line s) = pending s.
Proof. unfold stdinWrite. destruct (process s); reflexivity. Qed.

Lemma stdinWrite_timers (line : value) (s : Bridge) :
  timers (stdinWrite line s) = timers s.
Proof. unfold stdinWrite. destruct (process s); reflexivity. Qed.

Lemma stdinWrite_listeners (line : value) (s : Bridge) :
  responseListeners (stdinWrite line s) = responseListeners s.
Proof. unfold stdinWrite. destruct (process s); reflexivity. Qed.

(** How one callback changes the Map. *)
Lemma pending_step (s : Bridge) (e : Event) :
  pending (step s e) = pending s
  \/ pending (step s e) = []
  \/ (exists k, pending (step s e) = mapDelete k (pending s))
  \/ (exists k v, pending (step s e) = mapSet k v (pending s)).
Proof.
  destruct e; cbn [step].
  - left. unfold start. destruct (negb scriptFound); reflexivity.
  - unfold send, sendWith. destruct (negb (ready s)); [left; reflexivity|].
    right. right. right. eexists. eexists. cbn [fst].
    rewrite stdinWrite_pending. reflexivity.
  - left. unfold sendStreaming, sendStreamingWith. destruct (negb (ready s)); [reflexivity|].
    cbn [fst]. rewrite stdinWrite_pending. reflexivity.
  - right. left. unfold stop. rewrite rejectAllPending_eq. reflexivity.
  - left. reflexivity.
  - destruct (spawned s); [|left; reflexivity].
    unfold onLine. destruct parsed as [response|]; [|left; reflexivity].
    assert (pending (stateOf (handleResponse response s)) = pending s
            \/ exists k, pending (stateOf (handleResponse response s))
                         = mapDelete k (pending s)) as H.
    { pose proof (callListeners_frame (responseListeners s) response s) as F.
      simpl in F. destruct F as (F & _). fold (emitResponse response s) in F.
      destruct (nullish response) eqn:NN;
        [left; rewrite handleResponse_miss by auto; exact F|].
      destruct (unaryTerminal response) eqn:T;
        [|left; rewrite handleResponse_miss by auto; exact F].
      destruct (pendingGet_cases (get response "id") s) as [N | (k & p & I & G)];
        [left; rewrite handleResponse_miss by auto; exact F|].
      destruct (unconvertible response && listening k s) eqn:C;
        [destruct (emitResponse_throws response k s I C) as [s2 E2]; left;
         rewrite handleResponse_miss by (right; right; right; exists s2; exact E2);
         exact F|].
      destruct (handleResponse_hit response k p s I G T C) as (s1 & E & ->).
      rewrite E in F. simpl in F. right. exists k. simpl. rewrite F. reflexivity. }
    destruct (handleResponse response s) as [s1|s1]; simpl in *;
      destruct H as [H | H]; auto.
  - left. destruct (spawned s); reflexivity.
  - destruct (spawned s); [|left; reflexivity].
    right. left. unfold onExit. rewrite rejectAllPending_eq. reflexivity.
  - destruct (spawned s); [|left; reflexivity]. unfold onError.
    destruct (errorListeners s); [left; reflexivity|].
    right. left. rewrite rejectAllPending_eq. reflexivity.
  - unfold fire. destruct (negb (armed t s)); [left; reflexivity|].
    destruct t; simpl; auto. right. right. left. eexists. reflexivity.
Qed.

Lemma In_keys_mapSet (x k : string) (v : PendingRequest) m :
  In x (map fst (mapSet k v m)) -> x = k \/ In x (map fst m).
Proof.
  induction m as [|[a b] m IH]; simpl.
  - intros [H | H]; [left; congruence | contradiction].
  - destruct (String.eqb a k) eqn:E; simpl.
    + apply String.eqb_eq in E. subst a. intros [H | H]; auto.
    + intros [H | H]; [right; left; exact H|].
      destruct (IH H); auto.
Qed.

Lemma NoDup_keys_mapSet (k : string) (v : PendingRequest) m :
  NoDup (map fst m) -> NoDup (map fst (mapSet k v m)).
Proof.
  induction m as [|[a b] m IH]; simpl; intros H.
  - constructor; [simpl; tauto | constructor].
  - inversion H as [|x l NI ND]; subst.
    destruct (String.eqb a k) eqn:E; simpl.
    + apply String.eqb_eq in E. subst a. constructor; assumption.
    + constructor; [|apply IH; exact ND].
      intros I. apply In_keys_mapSet in I. destruct I as [I | I].
      * subst a. rewrite String.eqb_refl in E. discriminate.
      * contradiction.
Qed.

Lemma NoDup_keys_mapDelete (k : string) m :
  NoDup (map fst m) -> NoDup (map fst (mapDelete k m)).
Proof.
  unfold mapDelete. induction m as [|[a b] m IH]; simpl; intros H; [constructor|].
  inversion H as [|x l NI ND]; subst.
  destruct (negb (String.eqb a k)); simpl; [|apply IH; exact ND].
  constructor; [|apply IH; exact ND].
  intros I. apply NI. apply in_map_iff in I. destruct I as ([a' b'] & E & I).
  apply filter_In in I. destruct I as [I _].
  apply in_map_iff. exists (a', b'). split; assumption.
Qed.

(** The keys of the Map are distinct, as in a Map. *)
Lemma reachable_distinct_keys (s : Bridge) :
  reachable s -> NoDup (map fst (pending s)).
Proof.
  intros (path & es & ->).
  assert (forall s0, NoDup (map fst (pending s0)) ->
                     NoDup (map fst (pending (run s0 es)))) as G.
  { induction es as [|e es IH]; intros s0 H; simpl; [exact H|].
    apply IH.
    destruct (pending_step s0 e) as [-> | [-> | [[k ->] | (k & v & ->)]]].
    - exact H.
    - constructor.
    - apply NoDup_keys_mapDelete. exact H.
    - apply NoDup_keys_mapSet. exact H. }
  apply G. constructor.
Qed.

Lemma rejections_wellFormed (error : JsError) (m : list (string * PendingRequest)) :
  Forall entryOk m ->
  rejections error m
  = map (fun en => Settle (SendPromise (fst en)) (Rejected error)) m.
Proof.
  unfold rejections. induction 1 as [|a m [P _] _ IH]; simpl; [reflexivity|].
  rewrite P, IH. reflexivity.
Qed.

(** C9, at the input where the code departs from it.  With two unary
    requests pending and one streaming session open, stop() rejects the two
    unary callers with 'Engine stopped', empties the Map and lowers the
    ready flag, but the session, which is pending work as well, is not
    failed: its promise has no call of resolve or reject, its handler still
    listens and its timer is still armed.  A second stop(), and the exit of
    the killed worker after it, do not fail it either. *)
Theorem stop_leaves_streaming_session_open :
  let s' := step busyBridge CallStop in
  let s'' := run s' [CallStop; Exit None] in
  settlements (SendPromise "u1") s'
  = [Settle (SendPromise "u1") (Rejected (mkError "Engine stopped"))]
  /\ settlements (SendPromise "u2") s'
     = [Settle (SendPromise "u2") (Rejected (mkError "Engine stopped"))]
  /\ pending s' = []
  /\ ready s' = false
  /\ streamView "s1" s' = (1, true, [])
  /\ streamView "s1" s'' = (1, true, []).
Proof. vm_compute. repeat split; reflexivity. Qed.

(** X27.  stop() is a total function of the state: it returns on every
    bridge, also one that was never started, where it changes nothing.  It
    rejects every request of the pending Map, each once and in the order of
    the Map, with the error 'Engine stopped', outputs nothing else and
    leaves the Map empty.  A second stop() changes nothing more, and no later
    trigger of the sweep (stop, the exit of the killed worker, a transport
    error) adds a call of resolve or reject for any promise. *)
Theorem stop_idempotent (s : Bridge) :
  reachable s ->
  out (stop s)
  = (out s ++ map (fun en => Settle (SendPromise (fst en)) (Rejected stoppedError))
                  (pending s))%list
  /\ NoDup (map fst (pending s))
  /\ pending (stop s) = []
  /\ ready (stop s) = false
  /\ stop (stop s) = stop s
  /\ (forall e p, isSweep e ->
                  settlements p (step (stop s) e) = settlements p (stop s))
  /\ (forall path, stop (create path) = create path).
Proof.
  intros R. pose proof (reachable_wellFormed s R) as W.
  assert (forall s0 error, pending s0 = [] ->
                           rejectAllPending error s0 = s0) as Empty.
  { intros s0 error E. rewrite rejectAllPending_eq, E. destruct s0; simpl in *.
    subst. unfold set_pending, set_out, set_timers. simpl.
    rewrite app_nil_r. reflexivity. }
  assert (pending (stop s) = []) as PE
      by (unfold stop; rewrite rejectAllPending_eq; reflexivity).
  split; [|split; [|split; [|split; [|split; [|split]]]]].
  - unfold stop. rewrite rejectAllPending_eq. simpl.
    rewrite (rejections_wellFormed _ _ W). reflexivity.
  - apply reachable_distinct_keys. exact R.
  - exact PE.
  - unfold stop. rewrite rejectAllPending_eq. reflexivity.
  - unfold stop at 1. rewrite Empty.
    + unfold stop. rewrite rejectAllPending_eq. simpl.
      destruct (process s), (readline s); reflexivity.
    + exact PE.
  - intros e p [-> | [[code ->] | [err ->]]]; cbn [step].
    + unfold stop at 1. rewrite Empty.
      * unfold stop. rewrite rejectAllPending_eq. simpl.
        destruct (process s), (readline s); reflexivity.
      * exact PE.
    + destruct (spawned (stop s)); [|reflexivity]. unfold onExit.
      rewrite Empty by exact PE. unfold settlements, output. simpl.
      rewrite filter_app. simpl. rewrite app_nil_r. reflexivity.
    + destruct (spawned (stop s)); [|reflexivity]. unfold onError.
      destruct (errorListeners (stop s)).
      * unfold settlements, output. simpl.
        rewrite filter_app. simpl. rewrite app_nil_r. reflexivity.
      * rewrite Empty by exact PE. unfold settlements, output. simpl.
        rewrite filter_app. simpl. rewrite app_nil_r. reflexivity.
  - intros path. unfold stop. rewrite rejectAllPending_eq. reflexivity.
Qed.

Lemma stop_idempotent_witness :
  out (stop busyBridge)
  = (out busyBridge
     ++ [Settle (SendPromise "u1") (Rejected stoppedError);
         Settle (SendPromise "u2") (Rejected stoppedError)])%list
  /\ stop (stop busyBridge) = stop busyBridge.
Proof.
  assert (reachable busyBridge) as R.
  { exists "/opt/engine",
      [CallStart true; readyLine;
       CallSend "u1" "t1" [("action", VStr "index")];
       CallSend "u2" "t2" [("action", VStr "health")];
       CallSendStreaming "s1" "t3" [("action", VStr "query")]].
    vm_compute. reflexivity. }
  destruct (stop_idempotent busyBridge R) as (H1 & _ & _ & _ & H5 & _).
  split; [|exact H5].
  vm_compute in H1. vm_compute. exact H1.
Defined.

(** ** Map lookups after an insertion *)

Lemma mapGet_mapSet_same (k : string) (v : PendingRequest) m :
  mapGet k (mapSet k v m) = Some v.
Proof.
  induction m as [|[a b] m IH]; simpl.
  - rewrite String.eqb_refl. reflexivity.
  - destruct (String.eqb a k) eqn:E; simpl.
    + rewrite String.eqb_refl. reflexivity.
    + rewrite E. exact IH.
Qed.

(** ** One request, one session: the bridge as a small state machine *)

Lemma output_unary (id : string) (o : Output) (s : Bridge) :
  isSettle (SendPromise id) o = false ->
  unaryView id (output o s) = unaryView id s.
Proof.
  intros H. crush_ops. rewrite filter_app. simpl. rewrite H, app_nil_r. reflexivity.
Qed.

Lemma stdinWrite_unary (id : string) (line : value) (s : Bridge) :
  unaryView id (stdinWrite line s) = unaryView id s.
Proof.
  unfold stdinWrite. destruct (process s); [|reflexivity].
  apply output_unary. reflexivity.
Qed.

Lemma unary_step (id : string) (s : Bridge) (e : Event) :
  wellFormed s ->
  (forall ts request, e <> CallSend id ts request) ->
  unaryView id (step s e) = unaryNext id s e (unaryView id s).
Proof.
  intros W NM. destruct e; cbn [step unaryNext].
  - unfold start. destruct (negb scriptFound).
    + unfold reject. rewrite output_unary by reflexivity. reflexivity.
    + crush_ops. rewrite existsb_app. simpl. rewrite orb_false_r. reflexivity.
  - unfold send, sendWith. destruct (negb (ready s)); cbn [fst]; [reflexivity|].
    assert (id <> id0) as N by (intros E; subst id0; apply (NM ts request); reflexivity).
    rewrite stdinWrite_unary. crush_ops.
    rewrite keyCount_mapSet_other, existsb_app by exact N. simpl.
    assert (String.eqb id0 id = false) as -> by (apply String.eqb_neq; congruence).
    rewrite orb_false_r. reflexivity.
  - unfold sendStreaming, sendStreamingWith. destruct (negb (ready s)); cbn [fst]; [reflexivity|].
    rewrite stdinWrite_unary. crush_ops.
    rewrite existsb_app. simpl. rewrite orb_false_r. reflexivity.
  - unfold stop. rewrite rejectAllPending_unary by exact W. reflexivity.
  - reflexivity.
  - destruct (spawned s); [|destruct parsed; destruct (unaryView id s) as [[n a] o];
                            reflexivity].
    destruct parsed as [response|]; [|apply emitLog_unary].
    rewrite onLine_unary, (handleResponse_unary id response s W).
    unfold unaryHit, unaryView. simpl. reflexivity.
  - destruct (spawned s); [apply emitLog_unary | reflexivity].
  - destruct (spawned s); [|reflexivity]. unfold onExit.
    rewrite rejectAllPending_unary by exact W. unfold swept, unaryView.
    crush_ops. rewrite filter_app. simpl. rewrite app_nil_r. reflexivity.
  - destruct (spawned s); [|reflexivity]. unfold onError.
    destruct (errorListeners s); [apply output_unary; reflexivity|].
    rewrite rejectAllPending_unary by exact W. unfold swept, unaryView.
    crush_ops. rewrite filter_app. simpl. rewrite app_nil_r. reflexivity.
  - unfold fire. destruct (armed t s) eqn:A; simpl negb; cbv iota.
    + destruct t as [n|i|i].
      * crush_ops. rewrite armedIn_filter, filter_app. simpl.
        rewrite app_nil_r. reflexivity.
      * destruct (String.eqb i id) eqn:E.
        -- apply String.eqb_eq in E. subst i. unfold unaryView. rewrite A.
           crush_ops. rewrite keyCount_mapDelete_same, armedIn_filter, filter_app.
           simpl. rewrite String.eqb_refl. reflexivity.
        -- apply String.eqb_neq in E. unfold unaryView.
           destruct (armed (RequestTimer id) s) eqn:A'; crush_ops;
             rewrite keyCount_mapDelete_other, armedIn_filter, filter_app by congruence;
             simpl;
             (assert (String.eqb id i = false) as -> by (apply String.eqb_neq; congruence));
             (assert (String.eqb i id = false) as -> by (apply String.eqb_neq; congruence));
             simpl; rewrite app_nil_r, ?A'; reflexivity.
      * crush_ops. rewrite armedIn_filter, filter_app. simpl.
        rewrite app_nil_r. reflexivity.
    + destruct t as [n|i|i]; try reflexivity.
      unfold unaryView. destruct (String.eqb i id) eqn:E; [|reflexivity].
      apply String.eqb_eq in E. subst i. rewrite A. reflexivity.
Qed.

Lemma callListeners_other_id (id : string) (ls : list Listener) (response : value)
      (s : Bridge) :
  get response "id" <> VStr id ->
  streamView id (stateOf (callListeners ls response s)) = streamView id s.
Proof.
  intros N. revert s. induction ls as [|l ls IH]; intros s; simpl; [reflexivity|].
  assert (streamView id (stateOf (callListener l response s)) = streamView id s) as F.
  { destruct (Listener_eqb l (StreamHandler id)) eqn:E.
    - apply Listener_eqb_eq in E. subst l. simpl.
      rewrite streamHandler_other_id by exact N. reflexivity.
    - apply callListener_other_session. intros X. subst l.
      rewrite Listener_eqb_refl in E. discriminate. }
  destruct (callListener l response s) as [s1|s1]; simpl in *.
  - rewrite IH. exact F.
  - exact F.
Qed.

Lemma output_session (id : string) (o : Output) (s : Bridge) :
  isSession id o = false ->
  streamView id (output o s) = streamView id s.
Proof.
  intros H. crush_ops. rewrite filter_app. simpl. rewrite H, app_nil_r. reflexivity.
Qed.

Lemma stdinWrite_session (id : string) (line : value) (s : Bridge) :
  streamView id (stdinWrite line s) = streamView id s.
Proof.
  unfold stdinWrite. destruct (process s); [|reflexivity].
  apply output_session. reflexivity.
Qed.

Lemma stream_step (id : string) (s : Bridge) (e : Event) :
  wellFormed s ->
  listenerCount (StreamHandler id) s <= 1 ->
  (forall ts request, e <> CallSendStreaming id ts request) ->
  streamView id (step s e) = streamNext id s e (streamView id s).
Proof.
  intros W C NM. destruct e; cbn [step streamNext].
  - unfold start. destruct (negb scriptFound).
    + unfold reject. rewrite output_session by reflexivity. reflexivity.
    + crush_ops. rewrite existsb_app, filter_app, length_app. simpl.
      rewrite orb_false_r, Nat.add_0_r. reflexivity.
  - unfold send, sendWith. destruct (negb (ready s)); cbn [fst]; [reflexivity|].
    rewrite stdinWrite_session. crush_ops.
    rewrite existsb_app. simpl. rewrite orb_false_r. reflexivity.
  - unfold sendStreaming, sendStreamingWith. destruct (negb (ready s)); cbn [fst]; [reflexivity|].
    assert (id <> id0) as N by (intros E; subst id0; apply (NM ts request); reflexivity).
    assert (String.eqb id0 id = false) as E by (apply String.eqb_neq; congruence).
    rewrite stdinWrite_session. crush_ops.
    rewrite existsb_app, filter_app, length_app. simpl. rewrite E. simpl.
    rewrite orb_false_r, Nat.add_0_r. reflexivity.
  - unfold stop. rewrite rejectAllPending_session by exact W. reflexivity.
  - reflexivity.
  - destruct (spawned s); [|destruct parsed; destruct (streamView id s) as [[n a] o];
                            reflexivity].
    destruct parsed as [response|]; [|apply emitLog_session].
    rewrite onLine_session, (handleResponse_session id response s W).
    unfold emitResponse. simpl andb.
    destruct (isStr (get response "id") id) eqn:I.
    + apply isStr_eq in I.
      destruct (Nat.eqb (listenerCount (StreamHandler id) s) 1) eqn:C1.
      * apply Nat.eqb_eq in C1.
        rewrite (callListeners_hit id _ response s I C1).
        unfold streamView at 2. rewrite C1. reflexivity.
      * apply Nat.eqb_neq in C1.
        assert (listenerCount (StreamHandler id) s = 0) as C0 by lia.
        rewrite callListeners_other_session.
        -- unfold streamView. rewrite C0. reflexivity.
        -- apply (filter_length_zero_notin
                    (fun x => Listener_eqb x (StreamHandler id)));
             [exact C0 | apply Listener_eqb_refl].
    + rewrite callListeners_other_id.
      * destruct (streamView id s) as [[n a] o]. reflexivity.
      * intros X. apply isStr_eq in X. congruence.
  - destruct (spawned s); [apply emitLog_session | reflexivity].
  - destruct (spawned s); [|reflexivity]. unfold onExit.
    rewrite rejectAllPending_session by exact W.
    apply output_session. reflexivity.
  - destruct (spawned s); [|reflexivity]. unfold onError.
    destruct (errorListeners s); [apply output_session; reflexivity|].
    rewrite rejectAllPending_session by exact W.
    apply output_session. reflexivity.
  - unfold fire. destruct (armed t s) eqn:A; simpl negb; cbv iota.
    + destruct t as [n|i|i].
      * crush_ops. rewrite armedIn_filter, filter_app. simpl.
        rewrite app_nil_r. reflexivity.
      * crush_ops. rewrite armedIn_filter, filter_app. simpl.
        rewrite app_nil_r. reflexivity.
      * destruct (String.eqb i id) eqn:E.
        -- apply String.eqb_eq in E. subst i. unfold streamView. rewrite A.
           crush_ops.
           rewrite length_filter_removeLast_same, armedIn_filter, filter_app.
           simpl. rewrite String.eqb_refl. reflexivity.
        -- apply String.eqb_neq in E. unfold streamView.
           crush_ops.
           rewrite length_filter_removeLast_other, armedIn_filter, filter_app
             by congruence.
           simpl.
           assert (String.eqb id i = false) as -> by (apply String.eqb_neq; congruence).
           assert (String.eqb i id = false) as -> by (apply String.eqb_neq; congruence).
           simpl. rewrite app_nil_r. reflexivity.
    + destruct t as [n|i|i]; try reflexivity.
      unfold streamView. destruct (String.eqb i id) eqn:E; [|reflexivity].
      apply String.eqb_eq in E. subst i. rewrite A. reflexivity.
Qed.

(** ** C1: exactly-once settlement *)




























(** A response, the timeout and a sweep, in three of their orders, for a
    unary request: one settlement each time, by whichever comes first. *)
Example unary_response_first :
  settlements (SendPromise "u1")
              (run (fst (issue unaryIndex readyBridge))
                   [Line "{...}" (Some lateSuccess); Fire (RequestTimer "u1"); CallStop])
  = [Settle (SendPromise "u1") (Resolved (VNum 7))].
Proof. vm_compute. reflexivity. Qed.

Example unary_timeout_first :
  settlements (SendPromise "u1")
              (run (fst (issue unaryIndex readyBridge))
                   [Fire (RequestTimer "u1"); CallStop; Line "{...}" (Some lateSuccess)])
  = [Settle (SendPromise "u1") (Rejected timeoutError)].
Proof. vm_compute. reflexivity. Qed.

Example unary_sweep_first :
  settlements (SendPromise "u1")
              (run (fst (issue unaryIndex readyBridge))
                   [Exit None; Line "{...}" (Some lateSuccess); Fire (RequestTimer "u1")])
  = [Settle (SendPromise "u1") (Rejected (mkError "Engine exited with code null"))].
Proof. vm_compute. reflexivity. Qed.

(** * Further properties of the bridge *)

(** ** Unary requests *)

Lemma line_unary_view (id line : string) (response : value) (s : Bridge) :
  wellFormed s -> spawned s = true ->
  unaryView id (step s (Line line (Some response)))
  = if unaryHit id response s
    then (0, false,
          (settlements (SendPromise id) s ++ unaryOutcome id response)%list)
    else unaryView id s.
Proof.
  intros W SP. cbn [step]. rewrite SP.
  rewrite onLine_unary, (handleResponse_unary id response s W). reflexivity.
Qed.

Lemma keyCount_pending (id : string) (p : PendingRequest) (s : Bridge) :
  mapGet id (pending s) = Some p -> Nat.eqb (keyCount id (pending s)) 0 = false.
Proof.
  intros G. apply Nat.eqb_neq. intros Z.
  apply mapGet_None_keyCount in Z. congruence.
Qed.

(** X1.  A response of status 'success' for a pending unary request resolves
    the caller's promise once with the response's [data] as it is, removes
    the record from the Map and clears the request's timer. *)
Theorem unary_success_resolves_with_data
        (s : Bridge) (id line : string) (p : PendingRequest) (response : value) :
  reachable s ->
  mapGet id (pending s) = Some p ->
  get response "id" = VStr id ->
  get response "status" = VStr "success" ->
  unaryView id (step s (Line line (Some response)))
  = (0, false,
     (settlements (SendPromise id) s
      ++ [Settle (SendPromise id) (Resolved (get response "data"))])%list).
Proof.
  intros R G I St.
  rewrite line_unary_view;
    [|apply reachable_wellFormed; exact R
     |apply (reachable_pending_spawned s id p R G)].
  unfold unaryHit, unaryTerminal, unaryOutcome, outcomeOf, unconvertible.
  rewrite I, St, (keyCount_pending id p s G).
  simpl. rewrite String.eqb_refl. reflexivity.
Qed.

Lemma unary_success_resolves_with_data_witness :
  unaryView "u1" (step onePending (Line "{...}" (Some lateSuccess)))
  = (0, false, [Settle (SendPromise "u1") (Resolved (VNum 7))]).
Proof.
  assert (reachable onePending) as R.
  { exists "/opt/engine",
      [CallStart true; readyLine; CallSend "u1" "t1" [("action", VStr "index")]].
    vm_compute. reflexivity. }
  assert (mapGet "u1" (pending onePending)
          = Some {| promise := SendPromise "u1"; timeout := RequestTimer "u1" |}) as G
      by (vm_compute; reflexivity).
  pose proof (unary_success_resolves_with_data
                onePending "u1" "{...}" _ lateSuccess R G eq_refl eq_refl) as H.
  vm_compute in H. vm_compute. exact H.
Defined.

Lemma pending_line_miss (line : string) (response : value) (s : Bridge) :
  unaryTerminal response = false ->
  pending (step s (Line line (Some response))) = pending s.
Proof.
  intros T. cbn [step]. destruct (spawned s); [|reflexivity].
  pose proof (callListeners_frame (responseListeners s) response s) as F.
  simpl in F. destruct F as (F & _). fold (emitResponse response s) in F.
  pose proof (handleResponse_miss response s (or_intror (or_intror (or_introl T)))) as M.
  unfold onLine. destruct (handleResponse response s) as [s1|s1]; simpl in *;
    rewrite M; exact F.
Qed.

(** X2.  A message of status 'streaming' that carries the id of a pending
    unary request settles nothing: the Map is unchanged, the request's timer
    stays armed and its promise has no new call of resolve or reject, so the
    request goes on waiting for its terminal response. *)
Theorem streaming_status_ignored_for_unary
        (s : Bridge) (id line : string) (response : value) :
  reachable s ->
  get response "status" = VStr "streaming" ->
  pending (step s (Line line (Some response))) = pending s
  /\ unaryView id (step s (Line line (Some response))) = unaryView id s.
Proof.
  intros R St.
  assert (unaryTerminal response = false) as T
      by (unfold unaryTerminal; rewrite St; reflexivity).
  split; [apply pending_line_miss; exact T|].
  destruct (spawned s) eqn:SP; [|cbn [step]; rewrite SP; reflexivity].
  rewrite line_unary_view; [|apply reachable_wellFormed; exact R | exact SP].
  unfold unaryHit. rewrite T, andb_false_r. reflexivity.
Qed.

Lemma streaming_status_ignored_for_unary_witness :
  pending (step onePending (Line "{...}" (Some (tokenChunk "u1" "partial"))))
  = pending onePending
  /\ unaryView "u1" (step onePending (Line "{...}" (Some (tokenChunk "u1" "partial"))))
     = unaryView "u1" onePending.
Proof.
  apply (streaming_status_ignored_for_unary onePending "u1" "{...}"
                                            (tokenChunk "u1" "partial")).
  - exists "/opt/engine",
      [CallStart true; readyLine; CallSend "u1" "t1" [("action", VStr "index")]].
    vm_compute. reflexivity.
  - reflexivity.
Defined.

(** X3.  Two unary requests answered in the reverse of the order they were
    sent: the answer to the second resolves the second caller with its own
    data and leaves the first request as it was (still in the Map, timer
    armed, unsettled); the answer to the first then resolves the first
    caller with its own data and changes nothing for the second. *)
Theorem out_of_order_resolution
        (s : Bridge) (k1 k2 l1 l2 : string) (p1 p2 : PendingRequest)
        (r1 r2 : value) :
  reachable s ->
  k1 <> k2 ->
  mapGet k1 (pending s) = Some p1 ->
  mapGet k2 (pending s) = Some p2 ->
  get r1 "id" = VStr k1 -> get r1 "status" = VStr "success" ->
  get r2 "id" = VStr k2 -> get r2 "status" = VStr "success" ->
  let mid := step s (Line l2 (Some r2)) in
  let fin := step mid (Line l1 (Some r1)) in
  unaryView k2 mid
  = (0, false, (settlements (SendPromise k2) s
                ++ [Settle (SendPromise k2) (Resolved (get r2 "data"))])%list)
  /\ unaryView k1 mid = unaryView k1 s
  /\ unaryView k1 fin
     = (0, false, (settlements (SendPromise k1) s
                   ++ [Settle (SendPromise k1) (Resolved (get r1 "data"))])%list)
  /\ unaryView k2 fin = unaryView k2 mid.
Proof.
  intros R N G1 G2 I1 S1 I2 S2 mid fin.
  pose proof (reachable_wellFormed s R) as W.
  pose proof (reachable_pending_spawned s k1 p1 R G1) as SP.
  assert (wellFormed mid) as Wm by (apply wellFormed_step; exact W).
  assert (spawned mid = true) as SPm by (apply spawned_step; exact SP).
  assert (String.eqb k2 k1 = false) as E21 by (apply String.eqb_neq; congruence).
  assert (String.eqb k1 k2 = false) as E12 by (apply String.eqb_neq; congruence).
  assert (unaryView k1 mid = unaryView k1 s) as V1.
  { unfold mid. rewrite line_unary_view by assumption.
    unfold unaryHit. rewrite I2. simpl. rewrite E21. reflexivity. }
  assert (unaryView k2 mid
          = (0, false, (settlements (SendPromise k2) s
                        ++ [Settle (SendPromise k2) (Resolved (get r2 "data"))])%list))
    as V2.
  { unfold mid. rewrite line_unary_view by assumption.
    unfold unaryHit, unaryTerminal, unaryOutcome, outcomeOf, unconvertible.
    rewrite I2, S2, (keyCount_pending k2 p2 s G2). simpl.
    rewrite String.eqb_refl. reflexivity. }
  split; [exact V2|]. split; [exact V1|]. split.
  - unfold fin. rewrite line_unary_view by assumption.
    unfold unaryHit, unaryTerminal, unaryOutcome, outcomeOf, unconvertible.
    rewrite I1, S1. simpl.
    rewrite String.eqb_refl.
    unfold unaryView in V1. injection V1 as K A Se.
    rewrite K, (keyCount_pending k1 p1 s G1), Se. reflexivity.
  - unfold fin. rewrite line_unary_view by assumption.
    unfold unaryHit. rewrite I1. simpl. rewrite E12. reflexivity.
Qed.

Lemma out_of_order_resolution_witness :
  unaryView "u2" (step twoPending (Line "{...}" (Some (answer "u2" 2))))
  = (0, false, [Settle (SendPromise "u2") (Resolved (VNum 2))])
  /\ unaryView "u1" (step (step twoPending (Line "{...}" (Some (answer "u2" 2))))
                          (Line "{...}" (Some (answer "u1" 1))))
     = (0, false, [Settle (SendPromise "u1") (Resolved (VNum 1))]).
Proof.
  assert (reachable twoPending) as R.
  { exists "/opt/engine",
      [CallStart true; readyLine;
       CallSend "u1" "t1" [("action", VStr "index")];
       CallSend "u2" "t2" [("action", VStr "health")]].
    vm_compute. reflexivity. }
  assert (mapGet "u1" (pending twoPending)
          = Some {| promise := SendPromise "u1"; timeout := RequestTimer "u1" |}) as G1
      by (vm_compute; reflexivity).
  assert (mapGet "u2" (pending twoPending)
          = Some {| promise := SendPromise "u2"; timeout := RequestTimer "u2" |}) as G2
      by (vm_compute; reflexivity).
  assert ("u1" <> "u2") as N by discriminate.
  destruct (out_of_order_resolution
              twoPending "u1" "u2" "{...}" "{...}" _ _ (answer "u1" 1) (answer "u2" 2)
              R N G1 G2 eq_refl eq_refl eq_refl eq_refl) as (H1 & _ & H3 & _).
  split.
  - vm_compute in H1. vm_compute. exact H1.
  - vm_compute in H3. vm_compute. exact H3.
Defined.

(** X4.  When the 60 s timer of a request fires, the caller's promise is
    rejected once with 'Request timeout (60s)', the record leaves the Map,
    and no other unary request is touched. *)
Theorem request_timeout_rejects (s : Bridge) (id : string) :
  reachable s ->
  armed (RequestTimer id) s = true ->
  unaryView id (step s (Fire (RequestTimer id)))
  = (0, false,
     (settlements (SendPromise id) s
      ++ [Settle (SendPromise id) (Rejected timeoutError)])%list)
  /\ forall other, other <> id ->
       unaryView other (step s (Fire (RequestTimer id))) = unaryView other s.
Proof.
  intros R A. pose proof (reachable_wellFormed s R) as W. split.
  - rewrite unary_step by (exact W || discriminate).
    unfold unaryNext, unaryView. rewrite A, String.eqb_refl. reflexivity.
  - intros other N. rewrite unary_step by (exact W || discriminate).
    unfold unaryNext, unaryView.
    assert (String.eqb id other = false) as -> by (apply String.eqb_neq; congruence).
    reflexivity.
Qed.

Lemma request_timeout_rejects_witness :
  unaryView "u1" (step twoPending (Fire (RequestTimer "u1")))
  = (0, false, [Settle (SendPromise "u1") (Rejected timeoutError)])
  /\ unaryView "u2" (step twoPending (Fire (RequestTimer "u1")))
     = unaryView "u2" twoPending.
Proof.
  assert (reachable twoPending) as R.
  { exists "/opt/engine",
      [CallStart true; readyLine;
       CallSend "u1" "t1" [("action", VStr "index")];
       CallSend "u2" "t2" [("action", VStr "health")]].
    vm_compute. reflexivity. }
  assert (armed (RequestTimer "u1") twoPending = true) as A
      by (vm_compute; reflexivity).
  destruct (request_timeout_rejects twoPending "u1" R A) as [H1 H2].
  split.
  - vm_compute in H1. vm_compute. exact H1.
  - apply H2. discriminate.
Defined.

(** ** Streaming sessions *)

Lemma line_session_view (id line : string) (response : value) (s : Bridge) :
  wellFormed s -> spawned s = true ->
  listenerCount (StreamHandler id) s = 1 ->
  get response "id" = VStr id ->
  streamView id (step s (Line line (Some response)))
  = afterResponse id response (streamView id s).
Proof.
  intros W SP C I.
  rewrite stream_step by (exact W || lia || discriminate).
  unfold streamNext, streamView. rewrite SP, I, C. simpl.
  rewrite String.eqb_refl. reflexivity.
Qed.

(** ** C10: registration comes before the write *)

Lemma issueWith_during (during : Bridge -> Bridge) (r : Request) (s : Bridge) :
  ready s = true ->
  issueWith (fun line b => during (stdinWrite line b)) r s
  = (during (fst (issue r s)), Awaits (promiseOf (kind r) (rid r))).
Proof.
  intros R. unfold issueWith, issue, send, sendStreaming, sendWith, sendStreamingWith.
  rewrite R. destruct (kind r); reflexivity.
Qed.

Lemma issue_registered (r : Request) (s : Bridge) :
  ready s = true -> registered r (fst (issue r s)).
Proof.
  intros R. unfold issue, registered, send, sendWith, sendStreaming, sendStreamingWith. rewrite R.
  destruct (kind r); simpl negb; cbv iota; cbn [fst].
  - unfold armed. rewrite stdinWrite_timers, stdinWrite_pending. simpl.
    rewrite existsb_app. simpl. rewrite String.eqb_refl, orb_true_r.
    rewrite mapGet_mapSet_same. split; reflexivity.
  - unfold armed. rewrite stdinWrite_timers, stdinWrite_listeners. simpl.
    rewrite existsb_app. simpl. rewrite String.eqb_refl, orb_true_r.
    split; [reflexivity|]. apply in_or_app. right. left. reflexivity.
Qed.

(** The view of a request whose id was not registered, after its call. *)
Lemma issue_view (r : Request) (s : Bridge) :
  ready s = true -> fst (fst (viewOf r s)) = 0 ->
  viewOf r (fst (issue r s)) = (1, true, snd (viewOf r s)).
Proof.
  intros R Z. unfold viewOf, issue, send, sendWith, sendStreaming, sendStreamingWith in *. rewrite R.
  destruct (kind r); simpl negb; cbv iota; cbn [fst].
  - rewrite stdinWrite_unary. unfold unaryView in *. simpl in Z. crush_ops.
    rewrite keyCount_mapSet_new, existsb_app by exact Z. simpl.
    rewrite String.eqb_refl, orb_true_r. reflexivity.
  - rewrite stdinWrite_session. unfold streamView in *. simpl in Z. crush_ops.
    rewrite filter_app, length_app, existsb_app, Z. simpl.
    rewrite String.eqb_refl, orb_true_r. reflexivity.
Qed.

(** C10.  A call of send or sendStreaming on a ready bridge has armed its
    timer and registered its pending record (for send) or its response
    handler (for sendStreaming) when it writes the request line, and does
    nothing after the write: however the write is carried out, the callbacks
    of the bridge that run during it find the bridge as the finished call
    leaves it, the registration in place.  So the earliest response there
    can be, one that arrives while the line is being written, is not lost:
    a 'success' response with the id of the request, an id not registered
    before the call, reaches the caller. *)
Theorem registered_before_write (r : Request) (s : Bridge) :
  reachable s ->
  ready s = true ->
  registered r (fst (issue r s))
  /\ (forall during : Bridge -> Bridge,
        issueWith (fun line b => during (stdinWrite line b)) r s
        = (during (fst (issue r s)), Awaits (promiseOf (kind r) (rid r))))
  /\ (forall (line : string) (response : value),
        fst (fst (viewOf r s)) = 0 ->
        get response "id" = VStr (rid r) ->
        get response "status" = VStr "success" ->
        viewOf r (fst (issueWith
                         (fun l b => step (stdinWrite l b) (Line line (Some response)))
                         r s))
        = (0, false, (snd (viewOf r s) ++ answerTo r response)%list)).
Proof.
  intros RS R.
  split; [apply issue_registered; exact R|].
  split; [intros during; apply issueWith_during; exact R|].
  intros line response Z I St.
  rewrite (issueWith_during (fun b => step b (Line line (Some response))) r s R).
  cbn [fst].
  pose proof (reachable_wellFormed s RS) as W.
  pose proof (reachable_ready_spawned s RS R) as SP.
  assert (wellFormed (fst (issue r s))) as W1.
  { rewrite <- step_callOf. apply wellFormed_step. exact W. }
  assert (spawned (fst (issue r s)) = true) as SP1.
  { rewrite <- step_callOf. apply spawned_step. exact SP. }
  pose proof (issue_view r s R Z) as V.
  unfold viewOf, answerTo in *. destruct (kind r).
  - rewrite line_unary_view by assumption.
    unfold unaryHit, unaryTerminal, unaryOutcome, outcomeOf, unconvertible.
    rewrite I, St.
    change (keyCount (rid r) (pending (fst (issue r s))))
      with (fst (fst (unaryView (rid r) (fst (issue r s))))).
    change (settlements (SendPromise (rid r)) (fst (issue r s)))
      with (snd (unaryView (rid r) (fst (issue r s)))).
    rewrite V. simpl. rewrite String.eqb_refl. reflexivity.
  - assert (listenerCount (StreamHandler (rid r)) (fst (issue r s)) = 1) as C.
    { change (fst (fst (streamView (rid r) (fst (issue r s)))) = 1).
      rewrite V. reflexivity. }
    rewrite (line_session_view (rid r) line response _ W1 SP1 C I).
    rewrite V. unfold afterResponse, streamTerminal, sessionEmits, doneChunk.
    rewrite St. reflexivity.
Qed.

(** The response to a streaming query arrives while the request line is
    being written: the session gets its chunk and ends. *)
Lemma registered_before_write_witness :
  sessionOutput "s1"
    (fst (issueWith (fun l b => step (stdinWrite l b) (Line "{...}" (Some wholeAnswer)))
                    {| kind := Streaming; rid := "s1"; rts := "t1";
                       body := [("action", VStr "query")] |}
                    readyBridge))
  = [Chunk "s1" (doneChunk (VStr "forty-two"));
     Settle (StreamPromise "s1") (Resolved VUndefined)].
Proof.
  assert (reachable readyBridge) as RS.
  { exists "/opt/engine", [CallStart true; readyLine]. vm_compute. reflexivity. }
  assert (ready readyBridge = true) as R by (vm_compute; reflexivity).
  destruct (registered_before_write
              {| kind := Streaming; rid := "s1"; rts := "t1";
                 body := [("action", VStr "query")] |} readyBridge RS R)
    as (_ & _ & H).
  specialize (H "{...}" wholeAnswer eq_refl eq_refl eq_refl).
  apply (f_equal snd) in H. vm_compute in H. vm_compute. exact H.
Defined.

(** An error response whose message [new Error] can take, for an open
    session. *)
Lemma error_line_session (s : Bridge) (id line m : string) (response : value) :
  reachable s ->
  listenerCount (StreamHandler id) s = 1 ->
  get response "id" = VStr id ->
  get response "status" = VStr "error" ->
  errorMessage response = Some m ->
  streamView id (step s (Line line (Some response)))
  = (0, false,
     (sessionOutput id s
      ++ [Settle (StreamPromise id) (Rejected (mkError m))])%list).
Proof.
  intros R C I St M.
  rewrite line_session_view;
    [|apply reachable_wellFormed; exact R
     |apply (reachable_listening_spawned s (StreamHandler id) R); lia
     |exact C | exact I].
  unfold afterResponse, streamView, streamTerminal, sessionEmits, rejectionOf.
  rewrite St, C, M. reflexivity.
Qed.

(** X5.  A message of status 'error' for an open session rejects the
    session's promise once: with [new Error] of the worker's
    [error.message] as it is when that is a non-empty string, with
    [new Error('Unknown error')] when it is missing or otherwise falsy.  The
    sink receives no chunk, the handler is removed and the session's timer
    cleared. *)
Theorem stream_error_rejects (s : Bridge) (id line : string) (response : value) :
  reachable s ->
  listenerCount (StreamHandler id) s = 1 ->
  get response "id" = VStr id ->
  get response "status" = VStr "error" ->
  (forall m, get (get response "error") "message" = VStr m -> m <> "" ->
             streamView id (step s (Line line (Some response)))
             = (0, false,
                (sessionOutput id s
                 ++ [Settle (StreamPromise id) (Rejected (mkError m))])%list))
  /\ (truthy (optGet (get response "error") "message") = false ->
      streamView id (step s (Line line (Some response)))
      = (0, false,
         (sessionOutput id s
          ++ [Settle (StreamPromise id)
                     (Rejected (mkError "Unknown error"))])%list)).
Proof.
  intros R C I St. split.
  - intros m M NE. apply (error_line_session s id line m response R C I St).
    apply errorMessage_string; assumption.
  - intros F. apply (error_line_session s id line _ response R C I St).
    apply errorMessage_falsy. exact F.
Qed.

Lemma stream_error_rejects_witness :
  streamView "s1"
             (step openSession
                   (Line "{...}"
                         (Some (VObj [("id", VStr "s1"); ("status", VStr "error");
                                      ("error", VObj [("message", VStr "no index")])]))))
  = (0, false, [Settle (StreamPromise "s1") (Rejected (mkError "no index"))]).
Proof.
  assert (reachable openSession) as R.
  { exists "/opt/engine",
      [CallStart true; readyLine;
       CallSendStreaming "s1" "t1" [("action", VStr "query")]].
    vm_compute. reflexivity. }
  assert (listenerCount (StreamHandler "s1") openSession = 1) as C
      by (vm_compute; reflexivity).
  assert ("no index" <> "") as NE by discriminate.
  pose proof (proj1 (stream_error_rejects
                       openSession "s1" "{...}"
                       (VObj [("id", VStr "s1"); ("status", VStr "error");
                              ("error", VObj [("message", VStr "no index")])])
                       R C eq_refl eq_refl) "no index" eq_refl NE) as H.
  vm_compute in H. vm_compute. exact H.
Defined.

(** X6.  When the 300 s timer of an open session fires, the session's
    promise is rejected once with 'Streaming timeout (300s)' and its handler
    is removed; the chunks delivered before stay delivered. *)
Theorem stream_timeout_rejects (s : Bridge) (id : string) :
  reachable s ->
  listenerCount (StreamHandler id) s = 1 ->
  armed (StreamTimer id) s = true ->
  streamView id (step s (Fire (StreamTimer id)))
  = (0, false,
     (sessionOutput id s
      ++ [Settle (StreamPromise id) (Rejected streamTimeoutError)])%list).
Proof.
  intros R C A.
  rewrite stream_step by (apply reachable_wellFormed; exact R) || lia || discriminate.
  unfold streamNext, streamView. rewrite A, C, String.eqb_refl. reflexivity.
Qed.

Lemma stream_timeout_rejects_witness :
  streamView "s1" (step openSession (Fire (StreamTimer "s1")))
  = (0, false, [Settle (StreamPromise "s1") (Rejected streamTimeoutError)]).
Proof.
  assert (reachable openSession) as R.
  { exists "/opt/engine",
      [CallStart true; readyLine;
       CallSendStreaming "s1" "t1" [("action", VStr "query")]].
    vm_compute. reflexivity. }
  assert (listenerCount (StreamHandler "s1") openSession = 1) as C
      by (vm_compute; reflexivity).
  assert (armed (StreamTimer "s1") openSession = true) as A
      by (vm_compute; reflexivity).
  pose proof (stream_timeout_rejects openSession "s1" R C A) as H.
  vm_compute in H. vm_compute. exact H.
Defined.

Lemma partialChunk_spec (id : string) (response : value) :
  partialChunk id response = true ->
  get response "id" = VStr id
  /\ streamTerminal response = false
  /\ sessionEmits id response = [Chunk id (get response "data")].
Proof.
  unfold partialChunk, streamTerminal, sessionEmits. intros H.
  apply andb_prop in H. destruct H as [H D].
  apply andb_prop in H. destruct H as [I S].
  apply negb_true_iff in D. rewrite S, D.
  assert (isStr (get response "status") "error" = false) as ->
      by (apply isStr_excl with (a := "streaming"); [discriminate | exact S]).
  assert (isStr (get response "status") "success" = false) as ->
      by (apply isStr_excl with (a := "streaming"); [discriminate | exact S]).
  apply isStr_eq in I. split; [exact I | split; reflexivity].
Qed.

Lemma finalChunk_spec (id : string) (response : value) :
  finalChunk id response = true ->
  get response "id" = VStr id
  /\ streamTerminal response = true
  /\ sessionEmits id response
     = [Chunk id (get response "data");
        Settle (StreamPromise id) (Resolved VUndefined)].
Proof.
  unfold finalChunk, streamTerminal, sessionEmits. intros H.
  apply andb_prop in H. destruct H as [H D].
  apply andb_prop in H. destruct H as [I S].
  rewrite S, D. apply isStr_eq in I. split; [exact I | split; reflexivity].
Qed.

Lemma partial_chunks_delivered (id : string) (chunks : list (string * value))
      (s : Bridge) :
  wellFormed s -> spawned s = true ->
  listenerCount (StreamHandler id) s = 1 ->
  forallb (fun lr => partialChunk id (snd lr)) chunks = true ->
  let s' := run s (map lineOf chunks) in
  wellFormed s' /\ spawned s' = true
  /\ streamView id s'
     = (1, armed (StreamTimer id) s,
        (sessionOutput id s
         ++ map (fun lr => Chunk id (get (snd lr) "data")) chunks)%list).
Proof.
  revert s. induction chunks as [|[l r] chunks IH]; intros s W SP C F.
  - simpl. repeat split; try assumption. unfold streamView. rewrite C, app_nil_r.
    reflexivity.
  - simpl in F. apply andb_prop in F. destruct F as [P F].
    destruct (partialChunk_spec id r P) as (I & T & E).
    pose proof (line_session_view id l r s W SP C I) as V.
    unfold afterResponse in V. unfold streamView at 2 in V. rewrite T, E, C in V.
    change (run s (map lineOf ((l, r) :: chunks)))
      with (run (step s (Line l (Some r))) (map lineOf chunks)).
    set (s1 := step s (Line l (Some r))) in *.
    assert (listenerCount (StreamHandler id) s1 = 1) as C'
        by (change (fst (fst (streamView id s1)) = 1); rewrite V; reflexivity).
    assert (armed (StreamTimer id) s1 = armed (StreamTimer id) s) as A'
        by (change (snd (fst (streamView id s1)) = armed (StreamTimer id) s);
            rewrite V; reflexivity).
    assert (sessionOutput id s1
            = (sessionOutput id s ++ [Chunk id (get r "data")])%list) as O'
        by (change (snd (streamView id s1)
                    = (sessionOutput id s ++ [Chunk id (get r "data")])%list);
            rewrite V; reflexivity).
    destruct (IH s1 (wellFormed_step s _ W) (spawned_step s _ SP) C' F)
      as (W' & SP' & V').
    split; [exact W'|]. split; [exact SP'|].
    rewrite V', A', O'. cbn [map snd]. rewrite <- app_assoc. reflexivity.
Qed.

(** X7.  Chunks of one session are handed to its sink in the order of the
    worker's lines, each with its [data] as it is, and the promise is
    resolved only after the chunk of type 'done': after any number of
    partial chunks and then the final one, the session's output is its
    earlier output, then the chunks in order, then the resolve; the handler
    is gone and the timer cleared. *)
Theorem chunks_delivered_in_order
        (s : Bridge) (id : string) (chunks : list (string * value))
        (final : string * value) :
  reachable s ->
  listenerCount (StreamHandler id) s = 1 ->
  forallb (fun lr => partialChunk id (snd lr)) chunks = true ->
  finalChunk id (snd final) = true ->
  streamView id (run s (map lineOf (chunks ++ [final])))
  = (0, false,
     (sessionOutput id s
      ++ map (fun lr => Chunk id (get (snd lr) "data")) (chunks ++ [final])
      ++ [Settle (StreamPromise id) (Resolved VUndefined)])%list).
Proof.
  intros R C P F.
  pose proof (reachable_wellFormed s R) as W.
  assert (spawned s = true) as SP
      by (apply (reachable_listening_spawned s (StreamHandler id) R); lia).
  destruct (partial_chunks_delivered id chunks s W SP C P) as (W' & SP' & V').
  destruct (finalChunk_spec id (snd final) F) as (I & T & E).
  rewrite map_app, run_app.
  assert (listenerCount (StreamHandler id) (run s (map lineOf chunks)) = 1) as C'
      by (change (fst (fst (streamView id (run s (map lineOf chunks)))) = 1);
          rewrite V'; reflexivity).
  change (run (run s (map lineOf chunks)) (map lineOf [final]))
    with (step (run s (map lineOf chunks)) (Line (fst final) (Some (snd final)))).
  rewrite (line_session_view id (fst final) (snd final) _ W' SP' C' I).
  rewrite V'. unfold afterResponse. rewrite T, E.
  rewrite map_app. simpl. rewrite <- !app_assoc. reflexivity.
Qed.

Lemma chunks_delivered_in_order_witness :
  streamView "s1"
             (run openSession
                  (map lineOf ([("{a}", tokenChunk "s1" "Hello");
                                ("{b}", tokenChunk "s1" " world")]
                               ++ [("{c}", lastChunk "s1")])))
  = (0, false,
     [Chunk "s1" (VObj [("type", VStr "token"); ("content", VStr "Hello")]);
      Chunk "s1" (VObj [("type", VStr "token"); ("content", VStr " world")]);
      Chunk "s1" (VObj [("type", VStr "done")]);
      Settle (StreamPromise "s1") (Resolved VUndefined)]).
Proof.
  assert (reachable openSession) as R.
  { exists "/opt/engine",
      [CallStart true; readyLine;
       CallSendStreaming "s1" "t1" [("action", VStr "query")]].
    vm_compute. reflexivity. }
  assert (listenerCount (StreamHandler "s1") openSession = 1) as C
      by (vm_compute; reflexivity).
  pose proof (chunks_delivered_in_order
                openSession "s1"
                [("{a}", tokenChunk "s1" "Hello"); ("{b}", tokenChunk "s1" " world")]
                ("{c}", lastChunk "s1") R C eq_refl eq_refl) as H.
  vm_compute in H. vm_compute. exact H.
Defined.

(** X8.  A line reaches a session only through its registered handler and
    only when it carries the session's id: for a session whose handler is
    not registered (closed, or never opened), and for any line with another
    id or none, the session's handler count, timer and output are
    unchanged. *)
Theorem no_delivery_to_other_or_closed_session
        (s : Bridge) (id line : string) (parsed : option value) :
  reachable s ->
  listenerCount (StreamHandler id) s = 0
  \/ (forall response, parsed = Some response -> get response "id" <> VStr id) ->
  streamView id (step s (Line line parsed)) = streamView id s.
Proof.
  intros R H. pose proof (reachable_wellFormed s R) as W.
  cbn [step]. destruct (spawned s); [|reflexivity].
  destruct parsed as [response|]; [|apply emitLog_session].
  rewrite onLine_session, (handleResponse_session id response s W).
  unfold emitResponse. destruct H as [C | N].
  - apply callListeners_other_session.
    apply (filter_length_zero_notin (fun x => Listener_eqb x (StreamHandler id)));
      [exact C | apply Listener_eqb_refl].
  - apply callListeners_other_id. apply N. reflexivity.
Qed.

Lemma no_delivery_to_other_or_closed_session_witness :
  streamView "s1" (step openSession (Line "{...}" (Some (tokenChunk "s2" "stray"))))
  = streamView "s1" openSession.
Proof.
  apply (no_delivery_to_other_or_closed_session
           openSession "s1" "{...}" (Some (tokenChunk "s2" "stray"))).
  - exists "/opt/engine",
      [CallStart true; readyLine;
       CallSendStreaming "s1" "t1" [("action", VStr "query")]].
    vm_compute. reflexivity.
  - right. intros response E. injection E as <-. vm_compute. discriminate.
Defined.

(** ** What is written to the worker *)

Lemma lookup_assign (k k' : string) (v : value) (fields : list (string * value)) :
  lookup k (assign k' v fields)
  = if String.eqb k k' then Some v else lookup k fields.
Proof.
  induction fields as [|[a b] fields IH]; simpl.
  - destruct (String.eqb k k'); reflexivity.
  - destruct (String.eqb k' a) eqn:E; simpl.
    + apply String.eqb_eq in E. subst a.
      destruct (String.eqb k k'); reflexivity.
    + rewrite IH. destruct (String.eqb k k') eqn:K; [|reflexivity].
      apply String.eqb_eq in K. subst k'. rewrite E. reflexivity.
Qed.

(** X9.  The object written for a request always carries the id drawn for
    the call and the call's timestamp, whatever the caller's request holds
    under the keys 'id' and 'timestamp'; every other key of the request is
    passed on unchanged. *)
Theorem outbound_carries_id_and_timestamp
        (request : list (string * value)) (id ts : string) :
  get (outbound request id ts) "id" = VStr id
  /\ get (outbound request id ts) "timestamp" = VStr ts
  /\ forall k, k <> "id" -> k <> "timestamp" ->
               get (outbound request id ts) k = get (VObj request) k.
Proof.
  unfold outbound, get. rewrite !lookup_assign. simpl.
  split; [reflexivity|]. split; [reflexivity|].
  intros k N1 N2. rewrite !lookup_assign.
  apply String.eqb_neq in N1. apply String.eqb_neq in N2.
  rewrite N1, N2. reflexivity.
Qed.

Lemma written_output (o : Output) (s : Bridge) :
  written (output o s)
  = (written s ++ match o with Write l => [l] | _ => [] end)%list.
Proof. unfold written, output. simpl. rewrite flat_map_app. simpl.
       destruct o; simpl; rewrite ?app_nil_r; reflexivity. Qed.

Lemma written_rejections (error : JsError) (m : list (string * PendingRequest)) :
  flat_map (fun o => match o with Write l => [l] | _ => [] end) (rejections error m)
  = [].
Proof. induction m as [|a m IH]; simpl; [reflexivity | exact IH]. Qed.

Lemma written_rejectAllPending (error : JsError) (s : Bridge) :
  written (rejectAllPending error s) = written s.
Proof.
  rewrite rejectAllPending_eq. unfold written. simpl.
  rewrite flat_map_app, written_rejections, app_nil_r. reflexivity.
Qed.

Lemma written_handleResponse (response : value) (s : Bridge) :
  written (stateOf (handleResponse response s)) = written s.
Proof.
  pose proof (callListeners_frame (responseListeners s) response s) as F.
  simpl in F. destruct F as (_ & _ & _ & _ & _ & F).
  fold (emitResponse response s) in F.
  destruct (nullish response) eqn:NN;
    [rewrite handleResponse_miss by auto; exact F|].
  destruct (unaryTerminal response) eqn:T;
    [|rewrite handleResponse_miss by auto; exact F].
  destruct (pendingGet_cases (get response "id") s) as [N | (k & p & I & G)];
    [rewrite handleResponse_miss by auto; exact F|].
  destruct (unconvertible response && listening k s) eqn:C;
    [destruct (emitResponse_throws response k s I C) as [s2 E2];
     rewrite handleResponse_miss by (right; right; right; exists s2; exact E2);
     exact F|].
  destruct (handleResponse_hit response k p s I G T C) as (s1 & E & ->).
  rewrite E in F. simpl in F.
  assert (flat_map (fun o => match o with Write l => [l] | _ => [] end)
                   (outcomeOf (promise p) response) = []) as O.
  { unfold outcomeOf, rejectionOf.
    destruct (isStr (get response "status") "error");
      [destruct (errorMessage response)|]; reflexivity. }
  unfold written, outputs in *. simpl. rewrite flat_map_app, O, app_nil_r. exact F.
Qed.

Lemma written_step (s : Bridge) (e : Event) :
  reachable s ->
  written (step s e) = (written s ++ writes s e)%list.
Proof.
  intros R. destruct e; cbn [step writes]; rewrite ?app_nil_r.
  - unfold start. destruct (negb scriptFound); [|reflexivity].
    unfold reject. rewrite written_output, app_nil_r. reflexivity.
  - unfold send, sendWith. destruct (ready s) eqn:RD; simpl; [|rewrite app_nil_r; reflexivity].
    pose proof (reachable_ready_spawned s R RD) as SP. unfold spawned in SP.
    unfold stdinWrite. simpl. destruct (process s); [|discriminate].
    rewrite written_output. reflexivity.
  - unfold sendStreaming, sendStreamingWith. destruct (ready s) eqn:RD; simpl;
      [|rewrite app_nil_r; reflexivity].
    pose proof (reachable_ready_spawned s R RD) as SP. unfold spawned in SP.
    unfold stdinWrite. simpl. destruct (process s); [|discriminate].
    rewrite written_output. reflexivity.
  - unfold stop. rewrite written_rejectAllPending. reflexivity.
  - reflexivity.
  - destruct (spawned s); [|reflexivity]. unfold onLine.
    destruct parsed as [response|].
    + pose proof (written_handleResponse response s) as H.
      destruct (handleResponse response s); simpl in H; [exact H|].
      unfold emitLog. rewrite written_output, app_nil_r. exact H.
    + unfold emitLog. rewrite written_output, app_nil_r. reflexivity.
  - destruct (spawned s); [|reflexivity].
    unfold onStderr, emitLog. rewrite written_output, app_nil_r. reflexivity.
  - destruct (spawned s); [|reflexivity]. unfold onExit.
    rewrite written_rejectAllPending, written_output, app_nil_r. reflexivity.
  - destruct (spawned s); [|reflexivity]. unfold onError.
    destruct (errorListeners s).
    + rewrite written_output, app_nil_r. reflexivity.
    + rewrite written_rejectAllPending, written_output, app_nil_r. reflexivity.
  - unfold fire. destruct (negb (armed t s)); [reflexivity|].
    destruct t; unfold reject; rewrite written_output, app_nil_r; reflexivity.
Qed.

(** X10.  The bridge writes to its worker only in a call of send or
    sendStreaming on a ready bridge, and then exactly the one line of that
    request, after everything written before; no response, timer, sweep,
    stop or start ever writes, and what was written is never changed. *)
Theorem one_line_per_accepted_call (s : Bridge) (e : Event) :
  reachable s ->
  written (step s e) = (written s ++ writes s e)%list.
Proof. apply written_step. Qed.

Lemma one_line_per_accepted_call_witness :
  written (step twoPending (CallSendStreaming "s1" "t3" [("action", VStr "query")]))
  = (written twoPending ++ [outbound [("action", VStr "query")] "s1" "t3"])%list
  /\ written (step twoPending (Exit None)) = written twoPending.
Proof.
  assert (reachable twoPending) as R.
  { exists "/opt/engine",
      [CallStart true; readyLine;
       CallSend "u1" "t1" [("action", VStr "index")];
       CallSend "u2" "t2" [("action", VStr "health")]].
    vm_compute. reflexivity. }
  pose proof (one_line_per_accepted_call
                twoPending (CallSendStreaming "s1" "t3" [("action", VStr "query")]) R)
    as H1.
  pose proof (one_line_per_accepted_call twoPending (Exit None) R) as H2.
  split.
  - vm_compute in H1. vm_compute. exact H1.
  - vm_compute in H2. vm_compute. exact H2.
Defined.

(** ** The ready flag *)

Lemma callListener_raises (l : Listener) (response : value) (s : Bridge) :
  ready (stateOf (callListener l response s)) = true ->
  ready s = true
  \/ (get response "id" = VStr "ready" /\ exists n, l = ReadyHandler n).
Proof.
  destruct l as [n|sid]; simpl.
  - unfold readyHandler. destruct (nullish response); [auto|].
    destruct (isStr (get response "id") "ready") eqn:E; [|auto].
    intros _. right. apply isStr_eq in E. split; [exact E | exists n; reflexivity].
  - intros H. left. rewrite <- (proj1 (streamHandler_gate sid response s)). exact H.
Qed.

Lemma callListeners_raises (ls : list Listener) (response : value) (s : Bridge) :
  ready (stateOf (callListeners ls response s)) = true ->
  ready s = true
  \/ (get response "id" = VStr "ready" /\ exists n, In (ReadyHandler n) ls).
Proof.
  revert s. induction ls as [|l ls IH]; intros s; simpl; [auto|].
  pose proof (callListener_raises l response s) as H.
  destruct (callListener l response s) as [s1|s1]; simpl in *.
  - intros X. destruct (IH s1 X) as [Y | (I & n & Hn)].
    + destruct (H Y) as [Z | (I & n & ->)]; [left; exact Z|].
      right. split; [exact I | exists n; left; reflexivity].
    + right. split; [exact I | exists n; right; exact Hn].
  - intros X. destruct (H X) as [Z | (I & n & ->)]; [left; exact Z|].
    right. split; [exact I | exists n; left; reflexivity].
Qed.

Lemma ready_handleResponse (response : value) (s : Bridge) :
  ready (stateOf (handleResponse response s))
  = ready (stateOf (emitResponse response s)).
Proof.
  unfold handleResponse.
  destruct (emitResponse response s) as [s1|s1]; simpl; [|reflexivity].
  destruct (nullish response); simpl; [reflexivity|].
  destruct (pendingGet (get response "id") s1); simpl; [|reflexivity].
  destruct (negb (isStr (get response "status") "streaming")); simpl; [|reflexivity].
  destruct (isStr (get response "status") "error"); simpl;
    [destruct (errorMessage response); simpl|];
    destruct (get response "id"); reflexivity.
Qed.

(** X11.  The ready flag is raised by nothing but the handler of
    waitForReady: if a callback takes the bridge from not ready to ready,
    that callback is a line of the worker that parses to a message with id
    'ready', received while a handler of waitForReady is registered. *)
Theorem ready_only_by_handshake (s : Bridge) (e : Event) :
  ready s = false ->
  ready (step s e) = true ->
  exists line response n,
    e = Line line (Some response)
    /\ get response "id" = VStr "ready"
    /\ In (ReadyHandler n) (responseListeners s)
    /\ spawned s = true.
Proof.
  intros R H. destruct e; cbn [step] in H.
  - unfold start in H. destruct (negb scriptFound); simpl in H; congruence.
  - unfold send, sendWith in H. rewrite R in H. simpl in H. congruence.
  - unfold sendStreaming, sendStreamingWith in H. rewrite R in H. simpl in H. congruence.
  - unfold stop in H. rewrite rejectAllPending_eq in H. simpl in H. discriminate.
  - simpl in H. congruence.
  - destruct (spawned s) eqn:SP; [|congruence]. unfold onLine in H.
    destruct parsed as [response|]; [|simpl in H; congruence].
    assert (ready (stateOf (handleResponse response s)) = true) as H'
        by (destruct (handleResponse response s); simpl in *; exact H).
    rewrite ready_handleResponse in H'. unfold emitResponse in H'.
    destruct (callListeners_raises _ _ _ H') as [X | (I & n & Hn)]; [congruence|].
    exists line, response, n. repeat split; assumption.
  - destruct (spawned s); simpl in H; congruence.
  - destruct (spawned s); [|congruence]. unfold onExit in H.
    rewrite rejectAllPending_eq in H. simpl in H. congruence.
  - destruct (spawned s); [|congruence]. unfold onError in H.
    destruct (errorListeners s); [simpl in H; congruence|].
    rewrite rejectAllPending_eq in H. simpl in H. congruence.
  - unfold fire in H. destruct (negb (armed t s)); [congruence|].
    destruct t; simpl in H; congruence.
Qed.

Lemma ready_only_by_handshake_witness :
  exists line response n,
    readyLine = Line line (Some response)
    /\ get response "id" = VStr "ready"
    /\ In (ReadyHandler n) (responseListeners awaitingReady)
    /\ spawned awaitingReady = true.
Proof.
  apply (ready_only_by_handshake awaitingReady readyLine).
  - vm_compute. reflexivity.
  - vm_compute. reflexivity.
Defined.

(** ** The sweep at the worker's exit and at a transport error *)

(** X12.  At the exit of the worker the bridge emits 'exit' and then rejects
    every request of the pending Map, each once and in the order of the Map,
    with 'Engine exited with code <code>' ('null' for a worker killed by a
    signal), and empties the Map.  The ready flag is not lowered: a bridge
    that was ready goes on accepting calls of send and sendStreaming. *)
Theorem exit_rejects_pending_and_stays_ready
        (s : Bridge) (code : option Z) (r : Request) :
  reachable s ->
  spawned s = true ->
  let s' := step s (Exit code) in
  out s'
  = (out s ++ Emit (EmExit code)
           :: map (fun en => Settle (SendPromise (fst en)) (Rejected (exitError code)))
                  (pending s))%list
  /\ pending s' = []
  /\ ready s' = ready s
  /\ (ready s = true ->
      snd (issue r s') = Awaits (promiseOf (kind r) (rid r))).
Proof.
  intros R SP s'. subst s'. cbn [step]. rewrite SP. unfold onExit.
  rewrite rejectAllPending_eq.
  assert (wellFormed (output (Emit (EmExit code)) s)) as W
      by (apply (reachable_wellFormed s R)).
  split; [|split; [|split]].
  - simpl. rewrite (rejections_wellFormed _ _ (reachable_wellFormed s R)).
    rewrite <- app_assoc. reflexivity.
  - reflexivity.
  - reflexivity.
  - intros RD. unfold issue, send, sendWith, sendStreaming, sendStreamingWith. simpl. rewrite RD.
    destruct (kind r); reflexivity.
Qed.

Lemma exit_rejects_pending_and_stays_ready_witness :
  out (step twoPending (Exit None))
  = (out twoPending
     ++ [Emit (EmExit None);
         Settle (SendPromise "u1") (Rejected (mkError "Engine exited with code null"));
         Settle (SendPromise "u2") (Rejected (mkError "Engine exited with code null"))])%list
  /\ snd (issue unaryIndex (step twoPending (Exit None))) = Awaits (SendPromise "u1").
Proof.
  assert (reachable twoPending) as R.
  { exists "/opt/engine",
      [CallStart true; readyLine;
       CallSend "u1" "t1" [("action", VStr "index")];
       CallSend "u2" "t2" [("action", VStr "health")]].
    vm_compute. reflexivity. }
  assert (spawned twoPending = true) as SP by (vm_compute; reflexivity).
  destruct (exit_rejects_pending_and_stays_ready twoPending None unaryIndex R SP)
    as (H1 & _ & _ & H4).
  split.
  - vm_compute in H1. vm_compute. exact H1.
  - apply H4. vm_compute. reflexivity.
Defined.

(** X13.  At a transport error of the worker: when the caller has attached a
    listener for 'error', the bridge emits 'error' and rejects every request
    of the pending Map with that very error, once each, and empties the Map;
    when no listener is attached, the error is thrown out of the event
    handler and the bridge is left as it was, every request still pending. *)
Theorem transport_error_sweep (s : Bridge) (err : JsError) :
  reachable s ->
  spawned s = true ->
  let s' := step s (Error err) in
  (errorListeners s = 0 ->
   out s' = (out s ++ [Uncaught err])%list /\ pending s' = pending s
   /\ timers s' = timers s)
  /\ (0 < errorListeners s ->
      out s'
      = (out s ++ Emit (EmError err)
               :: map (fun en => Settle (SendPromise (fst en)) (Rejected err))
                      (pending s))%list
      /\ pending s' = []).
Proof.
  intros R SP s'. subst s'. cbn [step]. rewrite SP. unfold onError. split.
  - intros Z. rewrite Z. repeat split; reflexivity.
  - intros P. destruct (errorListeners s); [lia|].
    rewrite rejectAllPending_eq. split; [|reflexivity]. simpl.
    rewrite (rejections_wellFormed _ _ (reachable_wellFormed s R)).
    rewrite <- app_assoc. reflexivity.
Qed.

Lemma transport_error_sweep_witness :
  out (step (step twoPending CallOnError) (Error (mkError "write EPIPE")))
  = (out twoPending
     ++ [Emit (EmError (mkError "write EPIPE"));
         Settle (SendPromise "u1") (Rejected (mkError "write EPIPE"));
         Settle (SendPromise "u2") (Rejected (mkError "write EPIPE"))])%list.
Proof.
  assert (reachable (step twoPending CallOnError)) as R.
  { exists "/opt/engine",
      [CallStart true; readyLine;
       CallSend "u1" "t1" [("action", VStr "index")];
       CallSend "u2" "t2" [("action", VStr "health")]; CallOnError].
    vm_compute. reflexivity. }
  assert (spawned (step twoPending CallOnError) = true) as SP
      by (vm_compute; reflexivity).
  destruct (transport_error_sweep (step twoPending CallOnError)
                                  (mkError "write EPIPE") R SP) as [_ H].
  assert (0 < errorListeners (step twoPending CallOnError)) as P
      by (vm_compute; lia).
  destruct (H P) as [H1 _].
  vm_compute in H1. vm_compute. exact H1.
Defined.

(** ** Invariants of the pending Map *)

Lemma unaryNext_armed (id : string) (s : Bridge) (e : Event) n a o :
  n = 0 \/ a = true ->
  let '(n', a', _) := unaryNext id s e (n, a, o) in n' = 0 \/ a' = true.
Proof.
  intros H. destruct e; simpl; auto.
  - destruct parsed; auto.
    destruct (spawned s && (isStr (get v "id") id && unaryTerminal v
                            && negb (Nat.eqb n 0)
                            && negb (unconvertible v && listening id s))); auto.
  - destruct (spawned s); simpl; auto.
  - destruct (spawned s); auto. destruct (errorListeners s); simpl; auto.
  - destruct t; auto. destruct (String.eqb id0 id && a); auto.
Qed.

Lemma armed_or_absent_step (id : string) (s : Bridge) (e : Event) :
  wellFormed s ->
  keyCount id (pending s) = 0 \/ armed (RequestTimer id) s = true ->
  keyCount id (pending (step s e)) = 0 \/ armed (RequestTimer id) (step s e) = true.
Proof.
  intros W H. destruct (sendsId id e) eqn:SD.
  - destruct e; simpl in SD; try discriminate.
    apply String.eqb_eq in SD. subst id0. cbn [step]. unfold send, sendWith.
    destruct (negb (ready s)); cbn [fst]; [exact H|].
    right. unfold armed. rewrite stdinWrite_timers. simpl.
    rewrite existsb_app. simpl. rewrite String.eqb_refl, orb_true_r. reflexivity.
  - assert (forall ts request, e <> CallSend id ts request) as NM.
    { intros ts request E. subst e. simpl in SD.
      rewrite String.eqb_refl in SD. discriminate. }
    pose proof (unary_step id s e W NM) as V.
    pose proof (unaryNext_armed id s e _ _ (settlements (SendPromise id) s) H) as N.
    unfold unaryView in V at 2. 
    destruct (unaryNext id s e
                (keyCount id (pending s), armed (RequestTimer id) s,
                 settlements (SendPromise id) s)) as [[n' a'] o'].
    change (fst (fst (unaryView id (step s e))) = 0
            \/ snd (fst (unaryView id (step s e))) = true).
    rewrite V. exact N.
Qed.

(** X14.  Every request in the pending Map has its timer armed: no record
    can stay in the Map without a timeout that will remove it and reject its
    caller. *)
Theorem pending_request_has_armed_timer
        (s : Bridge) (id : string) (p : PendingRequest) :
  reachable s ->
  mapGet id (pending s) = Some p ->
  armed (RequestTimer id) s = true.
Proof.
  intros (path & es & ->) G.
  assert (forall s0, wellFormed s0 ->
                     keyCount id (pending s0) = 0
                     \/ armed (RequestTimer id) s0 = true ->
                     keyCount id (pending (run s0 es)) = 0
                     \/ armed (RequestTimer id) (run s0 es) = true) as Inv.
  { clear G. induction es as [|e es IH]; intros s0 W H; simpl; [exact H|].
    apply IH; [apply wellFormed_step; exact W|].
    apply armed_or_absent_step; assumption. }
  destruct (Inv (create path) (wellFormed_create path) (or_introl eq_refl))
    as [Z | A]; [|exact A].
  apply mapGet_None_keyCount in Z. congruence.
Qed.

Lemma pending_request_has_armed_timer_witness :
  armed (RequestTimer "u2") twoPending = true.
Proof.
  apply (pending_request_has_armed_timer
           twoPending "u2"
           {| promise := SendPromise "u2"; timeout := RequestTimer "u2" |}).
  - exists "/opt/engine",
      [CallStart true; readyLine;
       CallSend "u1" "t1" [("action", VStr "index")];
       CallSend "u2" "t2" [("action", VStr "health")]].
    vm_compute. reflexivity.
  - vm_compute. reflexivity.
Defined.

Lemma unaryNext_blank (id : string) (s : Bridge) (e : Event) :
  unaryNext id s e (0, false, []) = (0, false, []).
Proof.
  destruct e; simpl; try reflexivity.
  - destruct parsed; [|reflexivity]. rewrite !andb_false_r. reflexivity.
  - destruct (spawned s); reflexivity.
  - destruct (spawned s); [|reflexivity]. destruct (errorListeners s); reflexivity.
  - destruct t; try reflexivity. rewrite andb_false_r. reflexivity.
Qed.

Lemma streamNext_blank (id : string) (s : Bridge) (e : Event) :
  streamNext id s e (0, false, []) = (0, false, []).
Proof.
  destruct e; simpl; try reflexivity.
  - destruct parsed; [|reflexivity]. rewrite !andb_false_r. reflexivity.
  - destruct t; try reflexivity. rewrite andb_false_r. reflexivity.
Qed.

(** X15.  The bridge settles no promise and keeps no record for an id that
    no call of send has drawn, whatever lines, timers and sweeps occur: a
    response cannot create a pending request.  Likewise, for an id that no
    call of sendStreaming has drawn, no handler listens and nothing is ever
    handed to a sink. *)
Theorem nothing_for_ids_never_issued (path : string) (es : list Event) (id : string) :
  (existsb (sendsId id) es = false ->
   unaryView id (run (create path) es) = (0, false, []))
  /\ (existsb (streamsId id) es = false ->
      streamView id (run (create path) es) = (0, false, [])).
Proof.
  split; intros F.
  - assert (forall s0, wellFormed s0 -> unaryView id s0 = (0, false, []) ->
                       unaryView id (run s0 es) = (0, false, [])) as G.
    { induction es as [|e es IH]; intros s0 W V; simpl; [exact V|].
      simpl in F. apply orb_false_elim in F. destruct F as [Fe F].
      apply (IH F); [apply wellFormed_step; exact W|].
      rewrite unary_step; [rewrite V; apply unaryNext_blank | exact W |].
      intros ts request E. subst e. simpl in Fe.
      rewrite String.eqb_refl in Fe. discriminate. }
    apply G; [apply wellFormed_create | reflexivity].
  - assert (forall s0, wellFormed s0 -> streamView id s0 = (0, false, []) ->
                       streamView id (run s0 es) = (0, false, [])) as G.
    { induction es as [|e es IH]; intros s0 W V; simpl; [exact V|].
      simpl in F. apply orb_false_elim in F. destruct F as [Fe F].
      apply (IH F); [apply wellFormed_step; exact W|].
      rewrite stream_step; [rewrite V; apply streamNext_blank | exact W | |].
      - change (fst (fst (streamView id s0)) <= 1). rewrite V. simpl. lia.
      - intros ts request E. subst e. simpl in Fe.
        rewrite String.eqb_refl in Fe. discriminate. }
    apply G; [apply wellFormed_create | reflexivity].
Qed.

Lemma nothing_for_ids_never_issued_witness :
  unaryView "u9" (run (create "/opt/engine")
                      [CallStart true; readyLine;
                       CallSend "u1" "t1" [("action", VStr "index")];
                       Line "{...}" (Some (answer "u9" 9));
                       Fire (RequestTimer "u9"); CallStop])
  = (0, false, []).
Proof.
  apply (proj1 (nothing_for_ids_never_issued
                  "/opt/engine"
                  [CallStart true; readyLine;
                   CallSend "u1" "t1" [("action", VStr "index")];
                   Line "{...}" (Some (answer "u9" 9));
                   Fire (RequestTimer "u9"); CallStop] "u9")).
  vm_compute. reflexivity.
Defined.

(** ** The readiness handshake *)

(** X16.  Once the handshake is over (no handler of waitForReady is
    registered), a further message with id 'ready' changes nothing at all,
    provided 'ready' is not the id of a request or session, as no drawn id
    is. *)
Theorem duplicate_ready_ignored (s : Bridge) (line : string) (response : value) :
  noReadyHandler s ->
  mapGet "ready" (pending s) = None ->
  ~ In (StreamHandler "ready") (responseListeners s) ->
  get response "id" = VStr "ready" ->
  step s (Line line (Some response)) = s.
Proof.
  intros N P L I. pose proof (nullish_get _ _ _ I) as NN.
  cbn [step]. destruct (spawned s); [|reflexivity].
  unfold onLine, handleResponse, emitResponse.
  rewrite callListeners_noop.
  - rewrite NN, I. simpl. rewrite P. reflexivity.
  - intros [n|sid] In_l; simpl.
    + exfalso. apply (N n). exact In_l.
    + unfold streamHandler. rewrite NN, I.
      assert (isStr (VStr "ready") sid = false) as ->; [|reflexivity].
      unfold isStr. apply String.eqb_neq. intros E. subst sid. contradiction.
Qed.

Lemma duplicate_ready_ignored_witness :
  step twoPending readyLine = twoPending.
Proof.
  apply (duplicate_ready_ignored
           twoPending "{...}"
           (VObj [("id", VStr "ready"); ("status", VStr "success")])).
  - intros n. vm_compute. tauto.
  - vm_compute. reflexivity.
  - vm_compute. tauto.
  - reflexivity.
Defined.

Ltac frame_start :=
  unfold startView; crush_ops;
  repeat (rewrite ?armedIn_filter, ?filter_app, ?length_filter_removeLast_other
            by congruence; simpl);
  rewrite ?app_nil_r.

Lemma callListener_other_start (n : nat) (l : Listener) (response : value)
      (s : Bridge) :
  l <> ReadyHandler n ->
  startView n (stateOf (callListener l response s)) = startView n s.
Proof.
  intros N. destruct l as [m|sid]; simpl.
  - assert (m <> n) as N' by congruence.
    assert (Nat.eqb m n = false) as E by (apply Nat.eqb_neq; exact N').
    assert (Nat.eqb n m = false) as E' by (apply Nat.eqb_neq; congruence).
    unfold readyHandler.
    destruct (nullish response); [reflexivity|].
    destruct (isStr (get response "id") "ready"); [|reflexivity].
    simpl. frame_start. rewrite ?E, ?E'. simpl. rewrite ?app_nil_r. reflexivity.
  - unfold streamHandler.
    destruct (nullish response); [reflexivity|].
    destruct (negb (isStr (get response "id") sid)); [reflexivity|].
    destruct (isStr (get response "status") "streaming").
    { destruct (isStr (optGet (get response "data") "type") "done");
        simpl; frame_start; reflexivity. }
    destruct (isStr (get response "status") "error").
    { destruct (errorMessage response); simpl; frame_start; reflexivity. }
    destruct (isStr (get response "status") "success").
    { simpl; frame_start; reflexivity. }
    reflexivity.
Qed.

Lemma callListener_keeps_ready (l : Listener) (response : value) (s : Bridge) :
  ready s = true -> ready (stateOf (callListener l response s)) = true.
Proof.
  intros R. destruct l as [m|sid]; simpl.
  - unfold readyHandler. destruct (nullish response); [exact R|].
    destruct (isStr (get response "id") "ready"); [reflexivity | exact R].
  - rewrite (proj1 (streamHandler_gate sid response s)). exact R.
Qed.

Lemma callListeners_keeps_ready (ls : list Listener) (response : value) (s : Bridge) :
  ready s = true -> ready (stateOf (callListeners ls response s)) = true.
Proof.
  revert s. induction ls as [|l ls IH]; intros s R; simpl; [exact R|].
  pose proof (callListener_keeps_ready l response s R) as H.
  destruct (callListener l response s) as [s1|s1]; simpl in *; [apply IH|]; exact H.
Qed.

Lemma callListeners_other_start (n : nat) (ls : list Listener) (response : value)
      (s : Bridge) :
  ~ In (ReadyHandler n) ls ->
  startView n (stateOf (callListeners ls response s)) = startView n s.
Proof.
  revert s. induction ls as [|l ls IH]; intros s N; simpl; [reflexivity|].
  assert (l <> ReadyHandler n) as Nl by (intros E; apply N; left; exact E).
  assert (~ In (ReadyHandler n) ls) as Nls by (intros E; apply N; right; exact E).
  pose proof (callListener_other_start n l response s Nl) as F.
  destruct (callListener l response s) as [s1|s1]; simpl in *.
  - rewrite (IH s1 Nls). exact F.
  - exact F.
Qed.

Lemma readyHandler_hit (n : nat) (response : value) (s : Bridge) :
  get response "id" = VStr "ready" ->
  exists s1,
    readyHandler n response s = Ok s1
    /\ ready s1 = true
    /\ startView n s1
       = (pred (listenerCount (ReadyHandler n) s), false,
          (settlements (StartPromise n) s
           ++ [Settle (StartPromise n) (Resolved VUndefined)])%list).
Proof.
  intros I. pose proof (nullish_get _ _ _ I) as NN.
  unfold readyHandler. rewrite NN, I. simpl. eexists. split; [reflexivity|].
  split; [reflexivity|].
  unfold startView. crush_ops.
  rewrite length_filter_removeLast_same, armedIn_filter, filter_app. simpl.
  rewrite Nat.eqb_refl. reflexivity.
Qed.

Lemma callListeners_handshake (n : nat) (ls : list Listener) (response : value)
      (s : Bridge) :
  get response "id" = VStr "ready" ->
  unconvertible response = false \/ ~ In (StreamHandler "ready") ls ->
  List.length (filter (fun x => Listener_eqb x (ReadyHandler n)) ls) = 1 ->
  ready (stateOf (callListeners ls response s)) = true
  /\ startView n (stateOf (callListeners ls response s))
     = (pred (listenerCount (ReadyHandler n) s), false,
        (settlements (StartPromise n) s
         ++ [Settle (StartPromise n) (Resolved VUndefined)])%list).
Proof.
  intros I. pose proof (nullish_get _ _ _ I) as NN.
  revert s. induction ls as [|l ls IH]; intros s U C; simpl in C; [discriminate|].
  assert (unconvertible response = false \/ ~ In (StreamHandler "ready") ls) as U'.
  { destruct U as [U | U]; [left; exact U | right].
    intros X. apply U. right. exact X. }
  simpl. destruct (Listener_eqb l (ReadyHandler n)) eqn:E.
  - apply Listener_eqb_eq in E. subst l. simpl in C.
    assert (~ In (ReadyHandler n) ls) as N.
    { apply (filter_length_zero_notin (fun x => Listener_eqb x (ReadyHandler n)));
        [lia | apply Listener_eqb_refl]. }
    destruct (readyHandler_hit n response s I) as (s1 & E1 & R1 & V1).
    simpl. rewrite E1.
    split; [apply callListeners_keeps_ready; exact R1|].
    rewrite (callListeners_other_start n ls response s1 N). exact V1.
  - assert (l <> ReadyHandler n) as N
        by (intros X; subst l; rewrite Listener_eqb_refl in E; discriminate).
    pose proof (callListener_other_start n l response s N) as F.
    destruct (callListener_ok l response s NN) as [s1 E1].
    { destruct U as [U | U]; [left; exact U | right]. intros sid ->.
      destruct (isStr (get response "id") sid) eqn:X; [|reflexivity].
      apply isStr_eq in X. rewrite I in X. injection X as <-.
      exfalso. apply U. left. reflexivity. }
    rewrite E1 in *.
    simpl in F. destruct (IH s1 U' C) as [R V]. split; [exact R|].
    rewrite V. unfold startView in F.
    change (listenerCount (ReadyHandler n) s1) with (fst (fst (startView n s1))).
    change (settlements (StartPromise n) s1) with (snd (startView n s1)).
    unfold startView at 1 2. rewrite F. reflexivity.
Qed.

Lemma handleResponse_start (n : nat) (response : value) (s : Bridge) :
  wellFormed s ->
  startView n (stateOf (handleResponse response s))
  = startView n (stateOf (emitResponse response s)).
Proof.
  intros W.
  destruct (nullish response) eqn:NN; [rewrite handleResponse_miss by auto; reflexivity|].
  destruct (unaryTerminal response) eqn:T;
    [|rewrite handleResponse_miss by auto; reflexivity].
  destruct (pendingGet_cases (get response "id") s) as [N | (k & p & I & G)];
    [rewrite handleResponse_miss by auto; reflexivity|].
  destruct (unconvertible response && listening k s) eqn:C.
  { destruct (emitResponse_throws response k s I C) as [s2 E2].
    rewrite handleResponse_miss by (right; right; right; exists s2; exact E2).
    reflexivity. }
  destruct (handleResponse_hit response k p s I G T C) as (s1 & E & ->).
  rewrite E. simpl.
  apply mapGet_In in G. unfold wellFormed in W. rewrite Forall_forall in W.
  destruct (W _ G) as [P Tm]. simpl in P, Tm. rewrite P, Tm.
  assert (filter (isSettle (StartPromise n)) (outcomeOf (SendPromise k) response)
          = []) as O.
  { unfold outcomeOf, rejectionOf.
    destruct (isStr (get response "status") "error");
      [destruct (errorMessage response)|]; reflexivity. }
  unfold startView, outputs. crush_ops. rewrite armedIn_filter, filter_app, O.
  rewrite app_nil_r. reflexivity.
Qed.

(** X17.  The handshake: when a message with id 'ready' arrives while the
    handler of a call of start is registered, the bridge becomes ready, the
    promise of that call is resolved once, its handler is removed and its
    30 s startup timer is cleared, so the startup timeout can no longer
    fire for that call.  This supposes that no handler of a session throws
    on the message before the handler of start sees it: the message is
    not an error with a message [new Error] cannot take, or no session has
    the id 'ready', as no drawn id is. *)
Theorem ready_handshake_completes
        (s : Bridge) (n : nat) (line : string) (response : value) :
  reachable s ->
  listenerCount (ReadyHandler n) s = 1 ->
  get response "id" = VStr "ready" ->
  unconvertible response = false
  \/ ~ In (StreamHandler "ready") (responseListeners s) ->
  let s' := step s (Line line (Some response)) in
  ready s' = true
  /\ startView n s'
     = (0, false,
        (settlements (StartPromise n) s
         ++ [Settle (StartPromise n) (Resolved VUndefined)])%list)
  /\ step s' (Fire (StartupTimer n)) = s'.
Proof.
  intros R C I U s'.
  pose proof (reachable_wellFormed s R) as W.
  assert (spawned s = true) as SP
      by (apply (reachable_listening_spawned s (ReadyHandler n) R); lia).
  destruct (callListeners_handshake n (responseListeners s) response s I U C) as [RD V].
  fold (emitResponse response s) in RD, V. rewrite C in V. simpl pred in V.
  assert (ready s' = true) as R'.
  { subst s'. cbn [step]. rewrite SP. unfold onLine.
    pose proof (ready_handleResponse response s) as H. rewrite RD in H.
    destruct (handleResponse response s); simpl in *; exact H. }
  assert (startView n s'
          = (0, false,
             (settlements (StartPromise n) s
              ++ [Settle (StartPromise n) (Resolved VUndefined)])%list)) as V'.
  { subst s'. cbn [step]. rewrite SP. unfold onLine.
    pose proof (handleResponse_start n response s W) as H. rewrite V in H.
    destruct (handleResponse response s); simpl in *; [exact H|].
    rewrite <- H. unfold startView. crush_ops. rewrite filter_app. simpl.
    rewrite app_nil_r. reflexivity. }
  split; [exact R'|]. split; [exact V'|].
  cbn [step]. unfold fire.
  change (armed (StartupTimer n) s') with (snd (fst (startView n s'))).
  rewrite V'. reflexivity.
Qed.

Lemma ready_handshake_completes_witness :
  ready (step awaitingReady readyLine) = true
  /\ startView 0 (step awaitingReady readyLine)
     = (0, false, [Settle (StartPromise 0) (Resolved VUndefined)]).
Proof.
  assert (reachable awaitingReady) as R.
  { exists "/opt/engine", [CallStart true]. vm_compute. reflexivity. }
  assert (listenerCount (ReadyHandler 0) awaitingReady = 1) as C
      by (vm_compute; reflexivity).
  destruct (ready_handshake_completes
              awaitingReady 0 "{...}"
              (VObj [("id", VStr "ready"); ("status", VStr "success")])
              R C eq_refl (or_introl eq_refl)) as (H1 & H2 & _).
  split.
  - vm_compute in H1. vm_compute. exact H1.
  - vm_compute in H2. vm_compute. exact H2.
Defined.

(** ** A bridge without a worker *)

Lemma spawned_only_by_start (s : Bridge) (e : Event) :
  spawned s = false -> spawned (step s e) = true -> e = CallStart true.
Proof.
  intros U H.
  assert (forall s', process s' = process s -> spawned s' = false) as Keep.
  { intros s' E. unfold spawned in *. rewrite E. exact U. }
  destruct e; cbn [step] in H; rewrite ?U in H; try congruence.
  - destruct scriptFound; [reflexivity|].
    rewrite (Keep (start false s)) in H; [discriminate | reflexivity].
  - rewrite Keep in H; [discriminate|].
    unfold send, sendWith. destruct (negb (ready s)); cbn [fst]; [reflexivity|].
    rewrite process_stdinWrite. reflexivity.
  - rewrite Keep in H; [discriminate|].
    unfold sendStreaming, sendStreamingWith. destruct (negb (ready s)); cbn [fst]; [reflexivity|].
    rewrite process_stdinWrite. reflexivity.
  - rewrite Keep in H; [discriminate|].
    unfold stop. rewrite process_rejectAllPending. simpl.
    unfold spawned in U. destruct (process s); [discriminate | reflexivity].
  - rewrite Keep in H; [discriminate | reflexivity].
  - rewrite Keep in H; [discriminate|].
    unfold fire. destruct (negb (armed t s)); [reflexivity|].
    destruct t; reflexivity.
Qed.

(** X18.  A bridge on which start never found the worker's script (and
    which was never started otherwise) stays empty whatever is called on it:
    it has no worker, is not ready, holds no request, no listener and no
    timer, and nothing was written; every call of send and sendStreaming
    on it fails with 'Engine not ready'. *)
Theorem bridge_without_worker_does_nothing
        (path : string) (es : list Event) (r : Request) :
  Forall (fun e => e <> CallStart true) es ->
  let s := run (create path) es in
  spawned s = false /\ inert s /\ written s = []
  /\ issue r s = (s, Rejects (mkError "Engine not ready")).
Proof.
  intros F s.
  assert (spawned s = false /\ inert s /\ written s = []) as (U & I & Wr).
  { subst s. induction es as [|e es IH] using rev_ind.
    - simpl. repeat split; reflexivity.
    - apply Forall_app in F. destruct F as [F Fe].
      inversion Fe as [|x l Ne _]; subst.
      destruct (IH F) as (U & I & Wr). rewrite run_app. simpl.
      set (s0 := run (create path) es) in *.
      assert (reachable s0) as R by (exists path, es; reflexivity).
      destruct (unspawned_step s0 e I U) as [SP | [I' U']].
      + apply (spawned_only_by_start s0 e U) in SP. contradiction.
      + split; [exact U'|]. split; [exact I'|].
        rewrite written_step by exact R. rewrite Wr.
        destruct I as (RD & _). destruct e; simpl; try reflexivity;
          rewrite RD; reflexivity. }
  split; [exact U|]. split; [exact I|]. split; [exact Wr|].
  destruct I as (RD & _). unfold issue, send, sendWith, sendStreaming, sendStreamingWith. rewrite RD.
  destruct (kind r); reflexivity.
Qed.

Lemma bridge_without_worker_does_nothing_witness :
  written (run (create "/nowhere")
               [CallStart false; CallSend "u1" "t1" [("action", VStr "index")];
                CallStop; CallStart false; Fire (StartupTimer 0)]) = [].
Proof.
  apply (bridge_without_worker_does_nothing
           "/nowhere"
           [CallStart false; CallSend "u1" "t1" [("action", VStr "index")];
            CallStop; CallStart false; Fire (StartupTimer 0)]
           unaryIndex).
  repeat constructor; discriminate.
Defined.

(** * The callers: configuration and command line *)

(** ** loadGlobalConfig *)

Lemma lookup_spreadInto_list (k : string) (b a : list (string * value)) :
  lookup k (fold_left (fun acc e => assign (fst e) (snd e) acc) b a)
  = match lastBinding k b with
    | Some v => Some v
    | None => lookup k a
    end.
Proof.
  revert a. induction b as [|[k' v'] b IH]; intros a; simpl; [reflexivity|].
  rewrite IH. destruct (lastBinding k b); [reflexivity|].
  rewrite lookup_assign. destruct (String.eqb k k'); reflexivity.
Qed.

Lemma lastBinding_In (k : string) (v : value) (b : list (string * value)) :
  lastBinding k b = Some v -> In k (map fst b).
Proof.
  induction b as [|[k' v'] b IH]; simpl; [discriminate|].
  destruct (lastBinding k b) eqn:L.
  - intros H. right. apply IH. exact H.
  - destruct (String.eqb k k') eqn:E; [|discriminate].
    apply String.eqb_eq in E. intros _. left. congruence.
Qed.

Lemma lastBinding_distinct (k : string) (b : list (string * value)) :
  NoDup (map fst b) -> lastBinding k b = lookup k b.
Proof.
  induction b as [|[k' v'] b IH]; simpl; intros N; [reflexivity|].
  inversion N as [|x l NI ND]; subst. rewrite (IH ND).
  destruct (String.eqb k k') eqn:E.
  - apply String.eqb_eq in E. subst k'.
    destruct (lookup k b) eqn:L; [|reflexivity].
    exfalso. apply NI. apply (lastBinding_In k v b). apply IH. exact ND.
  - destruct (lookup k b); reflexivity.
Qed.

Lemma get_merged (k : string) (base : list (string * value)) (v : value) :
  get (VObj (spreadInto base v)) k
  = match lastBinding k (spread v) with
    | Some x => x
    | None => get (VObj base) k
    end.
Proof.
  unfold get, spreadInto. rewrite lookup_spreadInto_list.
  destruct (lastBinding k (spread v)); reflexivity.
Qed.

Lemma section_loaded (u : value) (sec : string) :
  sec = "embedding" \/ sec = "llm" ->
  exists base,
    get DEFAULT_CONFIG sec = VObj base
    /\ get (loadGlobalConfig true (Some u)) sec
       = VObj (spreadInto base (optGet u sec)).
Proof.
  intros [-> | ->].
  - exists defaultEmbedding. split; reflexivity.
  - exists defaultLlm. split; reflexivity.
Qed.

(** X19.  loadGlobalConfig merges the file over the defaults key by key, in
    each of the sections 'embedding' and 'llm': a key the user's section
    defines has the user's value, a key it does not define keeps its
    default, and a section that is missing (or null, a number, a boolean)
    is the default section.  Top-level sections other than these two are
    dropped. *)
Theorem config_merges_over_defaults (u : value) (sec k : string) :
  sec = "embedding" \/ sec = "llm" ->
  (forall fields,
      optGet u sec = VObj fields -> NoDup (map fst fields) ->
      get (get (loadGlobalConfig true (Some u)) sec) k
      = match lookup k fields with
        | Some v => v
        | None => get (get DEFAULT_CONFIG sec) k
        end)
  /\ (spread (optGet u sec) = [] ->
      get (loadGlobalConfig true (Some u)) sec = get DEFAULT_CONFIG sec)
  /\ (forall other, other <> "embedding" -> other <> "llm" ->
                    get (loadGlobalConfig true (Some u)) other = VUndefined).
Proof.
  intros S. destruct (section_loaded u sec S) as (base & D & L).
  split; [|split].
  - intros fields O N. rewrite L, D, get_merged, O. simpl spread.
    rewrite (lastBinding_distinct k fields N).
    destruct (lookup k fields); reflexivity.
  - intros E. rewrite L, D. unfold spreadInto. rewrite E. reflexivity.
  - intros other N1 N2. unfold loadGlobalConfig, get. simpl.
    apply String.eqb_neq in N1. apply String.eqb_neq in N2.
    rewrite N1, N2. reflexivity.
Qed.

Lemma config_merges_over_defaults_witness :
  get (get (loadGlobalConfig true (Some onlyModel)) "llm") "model" = VStr "gpt-4o-mini"
  /\ get (get (loadGlobalConfig true (Some onlyModel)) "llm") "provider" = VStr "ollama".
Proof.
  assert (optGet onlyModel "llm" = VObj [("model", VStr "gpt-4o-mini")]) as O
      by reflexivity.
  assert (NoDup (map fst [("model", VStr "gpt-4o-mini")])) as N
      by (repeat constructor; simpl; tauto).
  pose proof (proj1 (config_merges_over_defaults onlyModel "llm" "model"
                                                 (or_intror eq_refl)) _ O N) as H1.
  pose proof (proj1 (config_merges_over_defaults onlyModel "llm" "provider"
                                                 (or_intror eq_refl)) _ O N) as H2.
  split.
  - vm_compute in H1. vm_compute. exact H1.
  - vm_compute in H2. vm_compute. exact H2.
Defined.

(** ** The defaults of the command-line options *)

Lemma truthy_orElse (a b : value) : truthy b = true -> truthy (orElse a b) = true.
Proof. intros H. unfold orElse. destruct (truthy a) eqn:E; assumption. Qed.

(** X20.  Whatever the configuration file holds (absent, unreadable, or any
    parsed value), none of the four defaults that the command line offers
    for --llm, --model, --embedding and --embedding-model is empty or
    otherwise falsy; where the configuration has no usable value the
    built-in names are used, and with no file they are exactly 'ollama',
    'llama3.1:8b', 'ollama' and 'nomic-embed-text'. *)
Theorem option_defaults_never_empty (fileExists : bool) (loaded : option value) :
  let d := optionDefaults (loadGlobalConfig fileExists loaded) in
  truthy (llmDefault d) = true
  /\ truthy (modelDefault d) = true
  /\ truthy (embeddingDefault d) = true
  /\ truthy (embeddingModelDefault d) = true
  /\ optionDefaults (loadGlobalConfig false loaded)
     = {| llmDefault := VStr "ollama"; modelDefault := VStr "llama3.1:8b";
          embeddingDefault := VStr "ollama";
          embeddingModelDefault := VStr "nomic-embed-text" |}.
Proof.
  simpl. repeat split; try (apply truthy_orElse; reflexivity).
Qed.

Lemma user_value_survives (u : value) (sec k m : string)
      (fields : list (string * value)) :
  sec = "embedding" \/ sec = "llm" ->
  optGet u sec = VObj fields ->
  NoDup (map fst fields) ->
  lookup k fields = Some (VStr m) ->
  m <> "" ->
  orElse (optGet (get (loadGlobalConfig true (Some u)) sec) k)
         (get (get DEFAULT_CONFIG sec) k)
  = VStr m.
Proof.
  intros S O N L NE.
  destruct (section_loaded u sec S) as (base & D & Ld).
  assert (get (get (loadGlobalConfig true (Some u)) sec) k = VStr m) as G.
  { rewrite Ld, get_merged, O. simpl spread.
    rewrite (lastBinding_distinct k fields N), L. reflexivity. }
  unfold optGet. rewrite Ld. simpl nullish. cbv iota. rewrite <- Ld, G.
  unfold orElse. simpl. apply String.eqb_neq in NE. rewrite NE. reflexivity.
Qed.

(** X21.  A non-empty string that the user's configuration file gives for
    the provider or the model of its 'llm' or 'embedding' section is the
    default the command line offers for the corresponding option (--llm,
    --model, --embedding, --embedding-model). *)
Theorem user_config_reaches_option_defaults
        (u : value) (sec k m : string) (fields : list (string * value)) :
  optGet u sec = VObj fields ->
  NoDup (map fst fields) ->
  lookup k fields = Some (VStr m) ->
  m <> "" ->
  let d := optionDefaults (loadGlobalConfig true (Some u)) in
  (sec = "llm" /\ k = "provider" -> llmDefault d = VStr m)
  /\ (sec = "llm" /\ k = "model" -> modelDefault d = VStr m)
  /\ (sec = "embedding" /\ k = "provider" -> embeddingDefault d = VStr m)
  /\ (sec = "embedding" /\ k = "model" -> embeddingModelDefault d = VStr m).
Proof.
  intros O N L NE d. subst d.
  split; [|split; [|split]]; intros [-> ->].
  - exact (user_value_survives u "llm" "provider" m fields
                               (or_intror eq_refl) O N L NE).
  - exact (user_value_survives u "llm" "model" m fields
                               (or_intror eq_refl) O N L NE).
  - exact (user_value_survives u "embedding" "provider" m fields
                               (or_introl eq_refl) O N L NE).
  - exact (user_value_survives u "embedding" "model" m fields
                               (or_introl eq_refl) O N L NE).
Qed.

Lemma user_config_reaches_option_defaults_witness :
  modelDefault (optionDefaults (loadGlobalConfig true (Some onlyModel)))
  = VStr "gpt-4o-mini".
Proof.
  assert (NoDup (map fst [("model", VStr "gpt-4o-mini")])) as N
      by (repeat constructor; simpl; tauto).
  assert ("gpt-4o-mini" <> "") as NE by discriminate.
  destruct (user_config_reaches_option_defaults
              onlyModel "llm" "model" "gpt-4o-mini"
              [("model", VStr "gpt-4o-mini")] eq_refl N eq_refl NE)
    as (_ & H & _).
  apply H. split; reflexivity.
Defined.

(** ** handleQuery: what reaches the terminal *)

Lemma queryChunks_app (a b : list value) (q : QueryOutput) :
  queryChunks (a ++ b) q
  = match queryChunks a q with
    | Some q' => queryChunks b q'
    | None => None
    end.
Proof.
  revert q. induction a as [|c a IH]; intros q; simpl; [reflexivity|].
  destruct (queryChunk c q); [apply IH | reflexivity].
Qed.

Lemma chunksIn_app (a b : list Output) :
  chunksIn (a ++ b) = (chunksIn a ++ chunksIn b)%list.
Proof. unfold chunksIn. apply flat_map_app. Qed.

(** X22.  When the worker answers a streaming query with one message of
    status 'success', the bridge hands handleQuery's callback the single
    chunk [{type: 'done', data}], and the callback prints nothing and
    collects no source for it: what handleQuery has printed and collected is
    exactly what it had before, so the payload of a non-streamed answer does
    not reach the terminal. *)
Theorem success_answer_is_not_printed
        (s : Bridge) (id line : string) (response : value) (q : QueryOutput) :
  reachable s ->
  listenerCount (StreamHandler id) s = 1 ->
  get response "id" = VStr id ->
  get response "status" = VStr "success" ->
  let s' := step s (Line line (Some response)) in
  chunksIn (sessionOutput id s')
  = (chunksIn (sessionOutput id s) ++ [doneChunk (get response "data")])%list
  /\ queryChunks (chunksIn (sessionOutput id s')) q
     = queryChunks (chunksIn (sessionOutput id s)) q.
Proof.
  intros R C I St s'.
  assert (sessionOutput id s'
          = (sessionOutput id s
             ++ [Chunk id (doneChunk (get response "data"));
                 Settle (StreamPromise id) (Resolved VUndefined)])%list) as O.
  { change (sessionOutput id s') with (snd (streamView id s')). subst s'.
    rewrite line_session_view;
      [|apply reachable_wellFormed; exact R
       |apply (reachable_listening_spawned s (StreamHandler id) R); lia
       |exact C | exact I].
    unfold afterResponse, streamView, streamTerminal, sessionEmits.
    rewrite St. reflexivity. }
  rewrite O, chunksIn_app. simpl chunksIn at 2. split; [reflexivity|].
  rewrite queryChunks_app.
  destruct (queryChunks (chunksIn (sessionOutput id s)) q); reflexivity.
Qed.

Lemma success_answer_is_not_printed_witness :
  queryChunks (chunksIn (sessionOutput
                           "s1" (step openSession (Line "{...}" (Some wholeAnswer)))))
              {| printed := []; sources := [] |}
  = Some {| printed := []; sources := [] |}.
Proof.
  assert (reachable openSession) as R.
  { exists "/opt/engine",
      [CallStart true; readyLine;
       CallSendStreaming "s1" "t1" [("action", VStr "query")]].
    vm_compute. reflexivity. }
  assert (listenerCount (StreamHandler "s1") openSession = 1) as C
      by (vm_compute; reflexivity).
  destruct (success_answer_is_not_printed
              openSession "s1" "{...}" wholeAnswer
              {| printed := []; sources := [] |} R C eq_refl eq_refl) as [_ H].
  vm_compute in H. vm_compute. exact H.
Defined.

(** A partial chunk of type 'token' with a non-empty text. *)
Lemma queryChunk_token (chunk : value) (q : QueryOutput) :
  isStr (get chunk "type") "token" = true ->
  nonEmptyText (get chunk "content") = true ->
  queryChunk chunk q
  = Some {| printed := printed q ++ [get chunk "content"]; sources := sources q |}.
Proof.
  intros T C. unfold queryChunk. rewrite T.
  destruct chunk; simpl in T; try discriminate.
  destruct (get (VObj fields) "content"); simpl in C; try discriminate.
  simpl. rewrite C. reflexivity.
Qed.

Lemma queryChunks_tokens (chunks : list value) (q : QueryOutput) :
  forallb (fun c => isStr (get c "type") "token" && nonEmptyText (get c "content"))
          chunks = true ->
  queryChunks chunks q
  = Some {| printed := printed q ++ map (fun c => get c "content") chunks;
            sources := sources q |}.
Proof.
  revert q. induction chunks as [|c chunks IH]; intros q F; simpl.
  - rewrite app_nil_r. destruct q; reflexivity.
  - simpl in F. apply andb_prop in F. destruct F as [Fc F].
    apply andb_prop in Fc. destruct Fc as [T C].
    rewrite (queryChunk_token c q T C), (IH _ F). simpl.
    rewrite <- app_assoc. reflexivity.
Qed.

(** X23.  End to end for a streamed answer: when the worker sends, for a
    session that has received nothing yet, any number of 'token' chunks
    whose content is a non-empty string and then the 'done' chunk,
    handleQuery's callback never throws and has printed exactly the texts of
    the tokens, in the order of the worker's lines, and nothing for the
    'done' chunk. *)
Theorem tokens_printed_in_order
        (s : Bridge) (id : string) (chunks : list (string * value))
        (final : string * value) :
  reachable s ->
  listenerCount (StreamHandler id) s = 1 ->
  sessionOutput id s = [] ->
  forallb (fun lr => partialChunk id (snd lr)) chunks = true ->
  forallb (fun lr => isStr (get (get (snd lr) "data") "type") "token"
                     && nonEmptyText (get (get (snd lr) "data") "content"))
          chunks = true ->
  finalChunk id (snd final) = true ->
  queryChunks (chunksIn (sessionOutput id (run s (map lineOf (chunks ++ [final])))))
              {| printed := []; sources := [] |}
  = Some {| printed := map (fun lr => get (get (snd lr) "data") "content") chunks;
            sources := [] |}.
Proof.
  intros R C E P T F.
  pose proof (reachable_wellFormed s R) as W.
  assert (spawned s = true) as SP
      by (apply (reachable_listening_spawned s (StreamHandler id) R); lia).
  destruct (partial_chunks_delivered id chunks s W SP C P) as (W' & SP' & V').
  destruct (finalChunk_spec id (snd final) F) as (I & Tm & Em).
  assert (listenerCount (StreamHandler id) (run s (map lineOf chunks)) = 1) as C'
      by (change (fst (fst (streamView id (run s (map lineOf chunks)))) = 1);
          rewrite V'; reflexivity).
  assert (sessionOutput id (run s (map lineOf (chunks ++ [final])))
          = (map (fun lr => Chunk id (get (snd lr) "data")) chunks
             ++ [Chunk id (get (snd final) "data");
                 Settle (StreamPromise id) (Resolved VUndefined)])%list) as O.
  { rewrite map_app, run_app.
    change (run (run s (map lineOf chunks)) (map lineOf [final]))
      with (step (run s (map lineOf chunks)) (Line (fst final) (Some (snd final)))).
    change (sessionOutput id ?x) with (snd (streamView id x)).
    rewrite (line_session_view id (fst final) (snd final) _ W' SP' C' I).
    rewrite V'. unfold afterResponse. rewrite Tm, Em, E. reflexivity. }
  rewrite O, chunksIn_app, queryChunks_app.
  assert (chunksIn (map (fun lr => Chunk id (get (snd lr) "data")) chunks)
          = map (fun lr => get (snd lr) "data") chunks) as ->.
  { clear. induction chunks as [|c chunks IH]; simpl; [reflexivity|].
    unfold chunksIn in *. simpl. rewrite IH. reflexivity. }
  rewrite queryChunks_tokens.
  - simpl. rewrite map_map.
    unfold finalChunk in F. apply andb_prop in F. destruct F as [_ D].
    unfold queryChunk. unfold optGet in D.
    destruct (nullish (get (snd final) "data")) eqn:X; [discriminate|].
    assert (isStr (get (get (snd final) "data") "type") "token" = false) as ->
        by (apply isStr_excl with (a := "done"); [discriminate | exact D]).
    assert (isStr (get (get (snd final) "data") "type") "source" = false) as ->
        by (apply isStr_excl with (a := "done"); [discriminate | exact D]).
    reflexivity.
  - clear - T. induction chunks as [|c chunks IH]; simpl in *; [reflexivity|].
    apply andb_prop in T. destruct T as [Tc T]. rewrite Tc, (IH T). reflexivity.
Qed.

Lemma tokens_printed_in_order_witness :
  queryChunks
    (chunksIn (sessionOutput
                 "s1"
                 (run openSession
                      (map lineOf ([("{a}", tokenChunk "s1" "Hello");
                                    ("{b}", tokenChunk "s1" " world")]
                                   ++ [("{c}", lastChunk "s1")])))))
    {| printed := []; sources := [] |}
  = Some {| printed := [VStr "Hello"; VStr " world"]; sources := [] |}.
Proof.
  assert (reachable openSession) as R.
  { exists "/opt/engine",
      [CallStart true; readyLine;
       CallSendStreaming "s1" "t1" [("action", VStr "query")]].
    vm_compute. reflexivity. }
  assert (listenerCount (StreamHandler "s1") openSession = 1) as C
      by (vm_compute; reflexivity).
  assert (sessionOutput "s1" openSession = []) as E by (vm_compute; reflexivity).
  pose proof (tokens_printed_in_order
                openSession "s1"
                [("{a}", tokenChunk "s1" "Hello"); ("{b}", tokenChunk "s1" " world")]
                ("{c}", lastChunk "s1") R C E eq_refl eq_refl eq_refl) as H.
  vm_compute in H. vm_compute. exact H.
Defined.

(** * utils/paths.ts *)

(** ** simpleHash *)

Lemma ToInt32_range (z : Z) : (- 2 ^ 31 <= ToInt32 z < 2 ^ 31)%Z.
Proof.
  unfold ToInt32.
  pose proof (Z.mod_pos_bound (z + 2 ^ 31) (2 ^ 32) ltac:(lia)) as H. lia.
Qed.

Lemma ToInt32_mod (z : Z) : (ToInt32 z mod 2 ^ 32 = z mod 2 ^ 32)%Z.
Proof.
  unfold ToInt32.
  rewrite Zminus_mod, Zmod_mod, <- Zminus_mod.
  replace (z + 2 ^ 31 - 2 ^ 31)%Z with z by lia. reflexivity.
Qed.

Lemma ToInt32_congr (a b : Z) :
  (a mod 2 ^ 32 = b mod 2 ^ 32)%Z -> ToInt32 a = ToInt32 b.
Proof.
  intros H. unfold ToInt32.
  rewrite (Zplus_mod a), (Zplus_mod b), H. reflexivity.
Qed.

Lemma ToInt32_id (z : Z) : (- 2 ^ 31 <= z < 2 ^ 31)%Z -> ToInt32 z = z.
Proof.
  intros H. unfold ToInt32. rewrite Z.mod_small by lia. lia.
Qed.

Lemma hashStep_eq (hash char : Z) :
  hashStep hash char = ToInt32 (31 * hash + char).
Proof.
  unfold hashStep. rewrite Z.land_diag.
  rewrite (ToInt32_id (ToInt32 _)) by apply ToInt32_range.
  apply ToInt32_congr. rewrite Z.shiftl_mul_pow2 by lia.
  rewrite Zplus_mod, Zminus_mod, ToInt32_mod.
  rewrite (Zmult_mod (ToInt32 hash)), ToInt32_mod, <- Zmult_mod.
  rewrite <- Zminus_mod, <- Zplus_mod.
  f_equal. lia.
Qed.

Lemma hashValue_snoc (codes : list Z) (c : Z) :
  hashValue (codes ++ [c]) = hashStep (hashValue codes) c.
Proof. unfold hashValue. rewrite fold_left_app. reflexivity. Qed.

Lemma hashValue_range (codes : list Z) :
  (- 2 ^ 31 <= hashValue codes < 2 ^ 31)%Z.
Proof.
  induction codes as [|c codes IH] using rev_ind.
  - unfold hashValue. simpl. lia.
  - rewrite hashValue_snoc, hashStep_eq. apply ToInt32_range.
Qed.

(** X24.  The loop of simpleHash computes, in 32-bit two's complement, the
    polynomial hash with multiplier 31: the empty string hashes to 0, and
    one more character [c] takes the hash [h] to [31 * h + c] wrapped to
    32 bits (the shift-and-subtract is a multiplication by 31); the hash is
    always a 32-bit signed integer. *)
Theorem simpleHash_is_polynomial_31 (codes : list Z) (c : Z) :
  hashValue [] = 0%Z
  /\ hashValue (codes ++ [c]) = ToInt32 (31 * hashValue codes + c)
  /\ (- 2 ^ 31 <= hashValue codes < 2 ^ 31)%Z.
Proof.
  split; [reflexivity|]. split.
  - rewrite hashValue_snoc. apply hashStep_eq.
  - apply hashValue_range.
Qed.

Lemma hexDigit_value (d : Z) : (0 <= d < 16)%Z -> digitValue (hexDigit d) = d.
Proof.
  intros H.
  assert (d = 0 \/ d = 1 \/ d = 2 \/ d = 3 \/ d = 4 \/ d = 5 \/ d = 6 \/ d = 7
          \/ d = 8 \/ d = 9 \/ d = 10 \/ d = 11 \/ d = 12 \/ d = 13 \/ d = 14
          \/ d = 15)%Z as C by lia.
  repeat (destruct C as [-> | C]; [reflexivity|]). subst d. reflexivity.
Qed.

Lemma hexValueFrom_app (acc : Z) (a b : string) :
  hexValueFrom acc (a ++ b) = hexValueFrom (hexValueFrom acc a) b.
Proof.
  revert acc. induction a as [|c a IH]; intros acc; simpl; [reflexivity|].
  apply IH.
Qed.

Lemma hexFrom_value (fuel : nat) (n : Z) :
  (0 <= n < 16 ^ Z.of_nat fuel)%Z -> hexValue (hexFrom fuel n) = n.
Proof.
  revert n. induction fuel as [|f IH]; intros n H.
  - simpl in *. unfold hexValue. simpl. lia.
  - cbn [hexFrom]. destruct (n <? 16)%Z eqn:L.
    + apply Z.ltb_lt in L. unfold hexValue. cbn [hexValueFrom].
      rewrite hexDigit_value by lia. lia.
    + apply Z.ltb_ge in L. unfold hexValue in *. rewrite hexValueFrom_app.
      rewrite IH.
      * cbn [hexValueFrom]. rewrite hexDigit_value by (apply Z.mod_pos_bound; lia).
        pose proof (Z.div_mod n 16 ltac:(lia)). lia.
      * rewrite Nat2Z.inj_succ, Z.pow_succ_r in H by lia.
        split; [apply Z.div_pos; lia|].
        apply Z.div_lt_upper_bound; lia.
Qed.

Lemma hexFrom_length (fuel : nat) (k : nat) (n : Z) :
  (0 <= n < 16 ^ Z.of_nat k)%Z -> 1 <= k ->
  String.length (hexFrom fuel n) <= k.
Proof.
  revert k n. induction fuel as [|f IH]; intros k n H K; simpl; [lia|].
  destruct (n <? 16)%Z eqn:L; simpl; [lia|].
  apply Z.ltb_ge in L.
  destruct k as [|[|k]]; [lia | simpl in H; lia |].
  assert (String.length (hexFrom f (n / 16)) <= S k) as B.
  { apply IH; [|lia].
    rewrite (Nat2Z.inj_succ (S k)), Z.pow_succ_r in H by lia.
    split; [apply Z.div_pos; lia|].
    apply Z.div_lt_upper_bound; lia. }
  assert (forall a b, String.length (a ++ b) = String.length a + String.length b) as LA.
  { intros a b. induction a as [|c a IHa]; simpl; [reflexivity|].
    rewrite IHa. reflexivity. }
  rewrite LA. simpl. lia.
Qed.

Lemma toString16_value (n : Z) : (0 <= n)%Z -> hexValue (toString16 n) = n.
Proof.
  intros H. unfold toString16. apply hexFrom_value. split; [exact H|].
  rewrite Nat2Z.inj_succ, Z2Nat.id by apply Z.log2_nonneg.
  destruct (Z.eq_dec n 0) as [-> | NZ]; [simpl; lia|].
  pose proof (Z.log2_spec n ltac:(lia)) as [_ U].
  apply Z.lt_le_trans with (1 := U).
  apply Z.pow_le_mono_l. pose proof (Z.log2_nonneg n). lia.
Qed.

Lemma zeros_value (k : nat) (acc : Z) (s : string) :
  hexValueFrom 0 (zeros k ++ s) = hexValueFrom 0 s.
Proof. induction k as [|k IH]; simpl; [reflexivity | exact IH]. Qed.

Lemma length_zeros (k : nat) : String.length (zeros k) = k.
Proof. induction k as [|k IH]; simpl; [reflexivity | rewrite IH; reflexivity]. Qed.

Lemma length_append (a b : string) :
  String.length (a ++ b) = String.length a + String.length b.
Proof.
  induction a as [|c a IH]; simpl; [reflexivity | rewrite IH; reflexivity].
Qed.

(** X25.  The name simpleHash returns always has exactly 8 characters, and
    read as a hexadecimal number it is the absolute value of the 32-bit
    hash; so two paths get the same index directory exactly when their
    hashes are equal or opposite. *)
Theorem simpleHash_is_eight_hex_digits (codes codes' : list Z) :
  String.length (simpleHash codes) = 8
  /\ hexValue (simpleHash codes) = Z.abs (hashValue codes)
  /\ (simpleHash codes = simpleHash codes'
      <-> Z.abs (hashValue codes) = Z.abs (hashValue codes')).
Proof.
  assert (forall cs, hexValue (simpleHash cs) = Z.abs (hashValue cs)) as V.
  { intros cs. unfold simpleHash, padStart0, hexValue.
    rewrite (zeros_value _ 0%Z). apply toString16_value. lia. }
  split; [|split; [apply V|]].
  - unfold simpleHash, padStart0. rewrite length_append, length_zeros.
    assert (String.length (toString16 (Z.abs (hashValue codes))) <= 8) as B.
    { unfold toString16. apply hexFrom_length; [|lia].
      pose proof (hashValue_range codes). simpl. lia. }
    lia.
  - split.
    + intros E. rewrite <- (V codes), <- (V codes'), E. reflexivity.
    + intros E. unfold simpleHash. rewrite E. reflexivity.
Qed.

(** ** findConfigFile *)

Lemma findUp_spec (existsSync : list string -> bool) (revDir : list string) :
  match findUp existsSync revDir with
  | Some p =>
      existsSync p = true
      /\ exists above below,
          revDir = (below ++ above)%list /\ above <> []
          /\ p = (rev above ++ [configFileName])%list
          /\ forall b1 b2, below = (b1 ++ b2)%list -> b2 <> [] ->
               existsSync (rev (b2 ++ above) ++ [configFileName])%list = false
  | None =>
      forall above below, revDir = (below ++ above)%list -> above <> [] ->
        existsSync (rev above ++ [configFileName])%list = false
  end.
Proof.
  induction revDir as [|seg parent IH]; cbn [findUp].
  - intros above below E N. destruct below, above; simpl in E; congruence.
  - destruct (existsSync (rev (seg :: parent) ++ [configFileName])%list) eqn:X.
    + split; [exact X|]. exists (seg :: parent), []. 
      split; [reflexivity|]. split; [discriminate|]. split; [reflexivity|].
      intros b1 b2 E N. destruct b1, b2; simpl in E; congruence.
    + destruct (findUp existsSync parent) as [p|].
      * destruct IH as (P & above & below & E & N & Pp & Deeper).
        split; [exact P|]. exists above, (seg :: below).
        split; [simpl; rewrite E; reflexivity|]. split; [exact N|].
        split; [exact Pp|].
        intros b1 b2 Eb Nb. destruct b1 as [|x b1]; simpl in Eb.
        -- subst b2. simpl. rewrite <- E. exact X.
        -- injection Eb as _ Eb. apply (Deeper b1 b2 Eb Nb).
      * intros above below E N. destruct below as [|x below]; simpl in E.
        -- subst above. exact X.
        -- injection E as _ E. apply (IH above below E N).
Qed.

(** X26.  findConfigFile returns the '.ragrc.yaml' of the nearest directory
    that has one, going from the start directory up through its ancestors:
    the path returned exists, lies in the start directory or an ancestor of
    it other than the root, and no directory between that one and the start
    directory has the file.  It returns null exactly when no such directory
    has the file; the root directory itself is never looked at. *)
Theorem findConfigFile_nearest (existsSync : list string -> bool)
        (startDir : list string) :
  (forall p,
      findConfigFile existsSync startDir = Some p ->
      existsSync p = true
      /\ exists dir rest,
          startDir = (dir ++ rest)%list /\ dir <> []
          /\ p = (dir ++ [configFileName])%list
          /\ forall r1 r2, rest = (r1 ++ r2)%list -> r1 <> [] ->
               existsSync ((dir ++ r1) ++ [configFileName])%list = false)
  /\ (findConfigFile existsSync startDir = None <->
      forall dir rest, startDir = (dir ++ rest)%list -> dir <> [] ->
        existsSync (dir ++ [configFileName])%list = false)
  /\ findConfigFile existsSync [] = None.
Proof.
  unfold findConfigFile.
  pose proof (findUp_spec existsSync (rev startDir)) as S.
  split; [|split; [|reflexivity]].
  - intros p E. rewrite E in S. destruct S as (P & above & below & Er & N & Pp & D).
    split; [exact P|]. exists (rev above), (rev below).
    assert (startDir = (rev above ++ rev below)%list) as Es.
    { rewrite <- rev_app_distr, <- Er, rev_involutive. reflexivity. }
    split; [exact Es|]. split.
    { intros Z. apply N. destruct above; [reflexivity|].
      simpl in Z. destruct (rev above); discriminate. }
    split; [exact Pp|].
    intros r1 r2 Eb Nb.
    assert (below = (rev r2 ++ rev r1)%list) as Eb'.
    { rewrite <- rev_app_distr, <- Eb, rev_involutive. reflexivity. }
    pose proof (D (rev r2) (rev r1) Eb') as H.
    rewrite rev_app_distr, rev_involutive in H. apply H.
    intros Z. apply Nb. destruct r1; [reflexivity|].
    simpl in Z. destruct (rev r1); discriminate.
  - split.
    + intros E. rewrite E in S. intros dir rest Es N.
      pose proof (S (rev dir) (rev rest)) as H.
      rewrite rev_involutive in H. apply H.
      * rewrite Es, rev_app_distr. reflexivity.
      * intros Z. apply N. destruct dir; [reflexivity|].
        simpl in Z. destruct (rev dir); discriminate.
    + intros H. destruct (findUp existsSync (rev startDir)) as [p|]; [|reflexivity].
      destruct S as (P & above & below & Er & N & Pp & _).
      exfalso. rewrite Pp in P.
      rewrite (H (rev above) (rev below)) in P; [discriminate | |].
      * rewrite <- rev_app_distr, <- Er, rev_involutive. reflexivity.
      * intros Z. apply N. destruct above; [reflexivity|].
        simpl in Z. destruct (rev above); discriminate.
Qed.
